(** * MedCLIP / ConVIRT zero-shot evaluation: prompt generation and the
      classifier head

    A shallow embedding of

      - [baselines/convirt/eval_convirt.py]
          ([ConVIRT.forward], [ConVIRT.compute_loss],
           [ConVIRTClassifier.forward]);
      - [medclip/prompts.py]
          ([generate_class_prompts], [generate_chexpert_class_prompts],
           [generate_covid_class_prompts], [process_class_prompts]).

    Conventions of the embedding.

      - Python exceptions are the [Raise] case of [result].
      - Tensor entries have two embeddings.  Statements on shapes,
        exceptions, the reduction applied by the classifier head and the
        formula of the loss are made over exact reals extended with one
        non-number [NaN], which keeps 0/0 and leaves rounding out.  What
        [forward] returns as embeddings and logits is decided by float32
        rounding, overflow and underflow: for these the forward pass is
        embedded over an interface of the tensor library's arithmetic
        (module [Float]), with IEEE binary32 as its instance.
      - A 2-D tensor is its shape and its indexing function; a [dict] is an
        association list in insertion order (Python 3.7+).
      - The two global random generators ([random], [numpy.random]) are an
        explicit stream of raw draws threaded through the samplers.
      - The neural backbones, the projection head, the tokenizer and the
        hard-coded template tables of [medclip.constants] are parameters. *)

From Stdlib Require Import String Ascii List Arith PeanoNat Bool Lia.
From Stdlib Require Import Permutation ZArith.
From Stdlib Require Import Reals Lra.
From Stdlib Require QArith.
From Stdlib Require Import Floats.SpecFloat.
Import ListNotations.

Set Implicit Arguments.

(* ------------------------------------------------------------------ *)
(** * Exceptions *)

Inductive exn : Type :=
| IndexError
| KeyError (key : string)
| ValueError
| RuntimeError.

Inductive result (A : Type) : Type :=
| Ok (a : A)
| Raise (e : exn).

Arguments Ok {A} a.
Arguments Raise {A} e.

Definition bind {A B : Type} (m : result A) (k : A -> result B) : result B :=
  match m with
  | Ok a => k a
  | Raise e => Raise e
  end.

Notation "x <- m ;; k" := (bind m (fun x => k))
  (at level 61, m at next level, right associativity).

Definition raises {A : Type} (m : result A) : Prop := exists e, m = Raise e.

Definition returns {A : Type} (m : result A) : Prop := exists a, m = Ok a.

(* ------------------------------------------------------------------ *)
(** * Scalars: reals with a NaN *)

Inductive scalar : Type :=
| Fin (x : R)
| NaN.

Definition lift2 (f : R -> R -> R) (a b : scalar) : scalar :=
  match a, b with
  | Fin x, Fin y => Fin (f x y)
  | _, _ => NaN
  end.

Definition lift1 (f : R -> R) (a : scalar) : scalar :=
  match a with
  | Fin x => Fin (f x)
  | NaN => NaN
  end.

Definition sadd : scalar -> scalar -> scalar := lift2 Rplus.
Definition ssub : scalar -> scalar -> scalar := lift2 Rminus.
Definition smul : scalar -> scalar -> scalar := lift2 Rmult.
Definition smax : scalar -> scalar -> scalar := lift2 Rmax.
Definition sneg : scalar -> scalar := lift1 Ropp.
Definition ssqrt : scalar -> scalar := lift1 sqrt.
Definition sexp : scalar -> scalar := lift1 exp.

(** The exact quotient; [x / 0] is NaN.  Over exact reals the numerator is
    0 wherever the code divides by 0; the float32 quotients, with their
    infinities, are those of [Float.binary32]. *)
Definition sdiv (a b : scalar) : scalar :=
  match a, b with
  | Fin x, Fin y => if Req_dec_T y 0 then NaN else Fin (x / y)
  | _, _ => NaN
  end.

(** [log] is only ever taken of a sum of exponentials. *)
Definition slog (a : scalar) : scalar :=
  match a with
  | Fin x => if Rle_dec x 0 then NaN else Fin (ln x)
  | NaN => NaN
  end.

Definition ssum (l : list scalar) : scalar := fold_right sadd (Fin 0) l.

(** Maximum of a non-empty list, left to right; [NaN] on the empty list is
    never used: [torch_max] raises first. *)
Definition smax_list (l : list scalar) : scalar :=
  match l with
  | [] => NaN
  | a :: l' => fold_left smax l' a
  end.

Definition is_fin (a : scalar) : Prop := exists x, a = Fin x.

(* ------------------------------------------------------------------ *)
(** * Tensors *)

Record tensor1 : Type := Tensor1 {
  size1 : nat;
  at1 : nat -> scalar
}.

Record tensor2 : Type := Tensor2 {
  rows : nat;
  cols : nat;
  at2 : nat -> nat -> scalar
}.

(** Row [i] as a list, [t[i, :]]. *)
Definition row (t : tensor2) (i : nat) : list scalar :=
  map (at2 t i) (seq 0 (cols t)).

(** A tensor from nested lists; every row is read up to [c] entries. *)
Definition of_rows (c : nat) (l : list (list scalar)) : tensor2 :=
  Tensor2 (length l) c (fun i j => nth j (nth i l []) NaN).

(** [t.T] *)
Definition transpose (t : tensor2) : tensor2 :=
  Tensor2 (cols t) (rows t) (fun i j => at2 t j i).

(** [t.norm(dim=-1, keepdim=True)]: the exact 2-norm of every row, shape
    (rows,1).  The float32 norm, which can overflow and underflow, is
    [Float.norm_keepdim]. *)
Definition norm_keepdim (t : tensor2) : tensor2 :=
  Tensor2 (rows t) 1
    (fun i _ => ssqrt (ssum (map (fun x => smul x x) (row t i)))).

(** [t / d] where [d] has one column, broadcast along the last dimension. *)
Definition tdiv (t d : tensor2) : tensor2 :=
  Tensor2 (rows t) (cols t) (fun i j => sdiv (at2 t i j) (at2 d i 0)).

(** [t / c] for a Python float [c]. *)
Definition tdiv_scalar (t : tensor2) (c : scalar) : tensor2 :=
  Tensor2 (rows t) (cols t) (fun i j => sdiv (at2 t i j) c).

(** [torch.matmul(a, b)]; RuntimeError when the inner sizes differ. *)
Definition matmul (a b : tensor2) : result tensor2 :=
  if cols a =? rows b then
    Ok (Tensor2 (rows a) (cols b)
          (fun i j =>
             ssum (map (fun k => smul (at2 a i k) (at2 b k j))
                       (seq 0 (cols a)))))
  else Raise RuntimeError.

(** [torch.mean(t, 1)]: the exact sum over the row divided by the row
    length; an empty row gives 0/0 = NaN and no exception. *)
Definition torch_mean (t : tensor2) : tensor1 :=
  Tensor1 (rows t)
    (fun i => sdiv (ssum (row t i)) (Fin (INR (cols t)))).

(** [torch.max(t, 1)[0]]: raises on a reduction dimension of size 0. *)
Definition torch_max (t : tensor2) : result tensor1 :=
  if cols t =? 0 then Raise IndexError
  else Ok (Tensor1 (rows t) (fun i => smax_list (row t i))).

(** [torch.stack(ts, 1)]: needs a non-empty list of equally sized tensors;
    tensor [j] of the list becomes column [j]. *)
Definition torch_stack (ts : list tensor1) : result tensor2 :=
  match ts with
  | [] => Raise RuntimeError
  | t0 :: _ =>
      if forallb (fun t => size1 t =? size1 t0) ts then
        Ok (Tensor2 (size1 t0) (length ts)
              (fun i j => at1 (nth j ts (Tensor1 0 (fun _ => NaN))) i))
      else Raise RuntimeError
  end.

(** [torch.arange(n)] *)
Definition arange (n : nat) : list nat := seq 0 n.

(** [nn.CrossEntropyLoss()(input, target)] with class-index targets and the
    default mean reduction: the mean over the rows of
    [- log_softmax(input)[i, target[i]]].  The batch sizes must agree and
    every target must be a valid class index. *)
Definition log_softmax (t : tensor2) (i j : nat) : scalar :=
  ssub (at2 t i j) (slog (ssum (map sexp (row t i)))).

Definition CrossEntropyLoss (input : tensor2) (target : list nat)
  : result scalar :=
  if negb (length target =? rows input) then Raise ValueError
  else if existsb (fun c => cols input <=? c) target then Raise IndexError
  else
    Ok (sdiv
          (ssum (map (fun ic => sneg (log_softmax input (fst ic) (snd ic)))
                     (combine (seq 0 (rows input)) target)))
          (Fin (INR (rows input)))).

(* ------------------------------------------------------------------ *)
(** * Tokenizer output *)

Record BatchEncoding : Type := {
  input_ids : list (list nat);
  attention_mask : list (list nat)
}.

(** Number of prompts in a tokenized batch. *)
Definition num_prompts (enc : BatchEncoding) : nat := length (input_ids enc).

(* ------------------------------------------------------------------ *)
(** * The dual encoder, [class ConVIRT] *)

Record Outputs : Type := {
  img_embeds : tensor2;
  text_embeds : tensor2;
  logits : tensor2;
  logits_per_text : tensor2;
  loss_value : option scalar
}.

Definition set_loss_value (o : Outputs) (l : scalar) : Outputs :=
  {| img_embeds := img_embeds o;
     text_embeds := text_embeds o;
     logits := logits o;
     logits_per_text := logits_per_text o;
     loss_value := Some l |}.

Module ConVIRT.

(** Width of the two projection heads, [nn.Linear(_, 512)]. *)
Definition embed_dim : nat := 512.

(** [self.lamb = 0.75], [self.temperature = 0.1] *)
Definition lamb : scalar := Fin (75 / 100).
Definition temperature : scalar := Fin (1 / 10).

Definition compute_loss (logits : tensor2) : result scalar :=
  image_loss <- CrossEntropyLoss logits (arange (rows logits)) ;;
  caption_loss <-
    CrossEntropyLoss (transpose logits)
                     (arange (rows (transpose logits))) ;;
  Ok (sadd (smul lamb image_loss)
           (smul (ssub (Fin 1) lamb) caption_loss)).

Section Encoders.

(** The pretrained networks: the ResNet with its 512-wide [fc], the
    BERT model (its [pooler_output]) and [text_projection_head].  The
    keyword arguments [input_ids] and [attention_mask] of [forward] travel
    together as one [BatchEncoding]; [.cuda()] moves data and changes no
    value. *)
Variable Image : Type.
Variable image_model : list Image -> tensor2.
Variable text_model : list (list nat) -> list (list nat) -> tensor2.
Variable text_projection_head : tensor2 -> tensor2.

Definition forward (enc : BatchEncoding) (pixel_values : list Image)
           (return_loss : bool) : result Outputs :=
  (* image encoding *)
  let img_embed := image_model pixel_values in
  let img_embed := tdiv img_embed (norm_keepdim img_embed) in
  (* text encoding *)
  let text_embed := text_model (input_ids enc) (attention_mask enc) in
  let text_embed := text_projection_head text_embed in
  let text_embed := tdiv text_embed (norm_keepdim text_embed) in
  prod <- matmul img_embed (transpose text_embed) ;;
  let logits := tdiv_scalar prod temperature in
  let outputs :=
    {| img_embeds := img_embed;
       text_embeds := text_embed;
       logits := logits;
       logits_per_text := transpose logits;
       loss_value := None |} in
  if return_loss then
    loss <- compute_loss logits ;;
    Ok (set_loss_value outputs loss)
  else Ok outputs.

(** What the architecture guarantees about shapes: one row per image
    or prompt, [embed_dim] columns. *)
Definition encoders_shaped : Prop :=
  (forall pv, rows (image_model pv) = length pv
              /\ cols (image_model pv) = embed_dim)
  /\ (forall ids mask, rows (text_model ids mask) = length ids)
  /\ (forall t, rows (text_projection_head t) = rows t
                /\ cols (text_projection_head t) = embed_dim).

End Encoders.

End ConVIRT.

(* ------------------------------------------------------------------ *)
(** * The dual encoder over float32 tensors *)

(** The tensors of the program hold IEEE binary32 numbers, and what
    [x / x.norm(dim=-1, keepdim=True)] returns is decided by their
    rounding, overflow and underflow.  For the statements on the
    embeddings and the logits, [forward] is therefore embedded a second
    time, over an interface of the tensor library's arithmetic that
    binary32 instantiates; the exact scalars above serve the statements on
    shapes, exceptions and the formula of the loss. *)

Module Float.

(** A Python float as the source writes it, [0.1] or [0.75], and the
    subtraction of two of them. *)
Definition pyfloat : Type := QArith_base.Q.

Definition decimal (n : Z) (d : positive) : pyfloat := QArith_base.Qmake n d.

Definition py_sub : pyfloat -> pyfloat -> pyfloat := QArith_base.Qminus.

(** What [forward] and [compute_loss] ask of the tensor library, over
    the type [F] of tensor entries: a Python float as a scalar operand,
    the entrywise [+], [*] and [/], the 2-norm of a row ([x.norm]) and the
    inner product of two rows ([torch.matmul]); [is_zero] recognises the
    two zeros and [is_nan] the non-numbers. *)
Record arith (F : Type) : Type := Arith {
  of_float : pyfloat -> F;
  add : F -> F -> F;
  mul : F -> F -> F;
  div : F -> F -> F;
  norm : list F -> F;
  dot : list F -> list F -> F;
  is_zero : F -> bool;
  is_nan : F -> bool
}.

Record tensor2 (F : Type) : Type := Tensor2 {
  rows : nat;
  cols : nat;
  at2 : nat -> nat -> F
}.

Record Outputs (F : Type) : Type := {
  img_embeds : tensor2 F;
  text_embeds : tensor2 F;
  logits : tensor2 F;
  logits_per_text : tensor2 F;
  loss_value : option F
}.

Definition set_loss_value {F : Type} (o : Outputs F) (l : F) : Outputs F :=
  {| img_embeds := img_embeds o;
     text_embeds := text_embeds o;
     logits := logits o;
     logits_per_text := logits_per_text o;
     loss_value := Some l |}.

Section Tensors.

Variable F : Type.
Variable A : arith F.

(** Row [i] and column [j] as lists, [t[i, :]] and [t[:, j]]. *)
Definition row (t : tensor2 F) (i : nat) : list F :=
  map (at2 t i) (seq 0 (cols t)).

Definition column (t : tensor2 F) (j : nat) : list F :=
  map (fun k => at2 t k j) (seq 0 (rows t)).

(** [t.t()] and [t.T] *)
Definition transpose (t : tensor2 F) : tensor2 F :=
  Tensor2 (cols t) (rows t) (fun i j => at2 t j i).

(** [t.norm(dim=-1, keepdim=True)], shape (rows, 1). *)
Definition norm_keepdim (t : tensor2 F) : tensor2 F :=
  Tensor2 (rows t) 1 (fun i _ => norm A (row t i)).

(** [t / d] where [d] has one column, broadcast along the last dimension. *)
Definition tdiv (t d : tensor2 F) : tensor2 F :=
  Tensor2 (rows t) (cols t) (fun i j => div A (at2 t i j) (at2 d i 0)).

(** [t / c] for a Python float [c]. *)
Definition tdiv_scalar (t : tensor2 F) (c : pyfloat) : tensor2 F :=
  Tensor2 (rows t) (cols t) (fun i j => div A (at2 t i j) (of_float A c)).

(** [torch.matmul(a, b)]; RuntimeError when the inner sizes differ. *)
Definition matmul (a b : tensor2 F) : result (tensor2 F) :=
  if cols a =? rows b then
    Ok (Tensor2 (rows a) (cols b)
          (fun i j => dot A (row a i) (column b j)))
  else Raise RuntimeError.

End Tensors.

(** ** IEEE binary32 *)

Definition prec : Z := 24.
Definition emax : Z := 128.

Definition of_Z (z : Z) : spec_float := binary_normalize prec emax z 0 false.

Definition one : spec_float := of_Z 1.

(** Sums run left to right from [+0.0].  The library may add in another
    order; the instance is evaluated only on rows with at most one entry
    that is not zero, where the order makes no difference. *)
Definition sum (l : list spec_float) : spec_float :=
  fold_left (SFadd prec emax) l (S754_zero false).

Definition binary32 : arith spec_float :=
  {| of_float :=
       fun q => SFdiv prec emax (of_Z (QArith_base.Qnum q))
                      (of_Z (Zpos (QArith_base.Qden q)));
     add := SFadd prec emax;
     mul := SFmul prec emax;
     div := SFdiv prec emax;
     norm :=
       fun l => SFsqrt prec emax (sum (map (fun x => SFmul prec emax x x) l));
     dot :=
       fun a b =>
         sum (map (fun p => SFmul prec emax (fst p) (snd p)) (combine a b));
     is_zero := fun x => match x with S754_zero _ => true | _ => false end;
     is_nan := fun x => match x with S754_nan => true | _ => false end |}.

End Float.

Module FloatConVIRT.

(** [self.lamb = 0.75], [self.temperature = 0.1] *)
Definition lamb : Float.pyfloat := Float.decimal 75 100.
Definition temperature : Float.pyfloat := Float.decimal 1 10.

Section Encoders.

Variable F : Type.
Variable A : Float.arith F.

(** [nn.CrossEntropyLoss()], a module of the library. *)
Variable CrossEntropyLoss : Float.tensor2 F -> list nat -> result F.

Variable Image : Type.
Variable image_model : list Image -> Float.tensor2 F.
Variable text_model : list (list nat) -> list (list nat) -> Float.tensor2 F.
Variable text_projection_head : Float.tensor2 F -> Float.tensor2 F.

Definition compute_loss (logits : Float.tensor2 F) : result F :=
  image_loss <- CrossEntropyLoss logits (arange (Float.rows logits)) ;;
  caption_loss <-
    CrossEntropyLoss (Float.transpose logits)
                     (arange (Float.rows (Float.transpose logits))) ;;
  Ok (Float.add A
        (Float.mul A (Float.of_float A lamb) image_loss)
        (Float.mul A
           (Float.of_float A (Float.py_sub (Float.decimal 1 1) lamb))
           caption_loss)).

Definition forward (enc : BatchEncoding) (pixel_values : list Image)
           (return_loss : bool) : result (Float.Outputs F) :=
  (* image encoding *)
  let img_embed := image_model pixel_values in
  let img_embed := Float.tdiv A img_embed (Float.norm_keepdim A img_embed) in
  (* text encoding *)
  let text_embed := text_model (input_ids enc) (attention_mask enc) in
  let text_embed := text_projection_head text_embed in
  let text_embed :=
    Float.tdiv A text_embed (Float.norm_keepdim A text_embed) in
  prod <- Float.matmul A img_embed (Float.transpose text_embed) ;;
  let logits := Float.tdiv_scalar A prod temperature in
  let outputs :=
    {| Float.img_embeds := img_embed;
       Float.text_embeds := text_embed;
       Float.logits := logits;
       Float.logits_per_text := Float.transpose logits;
       Float.loss_value := None |} in
  if return_loss then
    loss <- compute_loss logits ;;
    Ok (Float.set_loss_value outputs loss)
  else Ok outputs.

End Encoders.

End FloatConVIRT.

(* ------------------------------------------------------------------ *)
(** * The classifier head, [class ConVIRTClassifier] *)

Record ClassifierOutputs : Type := {
  clf_logits : tensor2;
  class_names : list string
}.

Module ConVIRTClassifier.

Section Classifier.

Variable Image : Type.

(** [self.model], called with the image batch, the class's tokenized
    prompts and [return_loss]. *)
Variable model : BatchEncoding -> list Image -> bool -> result Outputs.
Variable ensemble : bool.

(** [if self.ensemble: torch.mean(logits, 1)
     else: torch.max(logits, 1)[0]] *)
Definition class_similarity (logits : tensor2) : result tensor1 :=
  if ensemble then Ok (torch_mean logits) else torch_max logits.

(** The body of [for cls_name, cls_text in prompt_inputs.items()],
    with the two accumulator lists as loop state. *)
Fixpoint forward_loop (pixel_values : list Image)
         (items : list (string * BatchEncoding))
         (class_similarities : list tensor1) (names : list string)
  : result (list tensor1 * list string) :=
  match items with
  | [] => Ok (class_similarities, names)
  | (cls_name, cls_text) :: rest =>
      medclip_outputs <- model cls_text pixel_values false ;;
      let logits := logits medclip_outputs in
      cls_sim <- class_similarity logits ;;
      forward_loop pixel_values rest
                   (class_similarities ++ [cls_sim])
                   (names ++ [cls_name])
  end.

Definition forward (pixel_values : list Image)
           (prompt_inputs : list (string * BatchEncoding))
  : result ClassifierOutputs :=
  acc <- forward_loop pixel_values prompt_inputs [] [] ;;
  class_similarities <- torch_stack (fst acc) ;;
  Ok {| clf_logits := class_similarities; class_names := snd acc |}.

End Classifier.

End ConVIRTClassifier.

(* ------------------------------------------------------------------ *)
(** * Python containers *)

(** [l[i]] *)
Definition list_getitem {A : Type} (l : list A) (i : nat) : result A :=
  match nth_error l i with
  | Some x => Ok x
  | None => Raise IndexError
  end.

(** [l[i] = x], for [i] in range. *)
Fixpoint list_setitem {A : Type} (l : list A) (i : nat) (x : A) : list A :=
  match l, i with
  | [], _ => []
  | _ :: l', 0 => x :: l'
  | a :: l', S i' => a :: list_setitem l' i' x
  end.

(** [for x in l: s = body(x, s)], stopping at the first exception. *)
Fixpoint for_each {A S : Type} (l : list A) (body : A -> S -> result S)
         (s : S) : result S :=
  match l with
  | [] => Ok s
  | x :: l' => s' <- body x s ;; for_each l' body s'
  end.

Module Dict.

(** A [dict] with string keys, in insertion order. *)
Definition t (V : Type) : Type := list (string * V).

Definition keys {V : Type} (d : t V) : list string := map fst d.

Fixpoint get {V : Type} (d : t V) (k : string) : option V :=
  match d with
  | [] => None
  | (k', v) :: d' => if String.eqb k' k then Some v else get d' k
  end.

(** [d[k]] *)
Definition getitem {V : Type} (d : t V) (k : string) : result V :=
  match get d k with
  | Some v => Ok v
  | None => Raise (KeyError k)
  end.

(** [d[k] = v]: an existing key keeps its position. *)
Fixpoint setitem {V : Type} (d : t V) (k : string) (v : V) : t V :=
  match d with
  | [] => [(k, v)]
  | (k', v') :: d' =>
      if String.eqb k' k then (k', v) :: d'
      else (k', v') :: setitem d' k v
  end.

(** Keys of a Python dict are pairwise distinct. *)
Definition wf {V : Type} (d : t V) : Prop := NoDup (keys d).

End Dict.

(* ------------------------------------------------------------------ *)
(** * Random sampling *)

(** The generator state: the raw draws still to come. *)
Definition rng : Type := list nat.

(** [randbelow(n)] for [n > 0]. *)
Definition randbelow (n : nat) (g : rng) : nat * rng :=
  match g with
  | [] => (0, [])
  | x :: g' => (x mod n, g')
  end.

(** The loop of [random.sample] over its pool:
    [j = randbelow(n-i); result[i] = pool[j]; pool[j] = pool[n-i-1]]. *)
Fixpoint sample_loop {A : Type} (steps i n : nat) (pool : list A) (g : rng)
  : result (list A * rng) :=
  match steps with
  | 0 => Ok ([], g)
  | S steps' =>
      let (j, g1) := randbelow (n - i) g in
      x <- list_getitem pool j ;;
      y <- list_getitem pool (n - i - 1) ;;
      r <- sample_loop steps' (S i) n (list_setitem pool j y) g1 ;;
      Ok (x :: fst r, snd r)
  end.

(** [random.sample(population, k)]: [k] elements at pairwise distinct
    positions of the population; ValueError when [k] exceeds its length.
    (CPython switches to rejection sampling over a set of chosen indices
    for large populations, with the same contract.) *)
Definition random_sample {A : Type} (population : list A) (k : nat) (g : rng)
  : result (list A * rng) :=
  let n := length population in
  if n <? k then Raise ValueError
  else sample_loop k 0 n population g.

(** The shared tail of the three generators:
    [if n is not None and n < len(xs): sample(xs, n) else: xs], where the
    sample is [random.sample(xs, n)] for the templates and
    [df_sub_sent.sample(n)] (rows drawn without replacement) for the
    sentence table. *)
Definition sample_if_smaller {A : Type} (n : option nat) (xs : list A)
           (g : rng) : result (list A * rng) :=
  match n with
  | Some n' =>
      if n' <? length xs then random_sample xs n' g else Ok (xs, g)
  | None => Ok (xs, g)
  end.

(* ------------------------------------------------------------------ *)
(** * [medclip/prompts.py] *)

(** One row of the sentence table: the text of column ['Reports'] and one
    label per task column; [None] is a missing value (NaN).  Texts are
    strings of one-byte characters, so that [len] is [String.length]. *)
Record sentence : Type := {
  Reports : string;
  labels : list (option Z)
}.

(** [pd.DataFrame] with [columns = ['Reports', task1, task2, ...]]. *)
Record DataFrame : Type := {
  tasks : list string;
  sentences : list sentence
}.

(** Column names are pairwise distinct (as [pd.read_csv] makes them). *)
Definition wf_frame (df : DataFrame) : Prop :=
  NoDup ("Reports"%string :: tasks df).

(** The [task] argument: [None], one name, or a list of names. *)
Inductive task_arg : Type :=
| TaskNone
| TaskName (name : string)
| TaskList (names : list string).

Fixpoint index_of (k : string) (l : list string) : option nat :=
  match l with
  | [] => None
  | k' :: l' =>
      if String.eqb k' k then Some 0
      else option_map S (index_of k l')
  end.

(** The entry of a row in label column [c] after [fillna(0)]. *)
Definition filled_label (r : sentence) (c : nat) : Z :=
  match nth c (labels r) None with
  | Some z => z
  | None => 0%Z
  end.

(** [df_sent[task] == 1] as a row mask; KeyError for an unknown column.
    The text column compares unequal to 1 on every row. *)
Definition column_eq_1 (df : DataFrame) (task : string)
  : result (sentence -> bool) :=
  if String.eqb task "Reports"%string then Ok (fun _ => false)
  else
    match index_of task (tasks df) with
    | Some c => Ok (fun r => Z.eqb (filled_label r c) 1)
    | None => Raise (KeyError task)
    end.

(** [(df_sent[other_tasks] == 0).all(1)] as a row mask. *)
Definition columns_all_0 (df : DataFrame) (other_tasks : list string)
           (r : sentence) : bool :=
  forallb (fun t => match index_of t (tasks df) with
                    | Some c => Z.eqb (filled_label r c) 0
                    | None => true
                    end) other_tasks.

Module prompts.

Definition generate_class_prompts_loop (df : DataFrame)
           (df_sent : list sentence) (all_tasks : list string)
           (n : option nat) (task : string)
           (st : Dict.t (list string) * rng)
  : result (Dict.t (list string) * rng) :=
  let other_tasks :=
    filter (fun t => negb (String.eqb t task)) all_tasks in
  is_one <- column_eq_1 df task ;;
  let df_sub_sent :=
    filter (fun r => is_one r && columns_all_0 df other_tasks r) df_sent in
  sampled <- sample_if_smaller n df_sub_sent (snd st) ;;
  Ok (Dict.setitem (fst st) task (map Reports (fst sampled)), snd sampled).

(** [target_tasks]: the list given, the one name given, or all tasks. *)
Definition target_tasks (all_tasks : list string) (task : task_arg)
  : list string :=
  match task with
  | TaskList l => l
  | TaskName t => [t]
  | TaskNone => all_tasks
  end.

Definition generate_class_prompts (df : DataFrame) (task : task_arg)
           (n : option nat) (g : rng)
  : result (Dict.t (list string) * rng) :=
  (* fillna(0) is folded into [filled_label] *)
  let df_sent :=
    filter (fun r => 4 <? String.length (Reports r)) (sentences df) in
  let all_tasks := tasks df in
  for_each (target_tasks all_tasks task)
           (generate_class_prompts_loop df df_sent all_tasks n)
           ([], g).

(** The f-strings ["{k0} {k1} {k2}"] and ["{k0} {k1} {k2} {k3}"]. *)
Definition space_join (parts : list string) : string :=
  String.concat " "%string parts.

(** [v[keys[i]]] for [keys = list(v.keys())] *)
Definition component (v : Dict.t (list string)) (i : nat)
  : result (list string) :=
  k <- list_getitem (Dict.keys v) i ;;
  Dict.getitem v k.

(** The three nested loops filling [cls_prompts]. *)
Definition chexpert_cls_prompts (v : Dict.t (list string))
  : result (list string) :=
  l0 <- component v 0 ;;
  for_each l0 (fun k0 acc =>
    l1 <- component v 1 ;;
    for_each l1 (fun k1 acc =>
      l2 <- component v 2 ;;
      for_each l2 (fun k2 acc =>
        Ok (acc ++ [space_join [k0; k1; k2]])) acc) acc) [].

(** The four nested loops filling [cls_prompts]. *)
Definition covid_cls_prompts (v : Dict.t (list string))
  : result (list string) :=
  l0 <- component v 0 ;;
  for_each l0 (fun k0 acc =>
    l1 <- component v 1 ;;
    for_each l1 (fun k1 acc =>
      l2 <- component v 2 ;;
      for_each l2 (fun k2 acc =>
        l3 <- component v 3 ;;
        for_each l3 (fun k3 acc =>
          Ok (acc ++ [space_join [k0; k1; k2; k3]])) acc) acc) acc) [].

(** The body shared by the two template generators, for the class
    [(k, v)] of the template table. *)
Definition template_loop
           (cls_prompts_of : Dict.t (list string) -> result (list string))
           (n : option nat) (kv : string * Dict.t (list string))
           (st : Dict.t (list string) * rng)
  : result (Dict.t (list string) * rng) :=
  cls_prompts <- cls_prompts_of (snd kv) ;;
  sampled <- sample_if_smaller n cls_prompts (snd st) ;;
  Ok (Dict.setitem (fst st) (fst kv) (fst sampled), snd sampled).

Section Constants.

(** [constants.CHEXPERT_CLASS_PROMPTS], [constants.COVID_CLASS_PROMPTS]:
    class -> component name -> phrases. *)
Variable CHEXPERT_CLASS_PROMPTS : Dict.t (Dict.t (list string)).
Variable COVID_CLASS_PROMPTS : Dict.t (Dict.t (list string)).

Definition generate_chexpert_class_prompts (n : option nat) (g : rng)
  : result (Dict.t (list string) * rng) :=
  for_each CHEXPERT_CLASS_PROMPTS
           (template_loop chexpert_cls_prompts n) ([], g).

Definition generate_covid_class_prompts (n : option nat) (g : rng)
  : result (Dict.t (list string) * rng) :=
  for_each COVID_CLASS_PROMPTS
           (template_loop covid_cls_prompts n) ([], g).

End Constants.

(** A loaded tokenizer: its [model_max_length] attribute and what a call
    [tokenizer(texts, truncation=_, padding=_, return_tensors='pt')]
    returns under a given maximum length. *)
Record Tokenizer : Type := {
  model_max_length : nat;
  encode : nat -> bool -> bool -> list string -> BatchEncoding
}.

Definition set_model_max_length (tok : Tokenizer) (m : nat) : Tokenizer :=
  {| model_max_length := m; encode := encode tok |}.

Definition call (tok : Tokenizer) (texts : list string)
           (truncation padding : bool) : BatchEncoding :=
  encode tok (model_max_length tok) truncation padding texts.

Section Tokenizer.

(** [AutoTokenizer.from_pretrained(constants.BERT_TYPE)] *)
Variable pretrained : Tokenizer.

Definition process_class_prompts (cls_prompts : Dict.t (list string))
  : Dict.t BatchEncoding :=
  let tokenizer := set_model_max_length pretrained 77 in
  fold_left
    (fun cls_prompt_inputs kv =>
       let text_inputs := call tokenizer (snd kv) true true in
       Dict.setitem cls_prompt_inputs (fst kv) text_inputs)
    cls_prompts [].

End Tokenizer.

End prompts.

(* ------------------------------------------------------------------ *)
(** * Vocabulary of the specification *)

Definition Rsum (l : list R) : R := fold_right Rplus 0%R l.

Definition to_R (a : scalar) : R :=
  match a with
  | Fin x => x
  | NaN => 0%R
  end.

Definition finite_row (t : tensor2) (i : nat) : Prop :=
  forall k, k < cols t -> is_fin (at2 t i k).

(** Arithmetic mean and maximum of the entries of one row of logits. *)
Definition arithmetic_mean (l : list scalar) : scalar :=
  sdiv (ssum l) (Fin (INR (length l))).

Definition maximum (l : list scalar) : scalar := smax_list l.

(** [m] is the greatest of the reals [xs]. *)
Definition is_greatest (xs : list R) (m : R) : Prop :=
  In m xs /\ forall x, In x xs -> (x <= m)%R.

(** The reduction of a class's logit matrix selected by the flag. *)
Definition reduce_row (ensemble : bool) (l : list scalar) : scalar :=
  if ensemble then arithmetic_mean l else maximum l.

(** One class's column: the reduced logits of the model on its prompts. *)
Definition column_of {Image : Type}
           (model : BatchEncoding -> list Image -> bool -> result Outputs)
           (ensemble : bool) (pixel_values : list Image)
           (item : string * BatchEncoding) (c : tensor1) : Prop :=
  exists mo,
    model (snd item) pixel_values false = Ok mo
    /\ ConVIRTClassifier.class_similarity ensemble (logits mo) = Ok c.

(** [res] is [k] draws without replacement from [pop]: the elements at [k]
    pairwise distinct positions. *)
Definition drawn_without_replacement {A : Type} (pop res : list A) (k : nat)
  : Prop :=
  length res = k /\ exists rest, Permutation (res ++ rest) pop.

(** What a sampling step may return for the candidates [cands]. *)
Definition sampled_from {A : Type} (n : option nat) (cands sampled : list A)
  : Prop :=
  match n with
  | Some m =>
      if m <? length cands
      then drawn_without_replacement cands sampled m
           /\ incl sampled cands
           /\ (NoDup cands -> NoDup sampled)
      else sampled = cands
  | None => sampled = cands
  end.

(** The common shape of the three generator loops: compute a value for
    the key of [a] from the generator state and store it under that key. *)
Definition dict_step {A V : Type} (key : A -> string)
           (step : A -> rng -> result (V * rng))
           (a : A) (st : Dict.t V * rng) : result (Dict.t V * rng) :=
  r <- step a (snd st) ;;
  Ok (Dict.setitem (fst st) (key a) (fst r), snd r).

(** The value the template generators store for one class. *)
Definition template_step
           (cls_prompts_of : Dict.t (list string) -> result (list string))
           (n : option nat) (kv : string * Dict.t (list string)) (g : rng)
  : result (list string * rng) :=
  cls_prompts <- cls_prompts_of (snd kv) ;;
  sample_if_smaller n cls_prompts g.

(** The rows [generate_class_prompts] keeps for one task, and the value it
    stores for it. *)
Definition task_rows (df : DataFrame) (task : string)
  : result (list sentence) :=
  is_one <- column_eq_1 df task ;;
  Ok (filter
        (fun r =>
           is_one r
           && columns_all_0 df
                (filter (fun t => negb (String.eqb t task)) (tasks df)) r)
        (filter (fun r => 4 <? String.length (Reports r)) (sentences df))).

Definition task_step (df : DataFrame) (n : option nat) (task : string)
           (g : rng) : result (list string * rng) :=
  rows <- task_rows df task ;;
  sampled <- sample_if_smaller n rows g ;;
  Ok (map Reports (fst sampled), snd sampled).

(** The phrase lists of one class of a template, in order. *)
Definition components (v : Dict.t (list string)) : list (list string) :=
  map snd v.

(** A template table in which every class lists [k] phrase lists. *)
Definition template_shaped (k : nat)
           (template : Dict.t (Dict.t (list string))) : Prop :=
  Dict.wf template
  /\ forall c v, In (c, v) template -> Dict.wf v /\ length v = k.

(** Pairwise distinctness of strings, decided. *)
Fixpoint nodupb (l : list string) : bool :=
  match l with
  | [] => true
  | x :: l' => negb (existsb (String.eqb x) l') && nodupb l'
  end.

(** The cross product of phrase lists, first list outermost, every
    combination space-joined. *)
Definition cross3 (l0 l1 l2 : list string) : list string :=
  flat_map (fun k0 =>
    flat_map (fun k1 =>
      map (fun k2 => prompts.space_join [k0; k1; k2]) l2) l1) l0.

Definition cross4 (l0 l1 l2 l3 : list string) : list string :=
  flat_map (fun k0 =>
    flat_map (fun k1 =>
      flat_map (fun k2 =>
        map (fun k3 => prompts.space_join [k0; k1; k2; k3]) l3) l2) l1) l0.

(** A row qualifies for [task]: long enough text, label 1 for the task and
    label 0 or missing for every other task. *)
Definition label_at (df : DataFrame) (r : sentence) (t : string)
  : option (option Z) :=
  match index_of t (tasks df) with
  | Some c => Some (nth c (labels r) None)
  | None => None
  end.

Definition qualifies (df : DataFrame) (task : string) (r : sentence) : Prop :=
  4 < String.length (Reports r)
  /\ label_at df r task = Some (Some 1%Z)
  /\ forall t, In t (tasks df) -> t <> task ->
               label_at df r t = Some (Some 0%Z)
               \/ label_at df r t = Some None.


(** Decidable form of [qualifies], as the code evaluates it. *)
Definition qualifiesb (df : DataFrame) (task : string) (r : sentence) : bool :=
  (4 <? String.length (Reports r))
  && match index_of task (tasks df) with
     | Some c => Z.eqb (filled_label r c) 1
     | None => false
     end
  && columns_all_0 df
       (filter (fun t => negb (String.eqb t task)) (tasks df)) r.

(** ** Rows of float32 tensors *)

(** Every entry of row [i] is a zero, or is a non-number. *)
Definition zero_row {F : Type} (A : Float.arith F) (t : Float.tensor2 F)
           (i : nat) : Prop :=
  forall k, k < Float.cols t -> Float.is_zero A (Float.at2 t i k) = true.

Definition nan_row {F : Type} (A : Float.arith F) (t : Float.tensor2 F)
           (i : nat) : Prop :=
  forall k, k < Float.cols t -> Float.is_nan A (Float.at2 t i k) = true.

(** Two facts of IEEE 754 arithmetic: the norm of a row of zeros is a
    zero, whatever the order of the additions, and a zero divided by a
    zero is not a number. *)
Definition ieee_zero_laws {F : Type} (A : Float.arith F) : Prop :=
  (forall l, forallb (Float.is_zero A) l = true ->
             Float.is_zero A (Float.norm A l) = true)
  /\ (forall x d, Float.is_zero A x = true -> Float.is_zero A d = true ->
                  Float.is_nan A (Float.div A x d) = true).

(** Two more: a non-number spreads through an inner product, from either
    operand, and through a quotient. *)
Definition ieee_nan_laws {F : Type} (A : Float.arith F) : Prop :=
  (forall a b, a <> [] -> length a = length b ->
               forallb (Float.is_nan A) a = true
               \/ forallb (Float.is_nan A) b = true ->
               Float.is_nan A (Float.dot A a b) = true)
  /\ (forall x c, Float.is_nan A x = true ->
                  Float.is_nan A (Float.div A x c) = true).


(* ------------------------------------------------------------------ *)
(** * Small concrete instances *)

Module Toy.

(** An image is one real; the image network puts it in coordinate 0 of
    the embedding (an [fc] layer reading one feature, zero bias). *)
Definition image_model (pv : list R) : tensor2 :=
  Tensor2 (length pv) ConVIRT.embed_dim
    (fun i k => Fin (if k =? 0 then nth i pv 0%R else 0%R)).

(** The text network pools every prompt to the first basis vector. *)
Definition text_model (ids mask : list (list nat)) : tensor2 :=
  Tensor2 (length ids) 768
    (fun i k => Fin (if k =? 0 then 1%R else 0%R)).

(** The projection keeps the first 512 of the 768 coordinates. *)
Definition text_projection_head (t : tensor2) : tensor2 :=
  Tensor2 (rows t) ConVIRT.embed_dim (at2 t).

Definition forward : BatchEncoding -> list R -> bool -> result Outputs :=
  ConVIRT.forward image_model text_model text_projection_head.

Definition one_prompt : BatchEncoding :=
  {| input_ids := [[101; 2053; 102]]; attention_mask := [[1; 1; 1]] |}.

Definition two_prompts : BatchEncoding :=
  {| input_ids := [[101; 2053; 102]; [101; 7; 102]];
     attention_mask := [[1; 1; 1]; [1; 1; 1]] |}.

Definition no_prompts : BatchEncoding :=
  {| input_ids := []; attention_mask := [] |}.

Definition tokenized : list (string * BatchEncoding) :=
  [("Edema"%string, two_prompts); ("Pneumonia"%string, one_prompt)].

Definition with_empty_class : list (string * BatchEncoding) :=
  [("Edema"%string, one_prompt); ("Pneumonia"%string, no_prompts)].

(** The synthetic logits of two images against three prompts. *)
Definition logits23 : tensor2 :=
  of_rows 3 [[Fin 1; Fin 2; Fin 6]; [Fin 4; Fin (-1); Fin 0]].

(** A model that returns [logits23] whatever it is given. *)
Definition const_model (_ : BatchEncoding) (_ : list R) (_ : bool)
  : result Outputs :=
  Ok {| img_embeds := logits23; text_embeds := logits23;
        logits := logits23; logits_per_text := transpose logits23;
        loss_value := None |}.

(** A one-class template whose severity phrase is listed three times. *)
Definition repeated_template : Dict.t (Dict.t (list string)) :=
  [("Edema"%string,
    [("severity"%string, ["mild"; "mild"; "mild"]%string);
     ("subtype"%string, ["pulmonary edema"]%string);
     ("location"%string, ["at the bases"]%string)])].

Definition template3 : Dict.t (Dict.t (list string)) :=
  [("Edema"%string,
    [("severity"%string, [EmptyString; "mild"%string]);
     ("subtype"%string, ["edema"; "vascular congestion"]%string);
     ("location"%string, ["at the bases"]%string)])].

Definition template4 : Dict.t (Dict.t (list string)) :=
  [("COVID"%string,
    [("adjective"%string, ["patchy"; "confluent"]%string);
     ("description"%string, ["ground glass opacities"]%string);
     ("subtype"%string, ["in"; "at"]%string);
     ("location"%string, ["both lungs"]%string)])].

(** Two task columns; the only row is positive for the first and has no
    value for the second. *)
Definition blank_label_frame : DataFrame :=
  {| tasks := ["Edema"; "Pneumonia"]%string;
     sentences :=
       [{| Reports := "mild pulmonary edema"%string;
           labels := [Some 1%Z; None] |}] |}.

Definition frame : DataFrame :=
  {| tasks := ["Edema"; "Pneumonia"]%string;
     sentences :=
       [{| Reports := "mild pulmonary edema"%string;
           labels := [Some 1%Z; Some 0%Z] |};
        {| Reports := "edema"%string;
           labels := [Some 1%Z; None] |};
        {| Reports := "no"%string;
           labels := [Some 1%Z; Some 0%Z] |};
        {| Reports := "right lower lobe pneumonia"%string;
           labels := [None; Some 1%Z] |};
        {| Reports := "edema and pneumonia"%string;
           labels := [Some 1%Z; Some 1%Z] |}] |}.

(** A tokenizer of single bytes: [CLS] bytes [SEP], cut to the maximum
    length when truncating, padded with 0 to the longest of the batch. *)
Definition encode_one (max_len : nat) (truncation : bool) (s : string)
  : list nat :=
  let toks := map nat_of_ascii (list_ascii_of_string s) in
  let toks := if truncation then firstn (max_len - 2) toks else toks in
  101 :: toks ++ [102].

Definition pad_to (n : nat) (l : list nat) : list nat :=
  l ++ repeat 0 (n - length l).

Definition byte_encode (max_len : nat) (truncation padding : bool)
           (texts : list string) : BatchEncoding :=
  let seqs := map (encode_one max_len truncation) texts in
  let longest := fold_right Nat.max 0 (map (@length nat) seqs) in
  {| input_ids := if padding then map (pad_to longest) seqs else seqs;
     attention_mask :=
       map (fun l => if padding
                     then pad_to longest (repeat 1 (length l))
                     else repeat 1 (length l)) seqs |}.

Definition tokenizer : prompts.Tokenizer :=
  {| prompts.model_max_length := 512; prompts.encode := byte_encode |}.

Definition prompt_set : Dict.t (list string) :=
  [("Edema"%string, ["mild edema"; "edema at the bases"]%string);
   ("Pneumonia"%string, ["pneumonia"]%string)].

(** The toy encoders again, over float32 tensors: an image is one
    float, put in coordinate 0 of the embedding; every prompt is pooled to
    the first basis vector. *)
Definition float_image_model (pv : list spec_float)
  : Float.tensor2 spec_float :=
  Float.Tensor2 (length pv) ConVIRT.embed_dim
    (fun i k => if k =? 0 then nth i pv (S754_zero false)
                else S754_zero false).

Definition float_text_model (ids mask : list (list nat))
  : Float.tensor2 spec_float :=
  Float.Tensor2 (length ids) 768
    (fun i k => if k =? 0 then Float.one else S754_zero false).

Definition float_projection_head (t : Float.tensor2 spec_float)
  : Float.tensor2 spec_float :=
  Float.Tensor2 (Float.rows t) ConVIRT.embed_dim (Float.at2 t).

(** The examples run inference only ([return_loss] false), where no cross
    entropy is computed: the toy loss module refuses every call. *)
Definition no_loss (_ : Float.tensor2 spec_float) (_ : list nat)
  : result spec_float :=
  Raise ValueError.

Definition float_forward
  : BatchEncoding -> list spec_float -> bool
    -> result (Float.Outputs spec_float) :=
  FloatConVIRT.forward Float.binary32 no_loss
    float_image_model float_text_model float_projection_head.

(** The floats 2, 2^100 and 2^-100. *)
Definition two : spec_float := S754_finite false 8388608 (-22).
Definition huge : spec_float := S754_finite false 8388608 77.
Definition tiny : spec_float := S754_finite false 8388608 (-123).

End Toy.

(* ------------------------------------------------------------------ *)
(** * Statements that are examined as they stand *)


(** A class without prompts makes the classifier head raise, whatever the
    reduction. *)
Definition empty_class_always_raises {Image : Type}
           (model : BatchEncoding -> list Image -> bool -> result Outputs)
           (pv : list Image) (prompt_inputs : list (string * BatchEncoding))
  : Prop :=
  (exists name text, In (name, text) prompt_inputs /\ num_prompts text = 0) ->
  forall ensemble,
    raises (ConVIRTClassifier.forward model ensemble pv prompt_inputs).

(** A sample of [n] prompts is made of [n] pairwise different strings. *)
Definition samples_are_distinct
           (template : Dict.t (Dict.t (list string))) (n : nat) (g : rng)
  : Prop :=
  forall ps g' k v cands sampled,
    prompts.generate_chexpert_class_prompts template (Some n) g
      = Ok (ps, g') ->
    In (k, v) template ->
    prompts.chexpert_cls_prompts v = Ok cands ->
    n < length cands ->
    Dict.get ps k = Some sampled ->
    length sampled = n /\ NoDup sampled /\ incl sampled cands.


(** A task that is not a label column makes the generator raise. *)
Definition non_label_task_raises (df : DataFrame) (name : string)
           (n : option nat) (g : rng) : Prop :=
  ~ In name (tasks df) ->
  raises (prompts.generate_class_prompts df (TaskName name) n g).

(* ------------------------------------------------------------------ *)
(** * Further vocabulary *)

(** The three (four) nested loops over the results of the three (four)
    lookups [v[keys[i]]], each looked up where the source evaluates it. *)
Definition nest3 (c0 c1 c2 : result (list string)) : result (list string) :=
  l0 <- c0 ;;
  for_each l0 (fun k0 acc =>
    l1 <- c1 ;;
    for_each l1 (fun k1 acc =>
      l2 <- c2 ;;
      for_each l2 (fun k2 acc =>
        Ok (acc ++ [prompts.space_join [k0; k1; k2]])) acc) acc) [].

Definition nest4 (c0 c1 c2 c3 : result (list string))
  : result (list string) :=
  l0 <- c0 ;;
  for_each l0 (fun k0 acc =>
    l1 <- c1 ;;
    for_each l1 (fun k1 acc =>
      l2 <- c2 ;;
      for_each l2 (fun k2 acc =>
        l3 <- c3 ;;
        for_each l3 (fun k3 acc =>
          Ok (acc ++ [prompts.space_join [k0; k1; k2; k3]])) acc) acc) acc) [].

(** Phrase list number [i] of a class, empty when there is none. *)
Definition phrases (v : Dict.t (list string)) (i : nat) : list string :=
  nth i (components v) [].

(** The candidates built from the first three (four) phrase lists. *)
Definition candidates3 (v : Dict.t (list string)) : list string :=
  cross3 (phrases v 0) (phrases v 1) (phrases v 2).

Definition candidates4 (v : Dict.t (list string)) : list string :=
  cross4 (phrases v 0) (phrases v 1) (phrases v 2) (phrases v 3).

(** A template table in which every class lists at least [k] phrase
    lists. *)
Definition template_at_least (k : nat)
           (template : Dict.t (Dict.t (list string))) : Prop :=
  Dict.wf template
  /\ forall c v, In (c, v) template -> Dict.wf v /\ k <= length v.

(** No class has more candidates than the requested sample size. *)
Definition no_sampling_needed (n : option nat) (sizes : list nat) : Prop :=
  match n with
  | None => True
  | Some m => Forall (fun s => s <= m) sizes
  end.

(** The number of prompts kept from [count] candidates. *)
Definition kept (n : option nat) (count : nat) : nat :=
  match n with
  | None => count
  | Some m => Nat.min m count
  end.

(** Every phrase list among the first [k] of a class is non-empty. *)
Definition leading_nonempty (k : nat) (v : Dict.t (list string)) : Prop :=
  forall i, i < k -> phrases v i <> [].

(** The table every entry of which is the full candidate list. *)
Definition all_candidates (cand : Dict.t (list string) -> list string)
           (template : Dict.t (Dict.t (list string)))
  : Dict.t (list string) :=
  map (fun kv => (fst kv, cand (snd kv))) template.

(** A class with two phrase lists only, and the one-class table holding
    it. *)
Definition two_lists_class : Dict.t (list string) :=
  [("severity"%string, ["mild"%string]);
   ("subtype"%string, ["edema"%string])].

Definition two_lists_template : Dict.t (Dict.t (list string)) :=
  [("Edema"%string, two_lists_class)].

(** The table of all qualifying texts, task by task. *)
Definition all_qualifying (df : DataFrame) (targets : list string)
  : Dict.t (list string) :=
  map (fun t => (t, map Reports
                        (filter (qualifiesb df t) (sentences df))))
      targets.

(** Every entry of a tensor is a number. *)
Definition all_finite (t : tensor2) : Prop :=
  forall i j, i < rows t -> j < cols t -> is_fin (at2 t i j).

(** A tokenizer that returns one row of token ids per text. *)
Definition tokenizer_keeps_batch (tok : prompts.Tokenizer) : Prop :=
  forall max_len truncation padding texts,
    num_prompts (prompts.encode tok max_len truncation padding texts)
    = length texts.

(** Evaluate nested [Rmax] over numerals, innermost first. *)
Ltac Rmax_eval :=
  repeat match goal with
         | |- context [Rmax ?a ?b] =>
             lazymatch a with
             | context [Rmax _ _] => fail
             | _ =>
                 lazymatch b with
                 | context [Rmax _ _] => fail
                 | _ => first [ rewrite (Rmax_right a b) by lra
                              | rewrite (Rmax_left a b) by lra ]
                 end
             end
         end.

(* ================================================================== *)
(** * Properties *)

(** ** The error monad *)

Lemma bind_Ok_inv {A B : Type} (m : result A) (k : A -> result B) (b : B) :
  bind m k = Ok b -> exists a, m = Ok a /\ k a = Ok b.
Proof.
  destruct m as [a|e]; simpl; intros H.
  - exists a. split; [reflexivity | exact H].
  - discriminate H.
Qed.

Lemma raises_bind_l {A B : Type} (m : result A) (k : A -> result B) :
  raises m -> raises (bind m k).
Proof. intros [e ->]. exists e. reflexivity. Qed.

Lemma raises_not_returns {A : Type} (m : result A) :
  raises m -> ~ returns m.
Proof. intros [e ->] [a H]. discriminate H. Qed.

(** ** Sums of scalars *)

Lemma ssum_Fin (g : nat -> R) (l : list nat) :
  ssum (map (fun k => Fin (g k)) l) = Fin (Rsum (map g l)).
Proof.
  unfold ssum. induction l as [|k l IH]; cbn [map fold_right].
  - reflexivity.
  - rewrite IH. reflexivity.
Qed.

(** ** The dual encoder *)

Section ConVIRT_properties.

Variable Image : Type.
Variable image_model : list Image -> tensor2.
Variable text_model : list (list nat) -> list (list nat) -> tensor2.
Variable text_projection_head : tensor2 -> tensor2.

Let forward := ConVIRT.forward image_model text_model text_projection_head.
Let raw_text (enc : BatchEncoding) : tensor2 :=
  text_projection_head (text_model (input_ids enc) (attention_mask enc)).

Lemma forward_inv enc pv rl out :
  forward enc pv rl = Ok out ->
  img_embeds out
    = tdiv (image_model pv) (norm_keepdim (image_model pv))
  /\ text_embeds out = tdiv (raw_text enc) (norm_keepdim (raw_text enc))
  /\ (exists prod,
        matmul (img_embeds out) (transpose (text_embeds out)) = Ok prod
        /\ logits out = tdiv_scalar prod ConVIRT.temperature)
  /\ logits_per_text out = transpose (logits out)
  /\ (if rl
      then exists l, ConVIRT.compute_loss (logits out) = Ok l
                     /\ loss_value out = Some l
      else loss_value out = None).
Proof.
  unfold forward, ConVIRT.forward. fold (raw_text enc). intros H.
  apply bind_Ok_inv in H. destruct H as [prod [Hprod H]].
  destruct rl.
  - apply bind_Ok_inv in H. destruct H as [l [Hl H]].
    injection H as <-. cbn [set_loss_value img_embeds text_embeds logits
                              logits_per_text loss_value].
    repeat split; try reflexivity.
    + exists prod. split; [exact Hprod | reflexivity].
    + exists l. split; [exact Hl | reflexivity].
  - injection H as <-. cbn [img_embeds text_embeds logits
                              logits_per_text loss_value].
    repeat split; try reflexivity.
    exists prod. split; [exact Hprod | reflexivity].
Qed.

Hypothesis shaped :
  ConVIRT.encoders_shaped image_model text_model text_projection_head.

Lemma embeddings_multiply enc pv :
  exists prod,
    matmul (tdiv (image_model pv) (norm_keepdim (image_model pv)))
           (transpose
              (tdiv (raw_text enc) (norm_keepdim (raw_text enc))))
    = Ok prod
    /\ rows prod = length pv /\ cols prod = num_prompts enc.
Proof.
  destruct shaped as [Himg [Htxt Hproj]].
  destruct (Himg pv) as [Hr Hc].
  destruct (Hproj (text_model (input_ids enc) (attention_mask enc)))
    as [Hpr Hpc].
  unfold matmul. cbn [cols rows tdiv transpose]. fold (raw_text enc) in *.
  rewrite Hc, Hpc, Nat.eqb_refl. eexists. split; [reflexivity|].
  cbn [rows cols]. split; [exact Hr|].
  rewrite Hpr. apply Htxt.
Qed.

Lemma forward_false_returns enc pv :
  exists out,
    forward enc pv false = Ok out
    /\ loss_value out = None
    /\ rows (logits out) = length pv
    /\ cols (logits out) = num_prompts enc.
Proof.
  destruct (embeddings_multiply enc pv) as [prod [Hprod [Hr Hc]]].
  unfold forward, ConVIRT.forward. fold (raw_text enc).
  rewrite Hprod. cbn [bind]. eexists. split; [reflexivity|].
  cbn [loss_value logits tdiv_scalar rows cols]. auto.
Qed.

Lemma forward_true_unfold enc pv :
  exists lg,
    rows lg = length pv /\ cols lg = num_prompts enc
    /\ forward enc pv true
       = bind (ConVIRT.compute_loss lg)
           (fun loss =>
              Ok (set_loss_value
                    {| img_embeds :=
                         tdiv (image_model pv)
                              (norm_keepdim (image_model pv));
                       text_embeds :=
                         tdiv (raw_text enc) (norm_keepdim (raw_text enc));
                       logits := lg;
                       logits_per_text := transpose lg;
                       loss_value := None |} loss)).
Proof.
  destruct (embeddings_multiply enc pv) as [prod [Hprod [Hr Hc]]].
  exists (tdiv_scalar prod ConVIRT.temperature).
  cbn [tdiv_scalar rows cols]. repeat split; try assumption.
  unfold forward, ConVIRT.forward. fold (raw_text enc).
  rewrite Hprod. reflexivity.
Qed.

End ConVIRT_properties.

(** ** Cross entropy against the identity assignment *)

Lemma existsb_arange (c n : nat) :
  existsb (fun t => c <=? t) (arange n) = (c <? n).
Proof.
  unfold arange. destruct (c <? n) eqn:Hlt.
  - apply Nat.ltb_lt in Hlt. apply existsb_exists. exists c. split.
    + apply in_seq. lia.
    + apply Nat.leb_refl.
  - apply Nat.ltb_ge in Hlt.
    destruct (existsb (fun t => c <=? t) (seq 0 n)) eqn:He; [|reflexivity].
    apply existsb_exists in He. destruct He as [t [Hin Hle]].
    apply in_seq in Hin. apply Nat.leb_le in Hle. lia.
Qed.

Lemma CrossEntropyLoss_arange (t : tensor2) :
  CrossEntropyLoss t (arange (rows t))
  = if cols t <? rows t then Raise IndexError
    else Ok (sdiv
               (ssum (map (fun ic =>
                             sneg (log_softmax t (fst ic) (snd ic)))
                          (combine (seq 0 (rows t)) (arange (rows t)))))
               (Fin (INR (rows t)))).
Proof.
  unfold CrossEntropyLoss. rewrite existsb_arange.
  unfold arange at 1. rewrite length_seq, Nat.eqb_refl. reflexivity.
Qed.

Lemma compute_loss_square (lg : tensor2) :
  rows lg = cols lg -> returns (ConVIRT.compute_loss lg).
Proof.
  intros Heq. unfold ConVIRT.compute_loss.
  rewrite !CrossEntropyLoss_arange. cbn [rows cols transpose].
  rewrite Heq, Nat.ltb_irrefl. cbn [bind]. eexists. reflexivity.
Qed.

Lemma compute_loss_mismatch (lg : tensor2) :
  rows lg <> cols lg -> raises (ConVIRT.compute_loss lg).
Proof.
  intros Hne. unfold ConVIRT.compute_loss.
  rewrite !CrossEntropyLoss_arange. cbn [rows cols transpose].
  destruct (cols lg <? rows lg) eqn:H1.
  - exists IndexError. reflexivity.
  - cbn [bind]. apply Nat.ltb_ge in H1.
    assert (H2 : (rows lg <? cols lg) = true) by (apply Nat.ltb_lt; lia).
    rewrite H2. exists IndexError. reflexivity.
Qed.

Lemma compute_loss_value (lg : tensor2) (l : scalar) :
  ConVIRT.compute_loss lg = Ok l ->
  exists image_loss caption_loss,
    CrossEntropyLoss lg (arange (rows lg)) = Ok image_loss
    /\ CrossEntropyLoss (transpose lg) (arange (cols lg)) = Ok caption_loss
    /\ l = sadd (smul (Fin (75 / 100)) image_loss)
                (smul (Fin (25 / 100)) caption_loss).
Proof.
  unfold ConVIRT.compute_loss. intros H.
  apply bind_Ok_inv in H. destruct H as [il [Hil H]].
  apply bind_Ok_inv in H. destruct H as [cl [Hcl H]].
  exists il, cl. cbn [rows transpose] in Hcl.
  repeat split; try assumption.
  injection H as <-. unfold ConVIRT.lamb. cbn [ssub lift2].
  replace (1 - 75 / 100)%R with (25 / 100)%R by lra. reflexivity.
Qed.

(** ** The toy encoders have the shapes of the architecture *)

Lemma toy_encoders_shaped :
  ConVIRT.encoders_shaped Toy.image_model Toy.text_model
                          Toy.text_projection_head.
Proof.
  unfold ConVIRT.encoders_shaped. repeat split.
Qed.

(** ** The dual encoder over float32 tensors *)

Section Float_forward.

Variable F : Type.
Variable A : Float.arith F.
Variable CrossEntropyLoss : Float.tensor2 F -> list nat -> result F.
Variable Image : Type.
Variable image_model : list Image -> Float.tensor2 F.
Variable text_model : list (list nat) -> list (list nat) -> Float.tensor2 F.
Variable text_projection_head : Float.tensor2 F -> Float.tensor2 F.

Let forward :=
  FloatConVIRT.forward A CrossEntropyLoss image_model text_model
                       text_projection_head.
Let raw_text (enc : BatchEncoding) : Float.tensor2 F :=
  text_projection_head (text_model (input_ids enc) (attention_mask enc)).

Lemma float_forward_inv enc pv rl out :
  forward enc pv rl = Ok out ->
  Float.img_embeds out
    = Float.tdiv A (image_model pv) (Float.norm_keepdim A (image_model pv))
  /\ Float.text_embeds out
     = Float.tdiv A (raw_text enc) (Float.norm_keepdim A (raw_text enc))
  /\ (exists prod,
        Float.matmul A (Float.img_embeds out)
                     (Float.transpose (Float.text_embeds out)) = Ok prod
        /\ Float.logits out
           = Float.tdiv_scalar A prod FloatConVIRT.temperature)
  /\ Float.logits_per_text out = Float.transpose (Float.logits out).
Proof.
  unfold forward, FloatConVIRT.forward. fold (raw_text enc). intros H.
  apply bind_Ok_inv in H. destruct H as [prod [Hprod H]].
  destruct rl.
  - apply bind_Ok_inv in H. destruct H as [l [_ H]].
    injection H as <-.
    cbn [Float.set_loss_value Float.img_embeds Float.text_embeds
         Float.logits Float.logits_per_text].
    repeat split; try reflexivity.
    exists prod. split; [exact Hprod | reflexivity].
  - injection H as <-.
    cbn [Float.img_embeds Float.text_embeds Float.logits
         Float.logits_per_text].
    repeat split; try reflexivity.
    exists prod. split; [exact Hprod | reflexivity].
Qed.

(** The entries of a product: inner products of a row of the left
    factor with a row of the transposed right factor. *)
Lemma float_matmul_transpose (a b prod : Float.tensor2 F) :
  Float.matmul A a (Float.transpose b) = Ok prod ->
  Float.cols a = Float.cols b
  /\ Float.rows prod = Float.rows a
  /\ Float.cols prod = Float.rows b
  /\ forall i j,
       Float.at2 prod i j = Float.dot A (Float.row a i) (Float.row b j).
Proof.
  unfold Float.matmul. cbn [Float.rows Float.cols Float.transpose].
  destruct (Float.cols a =? Float.cols b) eqn:E; [|discriminate].
  intros H. injection H as <-. apply Nat.eqb_eq in E.
  cbn [Float.rows Float.cols Float.at2]. repeat split. exact E.
Qed.

(** A row of zeros is divided by a zero norm. *)
Lemma zero_row_is_not_normalised (t : Float.tensor2 F) (i : nat) :
  ieee_zero_laws A -> zero_row A t i ->
  nan_row A (Float.tdiv A t (Float.norm_keepdim A t)) i.
Proof.
  intros [Hnorm Hdiv] Hz k Hk.
  cbn [Float.tdiv Float.norm_keepdim Float.at2 Float.cols] in *.
  apply Hdiv; [apply Hz, Hk|]. apply Hnorm.
  apply forallb_forall. intros x Hx. unfold Float.row in Hx.
  apply in_map_iff in Hx. destruct Hx as [k' [<- Hk']].
  apply in_seq in Hk'. apply Hz. lia.
Qed.

End Float_forward.

(** ** Binary32 *)

Lemma binary32_sum_of_zero_squares (l : list spec_float) :
  forallb (Float.is_zero Float.binary32) l = true ->
  Float.sum (map (fun x => SFmul Float.prec Float.emax x x) l)
  = S754_zero false.
Proof.
  unfold Float.sum. induction l as [|x l IH]; cbn [forallb map fold_left].
  - reflexivity.
  - intros H. apply andb_prop in H. destruct H as [Hx Hl].
    destruct x as [s| | |]; try discriminate Hx.
    destruct s; cbn; apply IH, Hl.
Qed.

Lemma binary32_zero_laws : ieee_zero_laws Float.binary32.
Proof.
  split.
  - intros l Hl. cbn [Float.norm Float.binary32].
    rewrite (binary32_sum_of_zero_squares l Hl). reflexivity.
  - intros x d Hx Hd.
    destruct x as [sx| | |]; try discriminate Hx.
    destruct d as [sd| | |]; try discriminate Hd.
    reflexivity.
Qed.

(** The float32 operand that the library makes of the temperature 0.1 is
    13421773 * 2^-27, and of the weight 0.75 and of 1 - 0.75 the exact
    0.75 and 0.25. *)
Lemma binary32_constants :
  Float.of_float Float.binary32 FloatConVIRT.temperature
  = S754_finite false 13421773 (-27)
  /\ Float.of_float Float.binary32 FloatConVIRT.lamb
     = S754_finite false 12582912 (-24)
  /\ Float.of_float Float.binary32
       (Float.py_sub (Float.decimal 1 1) FloatConVIRT.lamb)
     = S754_finite false 8388608 (-25).
Proof. repeat split; vm_compute; reflexivity. Qed.

(** ** Claims about the dual encoder *)




(** Nor is every row of a finite projection that is not zero normalised:
    the norm of (2^100, 0, ..., 0) overflows to infinity and the row
    becomes a row of zeros; the norm of (2^-100, 0, ..., 0) underflows to
    zero and the row becomes infinity followed by non-numbers. *)
Lemma overflowing_projection_gives_zero_row :
  exists out,
    Toy.float_forward Toy.one_prompt [Toy.huge] false = Ok out
    /\ forall k, k < Float.cols (Float.img_embeds out) ->
                 Float.at2 (Float.img_embeds out) 0 k = S754_zero false.
Proof.
  eexists. split; [reflexivity|]. intros k _.
  cbn [Float.img_embeds Float.tdiv Float.norm_keepdim Float.at2].
  assert (Hn : Float.norm Float.binary32
                 (Float.row (Toy.float_image_model [Toy.huge]) 0)
               = S754_infinity false) by (vm_compute; reflexivity).
  rewrite Hn. cbn [Toy.float_image_model Float.at2 nth].
  destruct (k =? 0); reflexivity.
Qed.

Lemma underflowing_projection_gives_infinity :
  exists out,
    Toy.float_forward Toy.one_prompt [Toy.tiny] false = Ok out
    /\ Float.at2 (Float.img_embeds out) 0 0 = S754_infinity false
    /\ forall k, 0 < k ->
                 Float.at2 (Float.img_embeds out) 0 k = S754_nan.
Proof.
  eexists. split; [reflexivity|].
  assert (Hn : Float.norm Float.binary32
                 (Float.row (Toy.float_image_model [Toy.tiny]) 0)
               = S754_zero false) by (vm_compute; reflexivity).
  split.
  - cbn [Float.img_embeds Float.tdiv Float.norm_keepdim Float.at2].
    rewrite Hn. reflexivity.
  - intros k Hk.
    cbn [Float.img_embeds Float.tdiv Float.norm_keepdim Float.at2].
    rewrite Hn. cbn [Toy.float_image_model Float.at2 nth].
    destruct k; [lia | reflexivity].
Qed.

(** C8.  With loss computation enabled, the loss of a returned forward pass
    is 0.75 times the cross entropy of [logits] against the identity
    assignment plus 0.25 times the cross entropy of the transposed logits
    against the identity assignment; and the pass does return a loss when
    the two batch sizes agree. *)
Theorem loss_is_weighted_cross_entropy
        (Image : Type) (image_model : list Image -> tensor2)
        (text_model : list (list nat) -> list (list nat) -> tensor2)
        (text_projection_head : tensor2 -> tensor2)
        (enc : BatchEncoding) (pv : list Image) :
  let forward :=
    ConVIRT.forward image_model text_model text_projection_head in
  (forall out,
     forward enc pv true = Ok out ->
     exists image_loss caption_loss,
       CrossEntropyLoss (logits out) (arange (rows (logits out)))
         = Ok image_loss
       /\ CrossEntropyLoss (transpose (logits out))
                           (arange (cols (logits out)))
          = Ok caption_loss
       /\ loss_value out
          = Some (sadd (smul (Fin (75 / 100)) image_loss)
                       (smul (Fin (25 / 100)) caption_loss)))
  /\ (ConVIRT.encoders_shaped image_model text_model text_projection_head ->
      length pv = num_prompts enc ->
      exists out l, forward enc pv true = Ok out /\ loss_value out = Some l).
Proof.
  intros forward. split.
  - intros out H. apply forward_inv in H.
    destruct H as [_ [_ [_ [_ [l [Hl Hv]]]]]].
    destruct (compute_loss_value _ Hl) as [il [cl [Hil [Hcl ->]]]].
    exists il, cl. auto.
  - intros Hshaped Hlen.
    destruct (forward_true_unfold Hshaped enc pv) as [lg [Hr [Hc Hf]]].
    destruct (@compute_loss_square lg) as [l Hl]; [congruence|].
    unfold forward. rewrite Hf, Hl. cbn [bind].
    eexists. exists l. split; reflexivity.
Qed.

Lemma loss_is_weighted_cross_entropy_witness :
  exists out image_loss caption_loss,
    Toy.forward Toy.two_prompts [2%R; 3%R] true = Ok out
    /\ CrossEntropyLoss (logits out) (arange (rows (logits out)))
       = Ok image_loss
    /\ CrossEntropyLoss (transpose (logits out))
                        (arange (cols (logits out)))
       = Ok caption_loss
    /\ loss_value out
       = Some (sadd (smul (Fin (75 / 100)) image_loss)
                    (smul (Fin (25 / 100)) caption_loss)).
Proof.
  destruct (loss_is_weighted_cross_entropy Toy.image_model Toy.text_model
              Toy.text_projection_head Toy.two_prompts [2%R; 3%R])
    as [Hval Hret].
  destruct (Hret toy_encoders_shaped eq_refl) as [out [l [Hout _]]].
  destruct (Hval out Hout) as [il [cl H]].
  exists out, il, cl. split; [exact Hout | exact H].
Defined.

(** C9.  With loss computation enabled, an image batch and a text batch of
    different sizes make the forward pass raise, whichever is larger. *)
Theorem loss_raises_on_batch_mismatch
        (Image : Type) (image_model : list Image -> tensor2)
        (text_model : list (list nat) -> list (list nat) -> tensor2)
        (text_projection_head : tensor2 -> tensor2)
        (enc : BatchEncoding) (pv : list Image) :
  ConVIRT.encoders_shaped image_model text_model text_projection_head ->
  length pv <> num_prompts enc ->
  raises (ConVIRT.forward image_model text_model text_projection_head
                          enc pv true).
Proof.
  intros Hshaped Hne.
  destruct (forward_true_unfold Hshaped enc pv) as [lg [Hr [Hc Hf]]].
  rewrite Hf. apply raises_bind_l, compute_loss_mismatch. congruence.
Qed.

Lemma loss_raises_on_batch_mismatch_witness :
  raises (Toy.forward Toy.one_prompt [2%R; 3%R] true)
  /\ raises (Toy.forward Toy.two_prompts [2%R] true).
Proof.
  split.
  - apply (@loss_raises_on_batch_mismatch _ _ _ _ Toy.one_prompt [2%R; 3%R]
             toy_encoders_shaped).
    cbn. lia.
  - apply (@loss_raises_on_batch_mismatch _ _ _ _ Toy.two_prompts [2%R]
             toy_encoders_shaped).
    cbn. lia.
Defined.

(** ** Reductions and stacking *)

Lemma row_length (t : tensor2) (i : nat) : length (row t i) = cols t.
Proof. unfold row. rewrite length_map, length_seq. reflexivity. Qed.

Lemma class_similarity_spec (ensemble : bool) (lg : tensor2) (c : tensor1) :
  ConVIRTClassifier.class_similarity ensemble lg = Ok c ->
  size1 c = rows lg
  /\ forall i, at1 c i = reduce_row ensemble (row lg i).
Proof.
  unfold ConVIRTClassifier.class_similarity, reduce_row.
  destruct ensemble.
  - intros H. injection H as <-. cbn [torch_mean size1 at1]. split.
    + reflexivity.
    + intros i. unfold arithmetic_mean. rewrite row_length. reflexivity.
  - unfold torch_max. destruct (cols lg =? 0); [discriminate|].
    intros H. injection H as <-. cbn [size1 at1]. split; reflexivity.
Qed.

Lemma class_similarity_returns (ensemble : bool) (lg : tensor2) :
  ensemble = true \/ 0 < cols lg ->
  returns (ConVIRTClassifier.class_similarity ensemble lg).
Proof.
  unfold ConVIRTClassifier.class_similarity, torch_max.
  intros [-> | Hpos].
  - eexists. reflexivity.
  - destruct ensemble; [eexists; reflexivity|].
    destruct (cols lg =? 0) eqn:E.
    + apply Nat.eqb_eq in E. lia.
    + eexists. reflexivity.
Qed.

Lemma torch_stack_spec (ts : list tensor1) (m : tensor2) :
  torch_stack ts = Ok m ->
  cols m = length ts
  /\ forall j c, nth_error ts j = Some c ->
       size1 c = rows m /\ forall i, at2 m i j = at1 c i.
Proof.
  unfold torch_stack. destruct ts as [|t0 ts']; [discriminate|].
  destruct (forallb _ _) eqn:Hall; [|discriminate].
  intros H. injection H as <-. cbn [rows cols at2]. split; [reflexivity|].
  intros j c Hj. split.
  - rewrite forallb_forall in Hall.
    apply Nat.eqb_eq, Hall. eapply nth_error_In, Hj.
  - intros i. destruct j as [|j']; cbn [nth_error] in Hj.
    + injection Hj as ->. reflexivity.
    + erewrite nth_error_nth by exact Hj. reflexivity.
Qed.

Lemma torch_stack_returns (ts : list tensor1) (n : nat) :
  ts <> [] -> Forall (fun c => size1 c = n) ts -> returns (torch_stack ts).
Proof.
  intros Hne Hall. unfold torch_stack.
  destruct ts as [|t0 ts']; [contradiction|].
  assert (Hb : forallb (fun t => size1 t =? size1 t0) (t0 :: ts') = true).
  { apply forallb_forall. intros c Hc. apply Nat.eqb_eq.
    rewrite Forall_forall in Hall.
    rewrite (Hall c Hc), (Hall t0 (or_introl eq_refl)). reflexivity. }
  rewrite Hb. eexists. reflexivity.
Qed.

Lemma Forall2_lookup {A B : Type} (P : A -> B -> Prop) (l : list A)
      (l' : list B) :
  Forall2 P l l' ->
  forall j a, nth_error l j = Some a ->
              exists b, nth_error l' j = Some b /\ P a b.
Proof.
  induction 1 as [|x y l l' Hxy _ IH]; intros j a Hj.
  - destruct j; discriminate Hj.
  - destruct j as [|j']; cbn [nth_error] in *.
    + injection Hj as <-. exists y. auto.
    + apply IH, Hj.
Qed.

(** ** The loop of the classifier head *)

Section Classifier_properties.

Variable Image : Type.
Variable model : BatchEncoding -> list Image -> bool -> result Outputs.
Variable ensemble : bool.
Variable pixel_values : list Image.

Let column_of := column_of model ensemble pixel_values.

Lemma forward_loop_sound items :
  forall sims names sims' names',
    ConVIRTClassifier.forward_loop model ensemble pixel_values
                                   items sims names
      = Ok (sims', names') ->
    names' = names ++ map fst items
    /\ exists cs, sims' = sims ++ cs /\ Forall2 column_of items cs.
Proof.
  induction items as [|[cls_name cls_text] rest IH];
    intros sims names sims' names' H; cbn [ConVIRTClassifier.forward_loop] in H.
  - injection H as <- <-. split; [now rewrite app_nil_r|].
    exists []. split; [now rewrite app_nil_r | constructor].
  - apply bind_Ok_inv in H. destruct H as [mo [Hmo H]].
    apply bind_Ok_inv in H. destruct H as [c [Hc H]].
    apply IH in H. destruct H as [-> [cs [-> Hcs]]]. split.
    + rewrite <- app_assoc. reflexivity.
    + exists (c :: cs). split; [rewrite <- app_assoc; reflexivity|].
      constructor; [|exact Hcs]. exists mo. auto.
Qed.

Lemma forward_loop_complete items cs :
  Forall2 column_of items cs ->
  forall sims names,
    ConVIRTClassifier.forward_loop model ensemble pixel_values
                                   items sims names
    = Ok (sims ++ cs, names ++ map fst items).
Proof.
  induction 1 as [|[cls_name cls_text] c rest cs' [mo [Hmo Hc]] _ IH];
    intros sims names; cbn [ConVIRTClassifier.forward_loop].
  - rewrite !app_nil_r. reflexivity.
  - cbn [snd] in Hmo. rewrite Hmo. cbn [bind]. rewrite Hc. cbn [bind].
    rewrite IH, <- !app_assoc. reflexivity.
Qed.

Lemma columns_exist items :
  (forall name text, In (name, text) items ->
     exists mo, model text pixel_values false = Ok mo
                /\ rows (logits mo) = length pixel_values
                /\ (ensemble = true \/ 0 < cols (logits mo))) ->
  exists cs, Forall2 column_of items cs
             /\ Forall (fun c => size1 c = length pixel_values) cs.
Proof.
  induction items as [|[name text] rest IH]; intros H.
  - exists []. split; constructor.
  - destruct (H name text (or_introl eq_refl)) as [mo [Hmo [Hr Hok]]].
    destruct (class_similarity_returns (logits mo) Hok) as [c Hc].
    destruct IH as [cs [Hcs Hsz]].
    { intros n t Hin. apply (H n t). now right. }
    exists (c :: cs). split.
    + constructor; [|exact Hcs]. exists mo. auto.
    + constructor; [|exact Hsz].
      destruct (class_similarity_spec _ _ Hc) as [-> _]. exact Hr.
Qed.

Lemma forward_returns prompt_inputs :
  prompt_inputs <> [] ->
  (forall name text, In (name, text) prompt_inputs ->
     exists mo, model text pixel_values false = Ok mo
                /\ rows (logits mo) = length pixel_values
                /\ (ensemble = true \/ 0 < cols (logits mo))) ->
  returns (ConVIRTClassifier.forward model ensemble pixel_values
                                     prompt_inputs).
Proof.
  intros Hne H. destruct (columns_exist _ H) as [cs [Hcs Hsz]].
  unfold ConVIRTClassifier.forward.
  rewrite (forward_loop_complete Hcs [] []). cbn [bind fst snd app].
  destruct (@torch_stack_returns cs (length pixel_values)) as [m Hm].
  - intros ->. inversion Hcs. subst. contradiction.
  - exact Hsz.
  - rewrite Hm. cbn [bind]. eexists. reflexivity.
Qed.

Lemma forward_sound prompt_inputs out :
  ConVIRTClassifier.forward model ensemble pixel_values prompt_inputs
    = Ok out ->
  class_names out = map fst prompt_inputs
  /\ cols (clf_logits out) = length prompt_inputs
  /\ forall j name text,
       nth_error prompt_inputs j = Some (name, text) ->
       exists mo,
         model text pixel_values false = Ok mo
         /\ rows (logits mo) = rows (clf_logits out)
         /\ forall i, at2 (clf_logits out) i j
                      = reduce_row ensemble (row (logits mo) i).
Proof.
  unfold ConVIRTClassifier.forward. intros H.
  apply bind_Ok_inv in H. destruct H as [[sims names] [Hloop H]].
  apply bind_Ok_inv in H. destruct H as [m [Hm H]].
  injection H as <-. cbn [class_names clf_logits fst snd] in *.
  apply forward_loop_sound in Hloop.
  destruct Hloop as [-> [cs [-> Hcs]]]. cbn [app] in *.
  destruct (torch_stack_spec _ Hm) as [Hcols Hcol].
  repeat split.
  - rewrite Hcols. symmetry. eapply Forall2_length, Hcs.
  - intros j name text Hj.
    destruct (Forall2_lookup Hcs _ Hj) as [c [Hc [mo [Hmo Hsim]]]].
    cbn [snd] in Hmo. exists mo. split; [exact Hmo|].
    destruct (Hcol j c Hc) as [Hsz Hat].
    destruct (class_similarity_spec _ _ Hsim) as [Hsize Hred].
    split; [congruence|].
    intros i. rewrite Hat. apply Hred.
Qed.

End Classifier_properties.

(** ** Mean and maximum of finite rows *)

Lemma arithmetic_mean_nil : arithmetic_mean [] = NaN.
Proof.
  unfold arithmetic_mean. cbn.
  destruct (Req_dec_T 0 0) as [_|H]; [reflexivity | contradiction].
Qed.

Lemma ssum_map_Fin (xs : list R) : ssum (map Fin xs) = Fin (Rsum xs).
Proof.
  unfold ssum. induction xs as [|x xs IH]; cbn [map fold_right].
  - reflexivity.
  - rewrite IH. reflexivity.
Qed.

Lemma arithmetic_mean_Fin (xs : list R) :
  xs <> [] ->
  arithmetic_mean (map Fin xs) = Fin (Rsum xs / INR (length xs)).
Proof.
  intros Hne. unfold arithmetic_mean.
  rewrite ssum_map_Fin, length_map. unfold sdiv.
  destruct (Req_dec_T (INR (length xs)) 0) as [H0|_]; [|reflexivity].
  change 0%R with (INR 0) in H0. apply INR_eq in H0.
  destruct xs; [contradiction | discriminate H0].
Qed.

Lemma fold_left_Rmax_greatest (l : list R) :
  forall a, is_greatest (a :: l) (fold_left Rmax l a).
Proof.
  induction l as [|x l IH]; intros a; cbn [fold_left].
  - split; [now left|]. intros y [<- | []]. lra.
  - destruct (IH (Rmax a x)) as [Hin Hle]. split.
    + destruct Hin as [Hm | Hin].
      * rewrite <- Hm. unfold Rmax. destruct (Rle_dec a x); cbn; auto.
      * right. now right.
    + intros y Hy.
      assert (Hax : (a <= Rmax a x /\ x <= Rmax a x)%R).
      { split; [apply Rmax_l | apply Rmax_r]. }
      pose proof (Hle (Rmax a x) (or_introl eq_refl)) as Hm.
      destruct Hy as [<- | [<- | Hy]].
      * lra.
      * lra.
      * apply Hle. now right.
Qed.

Lemma maximum_Fin (xs : list R) :
  xs <> [] ->
  exists m, maximum (map Fin xs) = Fin m /\ is_greatest xs m.
Proof.
  destruct xs as [|a l]; [contradiction|]. intros _.
  exists (fold_left Rmax l a). split; [|apply fold_left_Rmax_greatest].
  unfold maximum, smax_list. cbn [map]. clear.
  revert a. induction l as [|x l IH]; intros a; cbn [map fold_left].
  - reflexivity.
  - apply IH.
Qed.

(** ** Claims about the classifier head *)

(** C1.  Whatever the dual encoder, every output of the classifier head
    has one column per class of the tokenized prompt set, in its iteration
    order, and the class names in that same order; entry (i, j) is the
    reduction of row i of the logits of class j (images by prompts) along
    the prompts: their arithmetic mean when [ensemble] is true, their
    maximum when it is false.  An output is produced for every non-empty
    prompt set on whose classes the encoder returns one logit row per image
    and at least one prompt column.  On finite logits the mean is the sum
    divided by the count and the maximum is the greatest entry. *)
Theorem classifier_head_reduces_and_stacks
        (Image : Type)
        (model : BatchEncoding -> list Image -> bool -> result Outputs)
        (ensemble : bool) (pixel_values : list Image)
        (prompt_inputs : list (string * BatchEncoding)) :
  (forall out,
     ConVIRTClassifier.forward model ensemble pixel_values prompt_inputs
       = Ok out ->
     class_names out = map fst prompt_inputs
     /\ cols (clf_logits out) = length prompt_inputs
     /\ forall j name text,
          nth_error prompt_inputs j = Some (name, text) ->
          exists mo,
            model text pixel_values false = Ok mo
            /\ rows (logits mo) = rows (clf_logits out)
            /\ forall i,
                 at2 (clf_logits out) i j
                 = if ensemble then arithmetic_mean (row (logits mo) i)
                   else maximum (row (logits mo) i))
  /\ (prompt_inputs <> [] ->
      (forall name text, In (name, text) prompt_inputs ->
         exists mo, model text pixel_values false = Ok mo
                    /\ rows (logits mo) = length pixel_values
                    /\ 0 < cols (logits mo)) ->
      returns (ConVIRTClassifier.forward model ensemble pixel_values
                                         prompt_inputs))
  /\ (forall xs, xs <> [] ->
        arithmetic_mean (map Fin xs) = Fin (Rsum xs / INR (length xs)))
  /\ (forall xs, xs <> [] ->
        exists m, maximum (map Fin xs) = Fin m /\ is_greatest xs m).
Proof.
  split; [|split; [|split]];
    [| | exact arithmetic_mean_Fin | exact maximum_Fin].
  - intros out H. apply forward_sound in H.
    destruct H as [Hn [Hc Hcol]].
    split; [exact Hn|]. split; [exact Hc|].
    intros j name text Hj. destruct (Hcol j name text Hj) as [mo [H1 [H2 H3]]].
    exists mo. split; [exact H1|]. split; [exact H2|].
    intros i. rewrite H3. unfold reduce_row. reflexivity.
  - intros Hne H. apply forward_returns; [exact Hne|].
    intros name text Hin. destruct (H name text Hin) as [mo [H1 [H2 H3]]].
    exists mo. auto.
Qed.

Lemma classifier_head_reduces_and_stacks_witness :
  (exists out,
     ConVIRTClassifier.forward Toy.const_model true [2%R; 3%R] Toy.tokenized
       = Ok out
     /\ class_names out = ["Edema"; "Pneumonia"]%string
     /\ at2 (clf_logits out) 0 0 = Fin 3
     /\ at2 (clf_logits out) 1 1 = Fin 1)
  /\ (exists out,
        ConVIRTClassifier.forward Toy.const_model false [2%R; 3%R]
                                  Toy.tokenized
          = Ok out
        /\ class_names out = ["Edema"; "Pneumonia"]%string
        /\ at2 (clf_logits out) 0 0 = Fin 6
        /\ at2 (clf_logits out) 1 1 = Fin 4).
Proof.
  assert (Hmodel :
    forall name text, In (name, text) Toy.tokenized ->
      exists mo, Toy.const_model text [2%R; 3%R] false = Ok mo
                 /\ rows (logits mo) = length [2%R; 3%R]
                 /\ 0 < cols (logits mo)).
  { intros name text _. eexists. split; [reflexivity|]. cbn. lia. }
  assert (Hne : Toy.tokenized <> []) by discriminate.
  split.
  - destruct (classifier_head_reduces_and_stacks Toy.const_model true
                [2%R; 3%R] Toy.tokenized) as [Hsound [Hret _]].
    destruct (Hret Hne Hmodel) as [out Hout]. exists out.
    destruct (Hsound out Hout) as [Hn [_ Hcol]].
    split; [exact Hout|]. split; [exact Hn|].
    destruct (Hcol 0 _ _ eq_refl) as [mo0 [E0 [_ H0]]].
    destruct (Hcol 1 _ _ eq_refl) as [mo1 [E1 [_ H1]]].
    injection E0 as <-. injection E1 as <-.
    rewrite H0, H1. unfold arithmetic_mean, sdiv. cbn.
    destruct (Req_dec_T (1 + 1 + 1) 0) as [E|_]; [lra|].
    split; f_equal; lra.
  - destruct (classifier_head_reduces_and_stacks Toy.const_model false
                [2%R; 3%R] Toy.tokenized) as [Hsound [Hret _]].
    destruct (Hret Hne Hmodel) as [out Hout]. exists out.
    destruct (Hsound out Hout) as [Hn [_ Hcol]].
    split; [exact Hout|]. split; [exact Hn|].
    destruct (Hcol 0 _ _ eq_refl) as [mo0 [E0 [_ H0]]].
    destruct (Hcol 1 _ _ eq_refl) as [mo1 [E1 [_ H1]]].
    injection E0 as <-. injection E1 as <-.
    rewrite H0, H1. unfold maximum. cbn.
    Rmax_eval. split; reflexivity.
Defined.

Lemma forward_loop_raises_on_empty_class
      (Image : Type)
      (model : BatchEncoding -> list Image -> bool -> result Outputs)
      (pv : list Image) (items : list (string * BatchEncoding)) :
  (forall text, exists mo, model text pv false = Ok mo
                           /\ cols (logits mo) = num_prompts text) ->
  (exists name text, In (name, text) items /\ num_prompts text = 0) ->
  forall sims names,
    raises (ConVIRTClassifier.forward_loop model false pv items sims names).
Proof.
  intros Hmodel. induction items as [|[cls_name cls_text] rest IH];
    intros [name [text [Hin Hzero]]] sims names.
  - contradiction.
  - cbn [ConVIRTClassifier.forward_loop].
    destruct (Hmodel cls_text) as [mo [-> Hc]]. cbn [bind].
    unfold ConVIRTClassifier.class_similarity, torch_max.
    destruct (cols (logits mo) =? 0) eqn:E.
    + exists IndexError. reflexivity.
    + cbn [bind]. apply IH. exists name, text. split; [|exact Hzero].
      destruct Hin as [Heq | Hin]; [|exact Hin].
      injection Heq as -> ->. apply Nat.eqb_neq in E. congruence.
Qed.

Lemma forward_ext
      (Image : Type)
      (m1 m2 : BatchEncoding -> list Image -> bool -> result Outputs)
      (ensemble : bool) (pv : list Image)
      (prompt_inputs : list (string * BatchEncoding)) :
  (forall enc, m1 enc pv false = m2 enc pv false) ->
  ConVIRTClassifier.forward m1 ensemble pv prompt_inputs
  = ConVIRTClassifier.forward m2 ensemble pv prompt_inputs.
Proof.
  intros Hext. unfold ConVIRTClassifier.forward. f_equal.
  generalize (@nil tensor1) (@nil string).
  induction prompt_inputs as [|[cls_name cls_text] rest IH]; intros sims names;
    cbn [ConVIRTClassifier.forward_loop].
  - reflexivity.
  - rewrite Hext. destruct (m2 cls_text pv false) as [mo|e]; cbn [bind].
    + destruct (ConVIRTClassifier.class_similarity ensemble (logits mo));
        cbn [bind]; [apply IH | reflexivity].
    + reflexivity.
Qed.

Lemma mean_classification_returns
      (Image : Type) (image_model : list Image -> tensor2)
      (text_model : list (list nat) -> list (list nat) -> tensor2)
      (text_projection_head : tensor2 -> tensor2)
      (pixel_values : list Image)
      (prompt_inputs : list (string * BatchEncoding)) :
  ConVIRT.encoders_shaped image_model text_model text_projection_head ->
  prompt_inputs <> [] ->
  returns (ConVIRTClassifier.forward
             (ConVIRT.forward image_model text_model text_projection_head)
             true pixel_values prompt_inputs).
Proof.
  intros Hshaped Hne. apply forward_returns; [exact Hne|].
  intros n t _.
  destruct (forward_false_returns Hshaped t pixel_values)
    as [mo [Hmo [_ [Hr _]]]].
  exists mo. auto.
Qed.

(** C5.  What the code does on a tokenized prompt set with a class of
    zero prompts: under the maximum reduction ([ensemble] false) the
    classifier head raises, as the claim requires; under the mean
    reduction ([ensemble] true) it raises nothing and returns a matrix
    whose column for that class is NaN for every image, an unsignalled
    value. *)
Theorem empty_class_raises_under_max_only
        (Image : Type) (image_model : list Image -> tensor2)
        (text_model : list (list nat) -> list (list nat) -> tensor2)
        (text_projection_head : tensor2 -> tensor2)
        (pixel_values : list Image)
        (prompt_inputs : list (string * BatchEncoding))
        (j : nat) (name : string) (text : BatchEncoding) :
  ConVIRT.encoders_shaped image_model text_model text_projection_head ->
  nth_error prompt_inputs j = Some (name, text) ->
  num_prompts text = 0 ->
  let model := ConVIRT.forward image_model text_model text_projection_head in
  raises (ConVIRTClassifier.forward model false pixel_values prompt_inputs)
  /\ exists out,
       ConVIRTClassifier.forward model true pixel_values prompt_inputs
         = Ok out
       /\ forall i, at2 (clf_logits out) i j = NaN.
Proof.
  intros Hshaped Hj Hzero model. split.
  - unfold ConVIRTClassifier.forward. apply raises_bind_l.
    apply forward_loop_raises_on_empty_class.
    + intros enc.
      destruct (forward_false_returns Hshaped enc pixel_values)
        as [mo [Hmo [_ [_ Hc]]]].
      exists mo. auto.
    + exists name, text. split; [|exact Hzero].
      eapply nth_error_In, Hj.
  - destruct (@mean_classification_returns _ _ _ _ pixel_values prompt_inputs
                Hshaped) as [out Hout].
    + intros ->. destruct j; discriminate Hj.
    + exists out. split; [exact Hout|]. intros i.
      destruct (forward_sound _ _ _ _ Hout) as [_ [_ Hcol]].
      destruct (Hcol j name text Hj) as [mo [Hmo [_ Hat]]].
      destruct (forward_false_returns Hshaped text pixel_values)
        as [mo' [Hmo' [_ [_ Hc]]]].
      rewrite Hmo' in Hmo. injection Hmo as <-.
      rewrite Hat. unfold reduce_row, row. rewrite Hc, Hzero.
      apply arithmetic_mean_nil.
Qed.

Lemma empty_class_raises_under_max_only_witness :
  raises (ConVIRTClassifier.forward Toy.forward false [2%R; 3%R]
                                    Toy.with_empty_class)
  /\ exists out,
       ConVIRTClassifier.forward Toy.forward true [2%R; 3%R]
                                 Toy.with_empty_class
         = Ok out
       /\ forall i, at2 (clf_logits out) i 1 = NaN.
Proof.
  apply (@empty_class_raises_under_max_only _ _ _ _ [2%R; 3%R]
           Toy.with_empty_class 1 "Pneumonia"%string Toy.no_prompts
           toy_encoders_shaped).
  - reflexivity.
  - reflexivity.
Defined.

(** C5 fails on the code: with [ensemble] true the class without prompts
    does not make the classifier head raise. *)
Lemma empty_class_mean_does_not_raise :
  ~ empty_class_always_raises Toy.forward [2%R; 3%R] Toy.with_empty_class.
Proof.
  intros H.
  assert (Hempty : exists name text,
             In (name, text) Toy.with_empty_class /\ num_prompts text = 0).
  { exists "Pneumonia"%string, Toy.no_prompts. split; [|reflexivity].
    right. left. reflexivity. }
  specialize (H Hempty true).
  apply (raises_not_returns H).
  apply (@mean_classification_returns _ _ _ _ [2%R; 3%R]
           Toy.with_empty_class toy_encoders_shaped).
  discriminate.
Qed.

(** C10.  The classifier head only ever calls the dual encoder with loss
    computation disabled: the encoder then returns for every image batch
    and prompt batch, whatever their sizes, with [loss_value] None; the
    result of classification is the same for any encoder that agrees with
    it on such calls, so nothing of the loss branch is reached; and
    classification returns although image and prompt counts differ. *)
Theorem classification_never_computes_loss
        (Image : Type) (image_model : list Image -> tensor2)
        (text_model : list (list nat) -> list (list nat) -> tensor2)
        (text_projection_head : tensor2 -> tensor2) :
  ConVIRT.encoders_shaped image_model text_model text_projection_head ->
  let dual := ConVIRT.forward image_model text_model text_projection_head in
  (forall enc pv, exists out,
      dual enc pv false = Ok out /\ loss_value out = None)
  /\ (forall (other : BatchEncoding -> list Image -> bool -> result Outputs)
             ensemble pv prompt_inputs,
        (forall enc, other enc pv false = dual enc pv false) ->
        ConVIRTClassifier.forward other ensemble pv prompt_inputs
        = ConVIRTClassifier.forward dual ensemble pv prompt_inputs)
  /\ (forall ensemble pv prompt_inputs,
        prompt_inputs <> [] ->
        (forall name text, In (name, text) prompt_inputs ->
                           0 < num_prompts text) ->
        returns (ConVIRTClassifier.forward dual ensemble pv prompt_inputs)).
Proof.
  intros Hshaped dual. split; [|split].
  - intros enc pv.
    destruct (forward_false_returns Hshaped enc pv) as [out [Hout [Hl _]]].
    exists out. auto.
  - intros other ensemble pv prompt_inputs Hext. apply forward_ext, Hext.
  - intros ensemble pv prompt_inputs Hne Hpos. apply forward_returns.
    + exact Hne.
    + intros name text Hin.
      destruct (forward_false_returns Hshaped text pv)
        as [mo [Hmo [_ [Hr Hc]]]].
      exists mo. split; [exact Hmo|]. split; [exact Hr|].
      right. rewrite Hc. eapply Hpos, Hin.
Qed.

Lemma classification_never_computes_loss_witness :
  (exists out,
     Toy.forward Toy.one_prompt [2%R; 3%R] false = Ok out
     /\ loss_value out = None)
  /\ returns (ConVIRTClassifier.forward Toy.forward false [2%R; 3%R]
                                        Toy.tokenized).
Proof.
  destruct (classification_never_computes_loss toy_encoders_shaped)
    as [Hnone [_ Hret]].
  split; [apply Hnone|].
  apply Hret; [discriminate|].
  intros name text [H | [H | []]]; injection H as <- <-; cbn; lia.
Defined.

(** ** Sampling without replacement *)

Lemma randbelow_lt (n : nat) (g : rng) : 0 < n -> fst (randbelow n g) < n.
Proof.
  intros Hn. destruct g as [|x g']; cbn [randbelow fst].
  - exact Hn.
  - apply Nat.mod_upper_bound. lia.
Qed.

Lemma list_getitem_lt {A : Type} (l : list A) (i : nat) :
  i < length l -> exists x, list_getitem l i = Ok x /\ nth_error l i = Some x.
Proof.
  intros Hi. unfold list_getitem.
  destruct (nth_error l i) as [x|] eqn:E.
  - exists x. auto.
  - apply nth_error_None in E. lia.
Qed.

Lemma list_setitem_length {A : Type} (l : list A) (i : nat) (x : A) :
  length (list_setitem l i x) = length l.
Proof.
  revert i. induction l as [|a l IH]; intros [|i]; cbn; auto.
Qed.

Lemma list_setitem_same {A : Type} (l : list A) (i : nat) (x : A) :
  nth_error l i = Some x -> list_setitem l i x = l.
Proof.
  revert i. induction l as [|a l IH]; intros [|i] H; cbn in *;
    try discriminate.
  - injection H as ->. reflexivity.
  - rewrite (IH i H). reflexivity.
Qed.

Lemma firstn_list_setitem {A : Type} (l : list A) (i k : nat) (x : A) :
  i < k -> firstn k (list_setitem l i x) = list_setitem (firstn k l) i x.
Proof.
  revert i k. induction l as [|a l IH]; intros i k Hik.
  - destruct k; reflexivity.
  - destruct k as [|k]; [lia|]. destruct i as [|i]; cbn.
    + reflexivity.
    + rewrite IH by lia. reflexivity.
Qed.

Lemma firstn_snoc {A : Type} (l : list A) (k : nat) (y : A) :
  nth_error l k = Some y -> firstn (S k) l = firstn k l ++ [y].
Proof.
  revert k. induction l as [|a l IH]; intros [|k] H; cbn in *;
    try discriminate.
  - injection H as ->. reflexivity.
  - rewrite <- (IH k H). reflexivity.
Qed.

Lemma nth_error_firstn_lt {A : Type} (l : list A) (i k : nat) :
  i < k -> nth_error (firstn k l) i = nth_error l i.
Proof.
  revert i k. induction l as [|a l IH]; intros i k Hik.
  - destruct k; destruct i; reflexivity.
  - destruct k as [|k]; [lia|]. destruct i as [|i]; cbn.
    + reflexivity.
    + apply IH. lia.
Qed.

(** Overwriting position [i] trades the old element for the new one. *)
Lemma list_setitem_Permutation {A : Type} (l : list A) (i : nat) (x y : A) :
  nth_error l i = Some x ->
  Permutation (x :: list_setitem l i y) (y :: l).
Proof.
  revert i. induction l as [|a l IH]; intros [|i] H; cbn in *;
    try discriminate.
  - injection H as ->. apply perm_swap.
  - specialize (IH i H).
    apply perm_trans with (a :: x :: list_setitem l i y);
      [apply perm_swap|].
    apply perm_trans with (a :: y :: l); [|apply perm_swap].
    apply perm_skip, IH.
Qed.

(** One step of the pool: taking [pool[j]] and moving the last live element
    into its place leaves the other live elements. *)
Lemma pool_step_Permutation {A : Type} (pool : list A) (j m : nat) (x y : A) :
  j < S m ->
  nth_error pool j = Some x ->
  nth_error pool m = Some y ->
  Permutation (x :: firstn m (list_setitem pool j y)) (firstn (S m) pool).
Proof.
  intros Hj Hx Hy. rewrite (firstn_snoc _ _ Hy).
  destruct (Nat.eq_dec j m) as [-> | Hne].
  - rewrite Hx in Hy. injection Hy as ->.
    rewrite (list_setitem_same _ _ Hx). apply Permutation_cons_append.
  - rewrite firstn_list_setitem by lia.
    apply perm_trans with (y :: firstn m pool).
    + apply list_setitem_Permutation.
      rewrite nth_error_firstn_lt by lia. exact Hx.
    + apply Permutation_cons_append.
Qed.

Lemma sample_loop_spec {A : Type} (steps : nat) :
  forall (i n : nat) (pool : list A) (g : rng),
    length pool = n -> i + steps <= n ->
    exists res g',
      sample_loop steps i n pool g = Ok (res, g')
      /\ length res = steps
      /\ exists rest, Permutation (res ++ rest) (firstn (n - i) pool).
Proof.
  induction steps as [|steps IH]; intros i n pool g Hlen Hle.
  - exists [], g. cbn. split; [reflexivity|]. split; [reflexivity|].
    exists (firstn (n - i) pool). apply Permutation_refl.
  - cbn [sample_loop].
    pose proof (@randbelow_lt (n - i) g ltac:(lia)) as Hj.
    destruct (randbelow (n - i) g) as [j g1]. cbn [fst] in Hj.
    destruct (@list_getitem_lt A pool j ltac:(lia)) as [x [-> Hx]].
    destruct (@list_getitem_lt A pool (n - i - 1) ltac:(lia)) as [y [-> Hy]].
    cbn [bind].
    destruct (IH (S i) n (list_setitem pool j y) g1) as
      [res [g' [-> [Hres [rest Hperm]]]]].
    + rewrite list_setitem_length. exact Hlen.
    + lia.
    + cbn [bind fst snd]. exists (x :: res), g'.
      split; [reflexivity|]. split; [cbn; lia|].
      exists rest. cbn [app].
      replace (n - i) with (S (n - i - 1)) by lia.
      apply perm_trans with (x :: firstn (n - i - 1) (list_setitem pool j y)).
      * apply perm_skip. replace (n - i - 1) with (n - S i) by lia.
        exact Hperm.
      * apply pool_step_Permutation; [lia | exact Hx | exact Hy].
Qed.

Lemma random_sample_spec {A : Type} (population : list A) (k : nat) (g : rng) :
  k <= length population ->
  exists res g',
    random_sample population k g = Ok (res, g')
    /\ drawn_without_replacement population res k.
Proof.
  intros Hk. unfold random_sample.
  assert (E : (length population <? k) = false) by (apply Nat.ltb_ge; lia).
  rewrite E.
  destruct (@sample_loop_spec A k 0 (length population) population g
              eq_refl ltac:(lia)) as [res [g' [-> [Hlen [rest Hperm]]]]].
  exists res, g'. split; [reflexivity|]. split; [exact Hlen|].
  exists rest. rewrite Nat.sub_0_r, firstn_all in Hperm. exact Hperm.
Qed.

Lemma random_sample_too_many {A : Type} (population : list A) (k : nat)
      (g : rng) :
  length population < k -> random_sample population k g = Raise ValueError.
Proof.
  intros Hk. unfold random_sample.
  assert (E : (length population <? k) = true) by (apply Nat.ltb_lt; lia).
  rewrite E. reflexivity.
Qed.

Lemma drawn_incl {A : Type} (pop res : list A) (k : nat) :
  drawn_without_replacement pop res k -> incl res pop.
Proof.
  intros [_ [rest Hperm]] x Hx.
  eapply Permutation_in; [exact Hperm|]. apply in_or_app. now left.
Qed.

Lemma drawn_NoDup {A : Type} (pop res : list A) (k : nat) :
  drawn_without_replacement pop res k -> NoDup pop -> NoDup res.
Proof.
  intros [_ [rest Hperm]] Hnd.
  apply Permutation_sym in Hperm.
  apply (Permutation_NoDup Hperm) in Hnd.
  eapply NoDup_app_remove_r, Hnd.
Qed.

Lemma sample_if_smaller_spec {A : Type} (n : option nat) (xs : list A)
      (g : rng) :
  exists res g',
    sample_if_smaller n xs g = Ok (res, g') /\ sampled_from n xs res.
Proof.
  unfold sample_if_smaller, sampled_from. destruct n as [m|].
  - destruct (m <? length xs) eqn:E.
    + apply Nat.ltb_lt in E.
      destruct (@random_sample_spec A xs m g ltac:(lia))
        as [res [g' [Hs Hd]]].
      exists res, g'. split; [exact Hs|]. split; [exact Hd|]. split.
      * eapply drawn_incl, Hd.
      * eapply drawn_NoDup, Hd.
    + exists xs, g. auto.
  - exists xs, g. auto.
Qed.

Lemma sampled_from_incl {A : Type} (n : option nat) (xs res : list A) :
  sampled_from n xs res -> incl res xs.
Proof.
  unfold sampled_from. destruct n as [m|].
  - destruct (m <? length xs).
    + intros [_ [H _]]. exact H.
    + intros ->. apply incl_refl.
  - intros ->. apply incl_refl.
Qed.

(** ** Dictionaries *)

Lemma get_setitem_eq {V : Type} (d : Dict.t V) (k : string) (v : V) :
  Dict.get (Dict.setitem d k v) k = Some v.
Proof.
  induction d as [|[k' v'] d IH]; cbn.
  - rewrite String.eqb_refl. reflexivity.
  - destruct (String.eqb k' k) eqn:E; cbn; rewrite E; auto.
Qed.

Lemma get_setitem_neq {V : Type} (d : Dict.t V) (k k0 : string) (v : V) :
  k0 <> k -> Dict.get (Dict.setitem d k v) k0 = Dict.get d k0.
Proof.
  intros Hne. induction d as [|[k' v'] d IH]; cbn.
  - destruct (String.eqb k k0) eqn:E; [|reflexivity].
    apply String.eqb_eq in E. congruence.
  - destruct (String.eqb k' k) eqn:E; cbn.
    + apply String.eqb_eq in E. subst k'.
      destruct (String.eqb k k0) eqn:E0; [|reflexivity].
      apply String.eqb_eq in E0. congruence.
    + rewrite IH. reflexivity.
Qed.

Lemma setitem_new {V : Type} (d : Dict.t V) (k : string) (v : V) :
  ~ In k (Dict.keys d) -> Dict.setitem d k v = d ++ [(k, v)].
Proof.
  induction d as [|[k' v'] d IH]; cbn; intros Hin.
  - reflexivity.
  - destruct (String.eqb k' k) eqn:E.
    + apply String.eqb_eq in E. tauto.
    + rewrite IH by tauto. reflexivity.
Qed.

Lemma get_In {V : Type} (d : Dict.t V) (k : string) (v : V) :
  Dict.get d k = Some v -> In (k, v) d.
Proof.
  induction d as [|[k' v'] d IH]; cbn; [discriminate|].
  destruct (String.eqb k' k) eqn:E.
  - apply String.eqb_eq in E. intros H. injection H as ->. subst. now left.
  - intros H. right. apply IH, H.
Qed.

Lemma In_get {V : Type} (d : Dict.t V) (k : string) (v : V) :
  Dict.wf d -> In (k, v) d -> Dict.get d k = Some v.
Proof.
  unfold Dict.wf. induction d as [|[k' v'] d IH]; cbn; intros Hwf Hin.
  - contradiction.
  - inversion Hwf as [|? ? Hnotin Hwf']; subst.
    destruct Hin as [Heq | Hin].
    + injection Heq as -> ->. rewrite String.eqb_refl. reflexivity.
    + destruct (String.eqb k' k) eqn:E.
      * apply String.eqb_eq in E. subst k'. exfalso. apply Hnotin.
        apply in_map_iff. exists (k, v). auto.
      * apply IH; assumption.
Qed.

Lemma keys_get {V : Type} (d : Dict.t V) (k : string) :
  In k (Dict.keys d) -> exists v, Dict.get d k = Some v.
Proof.
  induction d as [|[k' v'] d IH]; cbn; intros Hin.
  - contradiction.
  - destruct (String.eqb k' k) eqn:E.
    + exists v'. reflexivity.
    + apply IH. destruct Hin as [-> | Hin]; [|exact Hin].
      rewrite String.eqb_refl in E. discriminate E.
Qed.

Lemma wf_In_unique {V : Type} (d : Dict.t V) (k : string) (v v' : V) :
  Dict.wf d -> In (k, v) d -> In (k, v') d -> v = v'.
Proof.
  intros Hwf H1 H2.
  apply (In_get _ _ Hwf) in H1. apply (In_get _ _ Hwf) in H2. congruence.
Qed.

(** ** Loops that fill a dictionary *)

Lemma for_each_ext {A S : Type} (l : list A) (f g : A -> S -> result S) :
  (forall x s, f x s = g x s) ->
  forall s, for_each l f s = for_each l g s.
Proof.
  intros Hext. induction l as [|x l IH]; intros s; cbn.
  - reflexivity.
  - rewrite Hext. destruct (g x s); cbn; auto.
Qed.

Lemma for_each_raises {A S : Type} (l : list A) (f : A -> S -> result S)
      (x : A) :
  In x l -> (forall s, raises (f x s)) -> forall s, raises (for_each l f s).
Proof.
  intros Hin Hx. induction l as [|y l IH]; intros s; cbn.
  - contradiction.
  - destruct (f y s) as [s'|e] eqn:E; cbn.
    + destruct Hin as [-> | Hin].
      * destruct (Hx s) as [e He]. congruence.
      * apply IH, Hin.
    + exists e. reflexivity.
Qed.

Section Dict_loops.

Variables A V : Type.
Variable key : A -> string.
Variable step : A -> rng -> result (V * rng).

Lemma dict_loop_get (items : list A) :
  forall d0 g0 d g k v,
    for_each items (dict_step key step) (d0, g0) = Ok (d, g) ->
    Dict.get d k = Some v ->
    Dict.get d0 k = Some v
    \/ exists a g1 g2, In a items /\ key a = k /\ step a g1 = Ok (v, g2).
Proof.
  induction items as [|a items IH]; intros d0 g0 d g k v H Hget;
    cbn [for_each] in H.
  - injection H as <- <-. now left.
  - apply bind_Ok_inv in H. destruct H as [[d1 g1] [Hstep H]].
    unfold dict_step in Hstep. cbn [fst snd] in Hstep.
    apply bind_Ok_inv in Hstep. destruct Hstep as [[v1 g1'] [Hs Hd]].
    injection Hd as <- <-. cbn [fst snd] in H.
    destruct (IH _ _ _ _ _ _ H Hget) as [Hold | [a' [ga [gb [Hin [Hk Hst]]]]]].
    + destruct (string_dec k (key a)) as [-> | Hne].
      * rewrite get_setitem_eq in Hold. injection Hold as ->.
        right. exists a, g0, g1'. split; [now left|]. auto.
      * rewrite get_setitem_neq in Hold by exact Hne. now left.
    + right. exists a', ga, gb. split; [now right|]. auto.
Qed.

Lemma dict_loop_keys (items : list A) :
  forall d0 g0 d g,
    for_each items (dict_step key step) (d0, g0) = Ok (d, g) ->
    NoDup (Dict.keys d0 ++ map key items) ->
    Dict.keys d = Dict.keys d0 ++ map key items.
Proof.
  induction items as [|a items IH]; intros d0 g0 d g H Hnd;
    cbn [for_each map] in *.
  - injection H as <- <-. now rewrite app_nil_r.
  - apply bind_Ok_inv in H. destruct H as [[d1 g1] [Hstep H]].
    unfold dict_step in Hstep. cbn [fst snd] in Hstep.
    apply bind_Ok_inv in Hstep. destruct Hstep as [[v1 g1'] [Hs Hd]].
    injection Hd as <- <-. cbn [fst snd] in H.
    assert (Hnew : ~ In (key a) (Dict.keys d0)).
    { intros Hin. apply NoDup_remove_2 in Hnd. apply Hnd.
      apply in_or_app. now left. }
    rewrite (@setitem_new _ _ _ v1 Hnew) in H.
    apply IH in H.
    + rewrite H. unfold Dict.keys. rewrite map_app, <- app_assoc.
      reflexivity.
    + unfold Dict.keys. rewrite map_app, <- app_assoc. exact Hnd.
Qed.

Lemma dict_loop_returns (items : list A) :
  (forall a g, In a items -> returns (step a g)) ->
  forall st, returns (for_each items (dict_step key step) st).
Proof.
  induction items as [|a items IH]; intros Hstep st; cbn [for_each].
  - eexists. reflexivity.
  - unfold dict_step at 1.
    destruct (Hstep a (snd st) (or_introl eq_refl)) as [r ->].
    cbn [bind]. apply IH. intros a' g Hin. apply Hstep. now right.
Qed.

End Dict_loops.

(** ** Template cross products *)

Lemma component_nth (v : Dict.t (list string)) (i : nat) (k : string)
      (l : list string) :
  Dict.wf v -> nth_error v i = Some (k, l) -> prompts.component v i = Ok l.
Proof.
  intros Hwf Hi. unfold prompts.component, list_getitem, Dict.keys.
  rewrite (map_nth_error fst _ _ Hi). cbn [bind fst].
  unfold Dict.getitem.
  rewrite (In_get _ _ Hwf (nth_error_In _ _ Hi)). reflexivity.
Qed.

Lemma for_each_append {A B : Type} (l : list A)
      (body : A -> list B -> result (list B)) (F : A -> list B) :
  (forall x acc, body x acc = Ok (acc ++ F x)) ->
  forall acc, for_each l body acc = Ok (acc ++ flat_map F l).
Proof.
  intros Hbody. induction l as [|x l IH]; intros acc; cbn.
  - now rewrite app_nil_r.
  - rewrite Hbody. cbn [bind]. rewrite IH, <- app_assoc. reflexivity.
Qed.

Lemma for_each_snoc {A B : Type} (l : list A) (f : A -> B) :
  forall acc,
    for_each l (fun x acc => Ok (acc ++ [f x])) acc = Ok (acc ++ map f l).
Proof.
  intros acc.
  rewrite (for_each_append l (fun x acc => Ok (acc ++ [f x]))
                           (fun x => [f x])) by reflexivity.
  rewrite flat_map_concat_map. f_equal. f_equal.
  induction l as [|x l IH]; cbn; [reflexivity | now rewrite <- IH].
Qed.

Lemma components_3 (v : Dict.t (list string)) (l0 l1 l2 : list string) :
  components v = [l0; l1; l2] ->
  exists k0 k1 k2, v = [(k0, l0); (k1, l1); (k2, l2)].
Proof.
  unfold components.
  destruct v as [|[k0 x0] [|[k1 x1] [|[k2 x2] [|? ?]]]]; cbn;
    intros H; try discriminate H.
  injection H as -> -> ->. exists k0, k1, k2. reflexivity.
Qed.

Lemma components_4 (v : Dict.t (list string)) (l0 l1 l2 l3 : list string) :
  components v = [l0; l1; l2; l3] ->
  exists k0 k1 k2 k3, v = [(k0, l0); (k1, l1); (k2, l2); (k3, l3)].
Proof.
  unfold components.
  destruct v as [|[k0 x0] [|[k1 x1] [|[k2 x2] [|[k3 x3] [|? ?]]]]]; cbn;
    intros H; try discriminate H.
  injection H as -> -> -> ->. exists k0, k1, k2, k3. reflexivity.
Qed.

Lemma chexpert_cls_prompts_cross (v : Dict.t (list string))
      (l0 l1 l2 : list string) :
  Dict.wf v -> components v = [l0; l1; l2] ->
  prompts.chexpert_cls_prompts v = Ok (cross3 l0 l1 l2).
Proof.
  intros Hwf Hc. destruct (components_3 _ Hc) as [k0 [k1 [k2 Hv]]].
  assert (H0 : prompts.component v 0 = Ok l0)
    by (apply (@component_nth v 0 k0 _ Hwf); rewrite Hv; reflexivity).
  assert (H1 : prompts.component v 1 = Ok l1)
    by (apply (@component_nth v 1 k1 _ Hwf); rewrite Hv; reflexivity).
  assert (H2 : prompts.component v 2 = Ok l2)
    by (apply (@component_nth v 2 k2 _ Hwf); rewrite Hv; reflexivity).
  unfold prompts.chexpert_cls_prompts, cross3. rewrite H0. cbn [bind].
  rewrite (for_each_append l0 _
             (fun k0 => flat_map (fun k1 =>
                map (fun k2 => prompts.space_join [k0; k1; k2]) l2) l1)).
  - reflexivity.
  - intros a acc. rewrite H1. cbn [bind].
    apply for_each_append. intros b acc'. rewrite H2. cbn [bind].
    apply for_each_snoc.
Qed.

Lemma covid_cls_prompts_cross (v : Dict.t (list string))
      (l0 l1 l2 l3 : list string) :
  Dict.wf v -> components v = [l0; l1; l2; l3] ->
  prompts.covid_cls_prompts v = Ok (cross4 l0 l1 l2 l3).
Proof.
  intros Hwf Hc. destruct (components_4 _ Hc) as [k0 [k1 [k2 [k3 Hv]]]].
  assert (H0 : prompts.component v 0 = Ok l0)
    by (apply (@component_nth v 0 k0 _ Hwf); rewrite Hv; reflexivity).
  assert (H1 : prompts.component v 1 = Ok l1)
    by (apply (@component_nth v 1 k1 _ Hwf); rewrite Hv; reflexivity).
  assert (H2 : prompts.component v 2 = Ok l2)
    by (apply (@component_nth v 2 k2 _ Hwf); rewrite Hv; reflexivity).
  assert (H3 : prompts.component v 3 = Ok l3)
    by (apply (@component_nth v 3 k3 _ Hwf); rewrite Hv; reflexivity).
  unfold prompts.covid_cls_prompts, cross4. rewrite H0. cbn [bind].
  rewrite (for_each_append l0 _
             (fun k0 => flat_map (fun k1 => flat_map (fun k2 =>
                map (fun k3 => prompts.space_join [k0; k1; k2; k3]) l3)
                  l2) l1)).
  - reflexivity.
  - intros a acc. rewrite H1. cbn [bind].
    apply for_each_append. intros b acc'. rewrite H2. cbn [bind].
    apply for_each_append. intros c acc''. rewrite H3. cbn [bind].
    apply for_each_snoc.
Qed.

Lemma length_flat_map_const {A B : Type} (f : A -> list B) (l : list A)
      (c : nat) :
  (forall x, length (f x) = c) -> length (flat_map f l) = length l * c.
Proof.
  intros Hf. induction l as [|x l IH]; cbn.
  - reflexivity.
  - rewrite length_app, Hf, IH. reflexivity.
Qed.

Lemma length_cross3 (l0 l1 l2 : list string) :
  length (cross3 l0 l1 l2) = length l0 * length l1 * length l2.
Proof.
  unfold cross3.
  rewrite (length_flat_map_const _ l0 (c := length l1 * length l2)).
  - lia.
  - intros k0. apply length_flat_map_const. intros k1. apply length_map.
Qed.

Lemma length_cross4 (l0 l1 l2 l3 : list string) :
  length (cross4 l0 l1 l2 l3)
  = length l0 * length l1 * length l2 * length l3.
Proof.
  unfold cross4.
  rewrite (length_flat_map_const _ l0
             (c := length l1 * (length l2 * length l3))).
  - lia.
  - intros k0. apply length_flat_map_const. intros k1.
    apply length_flat_map_const. intros k2. apply length_map.
Qed.

(** ** The template generators *)

Lemma template_loop_is_dict_step
      (f : Dict.t (list string) -> result (list string)) (n : option nat)
      (kv : string * Dict.t (list string))
      (st : Dict.t (list string) * rng) :
  prompts.template_loop f n kv st = dict_step fst (template_step f n) kv st.
Proof.
  unfold prompts.template_loop, dict_step, template_step.
  destruct (f (snd kv)); reflexivity.
Qed.

(** For a table whose classes all yield candidates, the generator returns a
    dictionary with the keys of the table, and the entry of every class is a
    sample of its candidates. *)
Lemma template_generator_spec
      (f : Dict.t (list string) -> result (list string))
      (template : Dict.t (Dict.t (list string))) (n : option nat) (g : rng) :
  Dict.wf template ->
  (forall k v, In (k, v) template -> returns (f v)) ->
  exists ps g',
    for_each template (prompts.template_loop f n) ([], g) = Ok (ps, g')
    /\ Dict.keys ps = Dict.keys template
    /\ forall k v cands,
         In (k, v) template -> f v = Ok cands ->
         exists sampled,
           Dict.get ps k = Some sampled /\ sampled_from n cands sampled.
Proof.
  intros Hwf Hf.
  rewrite (for_each_ext _ _ _ (template_loop_is_dict_step f n)).
  destruct (@dict_loop_returns _ _ fst (template_step f n) template)
    with (st := (@nil (string * list string), g)) as [[ps g'] Hps].
  { intros [k v] g0 Hin. unfold template_step. cbn [snd].
    destruct (Hf k v Hin) as [cands ->]. cbn [bind].
    destruct (sample_if_smaller_spec n cands g0) as [res [g1 [-> _]]].
    eexists. reflexivity. }
  exists ps, g'. split; [exact Hps|].
  assert (Hkeys : Dict.keys ps = Dict.keys template).
  { eapply dict_loop_keys in Hps; [exact Hps | exact Hwf]. }
  split; [exact Hkeys|].
  intros k v cands Hin Hcands.
  destruct (@keys_get _ ps k) as [sampled Hget].
  { rewrite Hkeys. apply in_map_iff. exists (k, v). auto. }
  exists sampled. split; [exact Hget|].
  pose proof Hps as Hprov. eapply dict_loop_get in Hprov; [|exact Hget].
  destruct Hprov as
    [Hnil | [[k' v'] [g1 [g2 [Hin' [Hk Hstep]]]]]]; [discriminate Hnil|].
  cbn [fst] in Hk. subst k'.
  assert (v' = v) by (eapply wf_In_unique; eassumption). subst v'.
  unfold template_step in Hstep. cbn [snd] in Hstep.
  rewrite Hcands in Hstep. cbn [bind] in Hstep.
  destruct (sample_if_smaller_spec n cands g1) as [res [g3 [Hs Hfrom]]].
  rewrite Hs in Hstep. injection Hstep as <- <-. exact Hfrom.
Qed.

Lemma nodupb_sound (l : list string) : nodupb l = true -> NoDup l.
Proof.
  induction l as [|x l IH]; cbn; intros H.
  - constructor.
  - apply andb_prop in H. destruct H as [Hx Hl]. constructor.
    + intros Hin. apply negb_true_iff in Hx.
      assert (Ht : existsb (String.eqb x) l = true).
      { apply existsb_exists. exists x. split; [exact Hin|].
        apply String.eqb_refl. }
      congruence.
    + apply IH, Hl.
Qed.

Lemma components_of_length_3 (v : Dict.t (list string)) :
  length v = 3 -> exists l0 l1 l2, components v = [l0; l1; l2].
Proof.
  destruct v as [|[k0 x0] [|[k1 x1] [|[k2 x2] [|? ?]]]]; cbn;
    intros H; try discriminate H.
  exists x0, x1, x2. reflexivity.
Qed.

Lemma components_of_length_4 (v : Dict.t (list string)) :
  length v = 4 -> exists l0 l1 l2 l3, components v = [l0; l1; l2; l3].
Proof.
  destruct v as [|[k0 x0] [|[k1 x1] [|[k2 x2] [|[k3 x3] [|? ?]]]]]; cbn;
    intros H; try discriminate H.
  exists x0, x1, x2, x3. reflexivity.
Qed.

(** C2 (as amended).  For a template table whose classes each list three
    (CheXpert) or four (COVID) phrase lists, the generator returns one entry
    per class; the candidates of a class are the cross product of its phrase
    lists, space-joined, first list outermost, so their number is the
    product of the lengths.  With a sample size [n] below that number the
    entry holds exactly [n] prompts taken at pairwise distinct positions of
    the candidate list: all are candidates, and they are pairwise distinct
    strings when the candidates are.  Without [n], or with [n] at least that
    number, the entry is the candidate list itself. *)
Theorem template_prompts_are_sampled_cross_products
        (CHEXPERT_CLASS_PROMPTS COVID_CLASS_PROMPTS
           : Dict.t (Dict.t (list string)))
        (n : option nat) (g : rng) :
  (template_shaped 3 CHEXPERT_CLASS_PROMPTS ->
   exists ps g',
     prompts.generate_chexpert_class_prompts CHEXPERT_CLASS_PROMPTS n g
       = Ok (ps, g')
     /\ Dict.keys ps = Dict.keys CHEXPERT_CLASS_PROMPTS
     /\ forall k v,
          In (k, v) CHEXPERT_CLASS_PROMPTS ->
          exists l0 l1 l2 sampled,
            components v = [l0; l1; l2]
            /\ length (cross3 l0 l1 l2)
               = length l0 * length l1 * length l2
            /\ Dict.get ps k = Some sampled
            /\ sampled_from n (cross3 l0 l1 l2) sampled)
  /\ (template_shaped 4 COVID_CLASS_PROMPTS ->
      exists ps g',
        prompts.generate_covid_class_prompts COVID_CLASS_PROMPTS n g
          = Ok (ps, g')
        /\ Dict.keys ps = Dict.keys COVID_CLASS_PROMPTS
        /\ forall k v,
             In (k, v) COVID_CLASS_PROMPTS ->
             exists l0 l1 l2 l3 sampled,
               components v = [l0; l1; l2; l3]
               /\ length (cross4 l0 l1 l2 l3)
                  = length l0 * length l1 * length l2 * length l3
               /\ Dict.get ps k = Some sampled
               /\ sampled_from n (cross4 l0 l1 l2 l3) sampled).
Proof.
  split.
  - intros [Hwf Hshape].
    destruct (@template_generator_spec prompts.chexpert_cls_prompts
                CHEXPERT_CLASS_PROMPTS n g Hwf) as [ps [g' [Hps [Hk Hget]]]].
    { intros k v Hin. destruct (Hshape k v Hin) as [Hv Hlen].
      destruct (components_of_length_3 _ Hlen) as [l0 [l1 [l2 Hc]]].
      rewrite (chexpert_cls_prompts_cross Hv Hc). eexists. reflexivity. }
    exists ps, g'. split; [exact Hps|]. split; [exact Hk|].
    intros k v Hin. destruct (Hshape k v Hin) as [Hv Hlen].
    destruct (components_of_length_3 _ Hlen) as [l0 [l1 [l2 Hc]]].
    destruct (Hget k v _ Hin (chexpert_cls_prompts_cross Hv Hc))
      as [sampled [Hs Hfrom]].
    exists l0, l1, l2, sampled.
    split; [exact Hc|]. split; [apply length_cross3|]. auto.
  - intros [Hwf Hshape].
    destruct (@template_generator_spec prompts.covid_cls_prompts
                COVID_CLASS_PROMPTS n g Hwf) as [ps [g' [Hps [Hk Hget]]]].
    { intros k v Hin. destruct (Hshape k v Hin) as [Hv Hlen].
      destruct (components_of_length_4 _ Hlen) as [l0 [l1 [l2 [l3 Hc]]]].
      rewrite (covid_cls_prompts_cross Hv Hc). eexists. reflexivity. }
    exists ps, g'. split; [exact Hps|]. split; [exact Hk|].
    intros k v Hin. destruct (Hshape k v Hin) as [Hv Hlen].
    destruct (components_of_length_4 _ Hlen) as [l0 [l1 [l2 [l3 Hc]]]].
    destruct (Hget k v _ Hin (covid_cls_prompts_cross Hv Hc))
      as [sampled [Hs Hfrom]].
    exists l0, l1, l2, l3, sampled.
    split; [exact Hc|]. split; [apply length_cross4|]. auto.
Qed.

Lemma toy_template3_shaped : template_shaped 3 Toy.template3.
Proof.
  split.
  - apply nodupb_sound. reflexivity.
  - intros c v [H | []]. injection H as <- <-. split.
    + apply nodupb_sound. reflexivity.
    + reflexivity.
Qed.

Lemma toy_template4_shaped : template_shaped 4 Toy.template4.
Proof.
  split.
  - apply nodupb_sound. reflexivity.
  - intros c v [H | []]. injection H as <- <-. split.
    + apply nodupb_sound. reflexivity.
    + reflexivity.
Qed.

Lemma template_prompts_are_sampled_cross_products_witness :
  (exists ps g' sampled,
     prompts.generate_chexpert_class_prompts Toy.template3 (Some 3) [5; 1; 0]
       = Ok (ps, g')
     /\ Dict.keys ps = ["Edema"%string]
     /\ Dict.get ps "Edema"%string = Some sampled
     /\ length sampled = 3)
  /\ (exists ps g' sampled,
        prompts.generate_covid_class_prompts Toy.template4 None [5; 1; 0]
          = Ok (ps, g')
        /\ Dict.keys ps = ["COVID"%string]
        /\ Dict.get ps "COVID"%string = Some sampled
        /\ length sampled = 4).
Proof.
  split.
  - destruct (template_prompts_are_sampled_cross_products
                Toy.template3 Toy.template4 (Some 3) [5; 1; 0]) as [H3 _].
    destruct (H3 toy_template3_shaped) as [ps [g' [Hps [Hk Hget]]]].
    destruct (Hget "Edema"%string _ (or_introl eq_refl))
      as [l0 [l1 [l2 [sampled [Hc [_ [Hs Hfrom]]]]]]].
    injection Hc as <- <- <-.
    exists ps, g', sampled. split; [exact Hps|]. split; [exact Hk|].
    split; [exact Hs|]. destruct Hfrom as [[Hlen _] _]. exact Hlen.
  - destruct (template_prompts_are_sampled_cross_products
                Toy.template3 Toy.template4 None [5; 1; 0]) as [_ H4].
    destruct (H4 toy_template4_shaped) as [ps [g' [Hps [Hk Hget]]]].
    destruct (Hget "COVID"%string _ (or_introl eq_refl))
      as [l0 [l1 [l2 [l3 [sampled [Hc [_ [Hs Hfrom]]]]]]]].
    injection Hc as <- <- <- <-.
    exists ps, g', sampled. split; [exact Hps|]. split; [exact Hk|].
    split; [exact Hs|]. cbn in Hfrom. rewrite Hfrom. reflexivity.
Defined.

(** C2 (as stated) fails: a phrase listed more than once makes equal
    candidates, and a sample of two of them is not made of two different
    prompts. *)
Lemma repeated_phrase_sample_not_distinct :
  ~ samples_are_distinct Toy.repeated_template 2 [5; 1; 0].
Proof.
  intros H.
  destruct (H [("Edema"%string,
                ["mild pulmonary edema at the bases";
                 "mild pulmonary edema at the bases"]%string)]
              [0]
              "Edema"%string
              [("severity"%string, ["mild"; "mild"; "mild"]%string);
               ("subtype"%string, ["pulmonary edema"]%string);
               ("location"%string, ["at the bases"]%string)]
              ["mild pulmonary edema at the bases";
               "mild pulmonary edema at the bases";
               "mild pulmonary edema at the bases"]%string
              ["mild pulmonary edema at the bases";
               "mild pulmonary edema at the bases"]%string
              eq_refl (or_introl eq_refl) eq_refl
              ltac:(cbn; lia) eq_refl) as [_ [Hnd _]].
  inversion Hnd as [|x l Hnotin _]. apply Hnotin. now left.
Qed.

(** ** The sentence table *)

Lemma index_of_Some (k : string) (l : list string) (c : nat) :
  index_of k l = Some c -> nth_error l c = Some k.
Proof.
  revert c. induction l as [|k' l IH]; cbn; intros c H; [discriminate|].
  destruct (String.eqb k' k) eqn:E.
  - injection H as <-. apply String.eqb_eq in E. subst. reflexivity.
  - destruct (index_of k l) as [c'|]; [|discriminate].
    injection H as <-. cbn. apply IH. reflexivity.
Qed.

Lemma index_of_In (k : string) (l : list string) :
  In k l -> exists c, index_of k l = Some c.
Proof.
  induction l as [|k' l IH]; cbn; intros Hin; [contradiction|].
  destruct (String.eqb k' k) eqn:E.
  - exists 0. reflexivity.
  - destruct Hin as [-> | Hin].
    + rewrite String.eqb_refl in E. discriminate E.
    + destruct (IH Hin) as [c ->]. exists (S c). reflexivity.
Qed.

Lemma index_of_None (k : string) (l : list string) :
  ~ In k l -> index_of k l = None.
Proof.
  intros Hnotin. destruct (index_of k l) as [c|] eqn:E; [|reflexivity].
  apply index_of_Some, nth_error_In in E. contradiction.
Qed.

Lemma filled_label_1 (r : sentence) (c : nat) :
  Z.eqb (filled_label r c) 1 = true <-> nth c (labels r) None = Some 1%Z.
Proof.
  unfold filled_label. destruct (nth c (labels r) None) as [z|].
  - rewrite Z.eqb_eq. split; congruence.
  - cbn. split; discriminate.
Qed.

Lemma filled_label_0 (r : sentence) (c : nat) :
  Z.eqb (filled_label r c) 0 = true
  <-> nth c (labels r) None = Some 0%Z \/ nth c (labels r) None = None.
Proof.
  unfold filled_label. destruct (nth c (labels r) None) as [z|].
  - rewrite Z.eqb_eq. split.
    + intros ->. now left.
    + intros [H | H]; congruence.
  - cbn. split; auto.
Qed.

Lemma columns_all_0_others (df : DataFrame) (task : string) (r : sentence) :
  columns_all_0 df
    (filter (fun t => negb (String.eqb t task)) (tasks df)) r = true
  <-> forall t, In t (tasks df) -> t <> task ->
                label_at df r t = Some (Some 0%Z)
                \/ label_at df r t = Some None.
Proof.
  unfold columns_all_0, label_at. rewrite forallb_forall. split.
  - intros H t Hin Hne.
    assert (Hf : In t (filter (fun t => negb (String.eqb t task)) (tasks df))).
    { apply filter_In. split; [exact Hin|].
      apply negb_true_iff, String.eqb_neq, Hne. }
    specialize (H t Hf). destruct (index_of_In _ _ Hin) as [c Hc].
    rewrite Hc in *. cbv beta iota in *. apply filled_label_0 in H.
    destruct H as [H | H]; rewrite H; auto.
  - intros H t Hf. apply filter_In in Hf. destruct Hf as [Hin Hne].
    apply negb_true_iff, String.eqb_neq in Hne.
    specialize (H t Hin Hne). destruct (index_of_In _ _ Hin) as [c Hc].
    rewrite Hc in *. cbv beta iota in *. apply filled_label_0.
    destruct H as [H | H]; injection H as ->; auto.
Qed.

Lemma qualifiesb_iff (df : DataFrame) (task : string) (r : sentence) :
  qualifiesb df task r = true <-> qualifies df task r.
Proof.
  unfold qualifiesb, qualifies.
  rewrite !andb_true_iff, Nat.ltb_lt, columns_all_0_others.
  change (label_at df r task)
    with (match index_of task (tasks df) with
          | Some c => Some (nth c (labels r) None)
          | None => None
          end).
  destruct (index_of task (tasks df)) as [c|]; cbv beta iota.
  - rewrite filled_label_1. split.
    + intros [[H1 H2] H3]. rewrite H2. auto.
    + intros [H1 [H2 H3]]. injection H2 as H2. auto.
  - split.
    + intros [[_ H] _]. discriminate H.
    + intros [_ [H _]]. discriminate H.
Qed.

Lemma filter_filter {A : Type} (f g : A -> bool) (l : list A) :
  filter f (filter g l) = filter (fun x => g x && f x) l.
Proof.
  induction l as [|x l IH]; cbn; [reflexivity|].
  destruct (g x); cbn; [destruct (f x)|]; rewrite IH; reflexivity.
Qed.

(** The rows kept for a task are exactly the qualifying rows, in order. *)
Lemma task_rows_spec (df : DataFrame) (task : string) (rows : list sentence) :
  wf_frame df ->
  task_rows df task = Ok rows ->
  rows = filter (qualifiesb df task) (sentences df).
Proof.
  unfold wf_frame, task_rows, column_eq_1. intros Hwf H.
  destruct (String.eqb task "Reports") eqn:E.
  - cbn [bind] in H. injection H as <-.
    apply String.eqb_eq in E. subst task.
    rewrite filter_filter. apply filter_ext. intros r.
    unfold qualifiesb. rewrite index_of_None.
    + cbn. rewrite andb_false_r. reflexivity.
    + inversion Hwf. assumption.
  - destruct (index_of task (tasks df)) as [c|] eqn:Hc; [|discriminate H].
    cbn [bind] in H. injection H as <-.
    rewrite filter_filter. apply filter_ext. intros r.
    unfold qualifiesb. rewrite Hc, andb_assoc. reflexivity.
Qed.

Lemma task_rows_returns (df : DataFrame) (task : string) :
  In task (tasks df) -> returns (task_rows df task).
Proof.
  intros Hin. unfold task_rows, column_eq_1.
  destruct (String.eqb task "Reports"); [eexists; reflexivity|].
  destruct (index_of_In _ _ Hin) as [c ->]. eexists. reflexivity.
Qed.

Lemma task_rows_unknown (df : DataFrame) (task : string) :
  ~ In task ("Reports"%string :: tasks df) ->
  task_rows df task = Raise (KeyError task).
Proof.
  intros Hnotin. unfold task_rows, column_eq_1.
  assert (E : String.eqb task "Reports" = false).
  { apply String.eqb_neq. intros ->. apply Hnotin. now left. }
  rewrite E, index_of_None; [reflexivity|].
  intros Hin. apply Hnotin. now right.
Qed.

Lemma generate_class_prompts_loop_is_dict_step
      (df : DataFrame) (n : option nat) (task : string)
      (st : Dict.t (list string) * rng) :
  prompts.generate_class_prompts_loop df
    (filter (fun r => 4 <? String.length (Reports r)) (sentences df))
    (tasks df) n task st
  = dict_step (fun t => t) (task_step df n) task st.
Proof.
  unfold prompts.generate_class_prompts_loop, dict_step, task_step, task_rows.
  destruct (column_eq_1 df task) as [is_one|e]; cbn [bind]; [|reflexivity].
  destruct (sample_if_smaller n _ (snd st)); reflexivity.
Qed.

Lemma generate_class_prompts_unfold (df : DataFrame) (task : task_arg)
      (n : option nat) (g : rng) :
  prompts.generate_class_prompts df task n g
  = for_each (prompts.target_tasks (tasks df) task)
             (dict_step (fun t => t) (task_step df n)) ([], g).
Proof.
  unfold prompts.generate_class_prompts. apply for_each_ext.
  intros t st. apply generate_class_prompts_loop_is_dict_step.
Qed.

(** What is stored for a task: the texts of a sample of its qualifying
    rows. *)
Lemma task_step_spec (df : DataFrame) (n : option nat) (task : string)
      (g g' : rng) (sampled : list string) :
  wf_frame df ->
  task_step df n task g = Ok (sampled, g') ->
  exists rows,
    sampled = map Reports rows
    /\ sampled_from n (filter (qualifiesb df task) (sentences df)) rows.
Proof.
  intros Hwf H. unfold task_step in H.
  apply bind_Ok_inv in H. destruct H as [kept [Hkept H]].
  apply (task_rows_spec _ Hwf) in Hkept. subst kept.
  destruct (sample_if_smaller_spec n
              (filter (qualifiesb df task) (sentences df)) g)
    as [rows [g1 [Hs Hfrom]]].
  rewrite Hs in H. cbn [bind fst snd] in H. injection H as <- <-.
  exists rows. auto.
Qed.

(** ** Claims about the sentence-sampling generator *)


Lemma toy_frame_wf : wf_frame Toy.frame.
Proof. apply nodupb_sound. reflexivity. Qed.



(** A step of the task loop fails in one way only: the column lookup of
    a name that is no column. *)
Lemma task_step_outcome (df : DataFrame) (n : option nat) (task : string)
      (g : rng) :
  (In task ("Reports"%string :: tasks df) /\ returns (task_step df n task g))
  \/ (~ In task ("Reports"%string :: tasks df)
      /\ task_step df n task g = Raise (KeyError task)).
Proof.
  destruct (in_dec string_dec task ("Reports"%string :: tasks df))
    as [Hin | Hno].
  - left. split; [exact Hin|]. unfold task_step.
    assert (Hrows : returns (task_rows df task)).
    { destruct Hin as [<- | Hin]; [|apply task_rows_returns, Hin].
      unfold task_rows, column_eq_1. rewrite String.eqb_refl.
      cbn [bind]. eexists. reflexivity. }
    destruct Hrows as [rows ->]. cbn [bind].
    destruct (sample_if_smaller_spec n rows g) as [res [g' [-> _]]].
    cbn [bind]. eexists. reflexivity.
  - right. split; [exact Hno|]. unfold task_step.
    rewrite (task_rows_unknown _ Hno). reflexivity.
Qed.

(** In a list of requested names the loop stops at the first name that is
    no column, with the KeyError of that name. *)
Lemma task_loop_raises_KeyError (df : DataFrame) (n : option nat)
      (names : list string) :
  (exists name, In name names
                /\ ~ In name ("Reports"%string :: tasks df)) ->
  forall st,
  exists before missing after,
    names = before ++ missing :: after
    /\ (forall t, In t before -> In t ("Reports"%string :: tasks df))
    /\ ~ In missing ("Reports"%string :: tasks df)
    /\ for_each names (dict_step (fun t => t) (task_step df n)) st
       = Raise (KeyError missing).
Proof.
  induction names as [|t rest IH]; intros [name [Hin Hnot]] st.
  - contradiction.
  - destruct (task_step_outcome df n t (snd st)) as [[Hcol [r Hr]] | [Hno Hr]].
    + destruct Hin as [-> | Hin]; [contradiction|].
      destruct (IH (ex_intro _ name (conj Hin Hnot))
                   (Dict.setitem (fst st) t (fst r), snd r))
        as [before [missing [after [-> [Hb [Hm Hrun]]]]]].
      exists (t :: before), missing, after. split; [reflexivity|].
      split; [|split; [exact Hm|]].
      * intros t' [<- | Ht']; [exact Hcol | apply Hb, Ht'].
      * cbn [for_each]. unfold dict_step at 1. rewrite Hr. cbn [bind].
        exact Hrun.
    + exists [], t, rest. split; [reflexivity|].
      split; [intros t' []|]. split; [exact Hno|].
      cbn [for_each]. unfold dict_step at 1. rewrite Hr. reflexivity.
Qed.

(** C6 (as amended).  A requested task name that is not among the table's
    columns -- neither a label column nor the text column 'Reports' --
    makes the generator raise KeyError, alone or inside a list of names:
    a list that holds such a name raises the KeyError of its first name
    that is no column, so of this name when the names before it are all
    columns.  The name 'Reports' itself raises nothing and gets an empty
    prompt list. *)
Theorem unknown_task_raises
        (df : DataFrame) (n : option nat) (g : rng) (name : string) :
  ~ In name ("Reports"%string :: tasks df) ->
  prompts.generate_class_prompts df (TaskName name) n g
    = Raise (KeyError name)
  /\ (forall names, In name names ->
        exists missing,
          In missing names
          /\ ~ In missing ("Reports"%string :: tasks df)
          /\ prompts.generate_class_prompts df (TaskList names) n g
             = Raise (KeyError missing))
  /\ (forall before after,
        (forall t, In t before -> In t ("Reports"%string :: tasks df)) ->
        prompts.generate_class_prompts df
          (TaskList (before ++ name :: after)) n g
        = Raise (KeyError name))
  /\ prompts.generate_class_prompts df (TaskName "Reports"%string) n g
     = Ok ([("Reports"%string, [])], g).
Proof.
  intros Hnotin. split; [|split; [|split]].
  - rewrite generate_class_prompts_unfold.
    cbn [prompts.target_tasks for_each]. unfold dict_step, task_step.
    rewrite (task_rows_unknown _ Hnotin). reflexivity.
  - intros names Hin. rewrite generate_class_prompts_unfold.
    cbn [prompts.target_tasks].
    destruct (@task_loop_raises_KeyError df n names
                (ex_intro _ name (conj Hin Hnotin)) ([], g))
      as [before [missing [after [-> [_ [Hm Hrun]]]]]].
    exists missing. split; [apply in_elt|]. split; [exact Hm | exact Hrun].
  - intros before after Hbefore. rewrite generate_class_prompts_unfold.
    cbn [prompts.target_tasks].
    assert (Hin : In name (before ++ name :: after)) by apply in_elt.
    destruct (@task_loop_raises_KeyError df n (before ++ name :: after)
                (ex_intro _ name (conj Hin Hnotin)) ([], g))
      as [before' [missing [after' [Heq [Hb [Hm Hrun]]]]]].
    rewrite Hrun. f_equal. f_equal.
    clear Hrun Hin. revert before' Heq Hb.
    induction before as [|b before IH]; intros before' Heq Hb.
    + destruct before' as [|b' before'].
      * cbn [app] in Heq. injection Heq as -> _. reflexivity.
      * cbn [app] in Heq. injection Heq as <- _.
        exfalso. apply Hnotin, Hb. left. reflexivity.
    + destruct before' as [|b' before'].
      * cbn [app] in Heq. injection Heq as <- _.
        exfalso. apply Hm, Hbefore. left. reflexivity.
      * cbn [app] in Heq. injection Heq as <- Heq.
        apply (IH (fun t Ht => Hbefore t (or_intror Ht)) before' Heq).
        intros t Ht. apply Hb. right. exact Ht.
  - rewrite generate_class_prompts_unfold.
    cbn [prompts.target_tasks for_each]. unfold dict_step, task_step,
      task_rows, column_eq_1.
    rewrite String.eqb_refl. cbn [bind].
    rewrite filter_filter.
    rewrite (filter_ext _ (fun _ => false)) by (intros r; apply andb_false_r).
    assert (Hnone : forall l : list sentence, filter (fun _ => false) l = [])
      by (induction l; auto).
    rewrite Hnone. destruct n as [m|]; reflexivity.
Qed.

Lemma unknown_task_raises_witness :
  prompts.generate_class_prompts Toy.frame
    (TaskName "Cardiomegaly"%string) (Some 100) [3; 1]
    = Raise (KeyError "Cardiomegaly"%string)
  /\ prompts.generate_class_prompts Toy.frame
       (TaskList ["Edema"; "Cardiomegaly"; "Pneumonia"]%string)
       (Some 100) [3; 1]
     = Raise (KeyError "Cardiomegaly"%string).
Proof.
  assert (Hnotin : ~ In "Cardiomegaly"%string
                        ("Reports"%string :: tasks Toy.frame)).
  { intros [H | [H | [H | []]]]; discriminate H. }
  destruct (@unknown_task_raises Toy.frame (Some 100) [3; 1] _ Hnotin)
    as [H1 [_ [H3 _]]].
  split; [exact H1|].
  apply (H3 ["Edema"%string] ["Pneumonia"%string]).
  intros t [<- | []]. right. left. reflexivity.
Defined.

(** C6 (as stated) fails: 'Reports' is not a label column, yet asking for
    it raises nothing. *)
Lemma reports_task_does_not_raise :
  ~ non_label_task_raises Toy.frame "Reports"%string (Some 100) [3; 1].
Proof.
  intros H.
  assert (Hnotin : ~ In "Reports"%string (tasks Toy.frame)).
  { intros [E | [E | []]]; discriminate E. }
  apply H in Hnotin. apply (raises_not_returns Hnotin).
  eexists. reflexivity.
Qed.

(** ** The prompt tokenizer *)

Lemma fold_setitem_map {V W : Type} (f : V -> W) (items : Dict.t V) :
  forall d0,
    NoDup (Dict.keys d0 ++ Dict.keys items) ->
    fold_left (fun d kv => Dict.setitem d (fst kv) (f (snd kv))) items d0
    = d0 ++ map (fun kv => (fst kv, f (snd kv))) items.
Proof.
  induction items as [|[k v] items IH]; intros d0 Hnd; cbn [fold_left map].
  - now rewrite app_nil_r.
  - cbn [fst snd].
    assert (Hnew : ~ In k (Dict.keys d0)).
    { intros Hin. cbn in Hnd. apply NoDup_remove_2 in Hnd. apply Hnd.
      apply in_or_app. now left. }
    rewrite (@setitem_new _ _ _ (f v) Hnew), IH.
    + rewrite <- app_assoc. reflexivity.
    + unfold Dict.keys in *. rewrite map_app, <- app_assoc. exact Hnd.
Qed.

(** C7.  The tokenized prompt set has exactly one entry per class of the
    prompt set, under the same keys in the same order, and the entry of a
    class is what the tokenizer returns for its prompts with maximum length
    77, truncation on and padding on. *)
Theorem process_class_prompts_entries
        (pretrained : prompts.Tokenizer) (cls_prompts : Dict.t (list string)) :
  Dict.wf cls_prompts ->
  let out := prompts.process_class_prompts pretrained cls_prompts in
  Dict.keys out = Dict.keys cls_prompts
  /\ length out = length cls_prompts
  /\ Dict.wf out
  /\ forall k v,
       In (k, v) cls_prompts ->
       Dict.get out k = Some (prompts.encode pretrained 77 true true v).
Proof.
  intros Hwf out.
  assert (Hout : out = map (fun kv =>
                   (fst kv, prompts.encode pretrained 77 true true (snd kv)))
                   cls_prompts).
  { unfold out, prompts.process_class_prompts, prompts.call.
    cbn [prompts.set_model_max_length prompts.model_max_length
         prompts.encode].
    rewrite (fold_setitem_map
               (prompts.encode pretrained 77 true true) cls_prompts [] Hwf).
    reflexivity. }
  assert (Hkeys : Dict.keys out = Dict.keys cls_prompts).
  { rewrite Hout. unfold Dict.keys. rewrite map_map. reflexivity. }
  split; [exact Hkeys|]. split; [rewrite Hout; apply length_map|].
  assert (Hwf' : Dict.wf out) by (unfold Dict.wf; rewrite Hkeys; exact Hwf).
  split; [exact Hwf'|].
  intros k v Hin. apply (In_get _ _ Hwf'). rewrite Hout.
  apply in_map_iff. exists (k, v). auto.
Qed.

Lemma process_class_prompts_entries_witness :
  let out := prompts.process_class_prompts Toy.tokenizer Toy.prompt_set in
  Dict.keys out = ["Edema"; "Pneumonia"]%string
  /\ length out = 2
  /\ Dict.get out "Pneumonia"%string
     = Some {| input_ids :=
                 [[101; 112; 110; 101; 117; 109; 111; 110; 105; 97; 102]];
               attention_mask := [[1; 1; 1; 1; 1; 1; 1; 1; 1; 1; 1]] |}.
Proof.
  assert (Hwf : Dict.wf Toy.prompt_set) by (apply nodupb_sound; reflexivity).
  destruct (process_class_prompts_entries Toy.tokenizer Hwf)
    as [Hk [Hl [_ Hget]]].
  split; [exact Hk|]. split; [exact Hl|].
  apply (Hget "Pneumonia"%string ["pneumonia"%string]).
  right. left. reflexivity.
Defined.

(** ** Worked examples *)

(** The candidates of a class come out with the first phrase list
    outermost. *)
Example chexpert_candidates_in_order :
  prompts.generate_chexpert_class_prompts Toy.template3 None [5; 1; 0]
  = Ok ([("Edema"%string,
          [" edema at the bases"; " vascular congestion at the bases";
           "mild edema at the bases";
           "mild vascular congestion at the bases"]%string)],
        [5; 1; 0]).
Proof. reflexivity. Qed.

(** A class with fewer than three phrase lists: the missing list is only
    looked up inside the loop over the first one. *)
Example missing_component_raises :
  prompts.chexpert_cls_prompts
    [("severity"%string, ["mild"%string]);
     ("subtype"%string, ["edema"%string])]
  = Raise IndexError.
Proof. reflexivity. Qed.

Example missing_component_unreached :
  prompts.chexpert_cls_prompts
    [("severity"%string, []); ("subtype"%string, ["edema"%string])]
  = Ok [].
Proof. reflexivity. Qed.

(** Three draws 4, 3, 2 from a pool of five. *)
Example sample_three_of_five :
  random_sample [1; 2; 3; 4; 5] 3 [4; 3; 2] = Ok ([5; 4; 3], []).
Proof. reflexivity. Qed.

Example sample_more_than_population :
  random_sample [1; 2; 3; 4; 5] 6 [4; 3; 2] = Raise ValueError.
Proof. reflexivity. Qed.

(** One task after the other on the five-row table: too short texts and
    rows positive for two tasks are left out. *)
Example all_tasks_of_frame :
  prompts.generate_class_prompts Toy.frame TaskNone None [3; 1]
  = Ok ([("Edema"%string, ["mild pulmonary edema"; "edema"]%string);
         ("Pneumonia"%string, ["right lower lobe pneumonia"%string])],
        [3; 1]).
Proof. reflexivity. Qed.

Example blank_label_output :
  prompts.generate_class_prompts Toy.blank_label_frame
    (TaskName "Edema"%string) (Some 100) []
  = Ok ([("Edema"%string, ["mild pulmonary edema"%string])], []).
Proof. reflexivity. Qed.

Example reports_task_output :
  prompts.generate_class_prompts Toy.frame
    (TaskName "Reports"%string) (Some 100) [3; 1]
  = Ok ([("Reports"%string, [])], [3; 1]).
Proof. reflexivity. Qed.

(** Mean and maximum of the rows of the 2 x 3 logits. *)
Example mean_of_logits23 :
  at1 (torch_mean Toy.logits23) 0 = Fin 3
  /\ at1 (torch_mean Toy.logits23) 1 = Fin 1.
Proof.
  unfold torch_mean, sdiv. cbn.
  destruct (Req_dec_T (1 + 1 + 1) 0) as [E|_]; [lra|].
  split; f_equal; lra.
Qed.

Example max_of_logits23 :
  exists m, torch_max Toy.logits23 = Ok m
            /\ at1 m 0 = Fin 6 /\ at1 m 1 = Fin 4.
Proof.
  eexists. split; [reflexivity|]. cbn. Rmax_eval. split; reflexivity.
Qed.

(** A prompt longer than the limit is cut to 77 tokens. *)
Example long_prompt_is_truncated :
  length (Toy.encode_one 77 true
            (String.concat EmptyString (repeat "edema "%string 40))) = 77.
Proof. reflexivity. Qed.

(* ================================================================== *)
(** * Further properties of the code *)

(** ** The nested loops of the template generators *)

Lemma chexpert_cls_prompts_nest3 (v : Dict.t (list string)) :
  prompts.chexpert_cls_prompts v
  = nest3 (prompts.component v 0) (prompts.component v 1)
          (prompts.component v 2).
Proof. reflexivity. Qed.

Lemma covid_cls_prompts_nest4 (v : Dict.t (list string)) :
  prompts.covid_cls_prompts v
  = nest4 (prompts.component v 0) (prompts.component v 1)
          (prompts.component v 2) (prompts.component v 3).
Proof. reflexivity. Qed.

Lemma component_present (v : Dict.t (list string)) (i : nat) :
  Dict.wf v -> i < length v -> prompts.component v i = Ok (phrases v i).
Proof.
  intros Hwf Hi.
  destruct (nth_error v i) as [[k l]|] eqn:E.
  - rewrite (@component_nth v i k l Hwf E). f_equal.
    unfold phrases, components. symmetry.
    apply nth_error_nth. rewrite (map_nth_error snd _ _ E). reflexivity.
  - apply nth_error_None in E. lia.
Qed.

Lemma component_absent (v : Dict.t (list string)) (i : nat) :
  length v <= i -> prompts.component v i = Raise IndexError.
Proof.
  intros Hi. unfold prompts.component, list_getitem.
  assert (E : nth_error (Dict.keys v) i = None).
  { apply nth_error_None. unfold Dict.keys. rewrite length_map. exact Hi. }
  rewrite E. reflexivity.
Qed.

Lemma flat_map_nil {A B : Type} (l : list A) :
  flat_map (fun _ : A => @nil B) l = [].
Proof. induction l as [|x l IH]; cbn; auto. Qed.

Lemma for_each_skip {A B : Type} (l : list A)
      (body : A -> list B -> result (list B)) :
  (forall x acc, body x acc = Ok acc) ->
  forall acc, for_each l body acc = Ok acc.
Proof.
  intros Hbody. induction l as [|x l IH]; intros acc; cbn.
  - reflexivity.
  - rewrite Hbody. cbn [bind]. apply IH.
Qed.

Lemma for_each_raise_first {A S : Type} (x : A) (l : list A)
      (body : A -> S -> result S) (s : S) (e : exn) :
  body x s = Raise e -> for_each (x :: l) body s = Raise e.
Proof. intros H. cbn. rewrite H. reflexivity. Qed.

Lemma nest3_all (l0 l1 l2 : list string) :
  nest3 (Ok l0) (Ok l1) (Ok l2) = Ok (cross3 l0 l1 l2).
Proof.
  unfold nest3, cross3. cbn [bind].
  rewrite (for_each_append l0 _
             (fun k0 => flat_map (fun k1 =>
                map (fun k2 => prompts.space_join [k0; k1; k2]) l2) l1)).
  - reflexivity.
  - intros a acc. apply for_each_append. intros b acc'.
    apply for_each_snoc.
Qed.

Lemma nest4_all (l0 l1 l2 l3 : list string) :
  nest4 (Ok l0) (Ok l1) (Ok l2) (Ok l3) = Ok (cross4 l0 l1 l2 l3).
Proof.
  unfold nest4, cross4. cbn [bind].
  rewrite (for_each_append l0 _
             (fun k0 => flat_map (fun k1 => flat_map (fun k2 =>
                map (fun k3 => prompts.space_join [k0; k1; k2; k3]) l3)
                  l2) l1)).
  - reflexivity.
  - intros a acc. apply for_each_append. intros b acc'.
    apply for_each_append. intros c acc''. apply for_each_snoc.
Qed.

(** A lookup that fails is only felt when the loops around it run. *)
Lemma nest3_cases (c0 c1 c2 : result (list string)) :
  nest3 c0 c1 c2
  = match c0 with
    | Raise e => Raise e
    | Ok [] => Ok []
    | Ok (a :: l0) =>
        match c1 with
        | Raise e => Raise e
        | Ok [] => Ok []
        | Ok (b :: l1) =>
            match c2 with
            | Raise e => Raise e
            | Ok l2 => Ok (cross3 (a :: l0) (b :: l1) l2)
            end
        end
    end.
Proof.
  destruct c0 as [[|a l0]|e]; try reflexivity.
  destruct c1 as [[|b l1]|e].
  - unfold nest3. cbn [bind]. apply for_each_skip. reflexivity.
  - destruct c2 as [l2|e].
    + apply nest3_all.
    + reflexivity.
  - reflexivity.
Qed.

Lemma nest4_cases (c0 c1 c2 c3 : result (list string)) :
  nest4 c0 c1 c2 c3
  = match c0 with
    | Raise e => Raise e
    | Ok [] => Ok []
    | Ok (a :: l0) =>
        match c1 with
        | Raise e => Raise e
        | Ok [] => Ok []
        | Ok (b :: l1) =>
            match c2 with
            | Raise e => Raise e
            | Ok [] => Ok []
            | Ok (c :: l2) =>
                match c3 with
                | Raise e => Raise e
                | Ok l3 => Ok (cross4 (a :: l0) (b :: l1) (c :: l2) l3)
                end
            end
        end
    end.
Proof.
  destruct c0 as [[|a l0]|e]; try reflexivity.
  destruct c1 as [[|b l1]|e].
  - unfold nest4. cbn [bind]. apply for_each_skip. reflexivity.
  - destruct c2 as [[|c l2]|e].
    + unfold nest4. cbn [bind]. apply for_each_skip. intros x acc.
      apply for_each_skip. reflexivity.
    + destruct c3 as [l3|e].
      * apply nest4_all.
      * reflexivity.
    + reflexivity.
  - reflexivity.
Qed.

Lemma chexpert_cls_prompts_leading (v : Dict.t (list string)) :
  Dict.wf v -> 3 <= length v ->
  prompts.chexpert_cls_prompts v = Ok (candidates3 v).
Proof.
  intros Hwf Hlen. rewrite chexpert_cls_prompts_nest3.
  rewrite !component_present by (assumption || lia). apply nest3_all.
Qed.

Lemma covid_cls_prompts_leading (v : Dict.t (list string)) :
  Dict.wf v -> 4 <= length v ->
  prompts.covid_cls_prompts v = Ok (candidates4 v).
Proof.
  intros Hwf Hlen. rewrite covid_cls_prompts_nest4.
  rewrite !component_present by (assumption || lia). apply nest4_all.
Qed.

Lemma In_cross3 (l0 l1 l2 : list string) (p : string) :
  In p (cross3 l0 l1 l2)
  <-> exists k0 k1 k2,
        In k0 l0 /\ In k1 l1 /\ In k2 l2
        /\ p = prompts.space_join [k0; k1; k2].
Proof.
  unfold cross3. rewrite in_flat_map. split.
  - intros [k0 [H0 H]]. apply in_flat_map in H. destruct H as [k1 [H1 H]].
    apply in_map_iff in H. destruct H as [k2 [Hp H2]].
    exists k0, k1, k2. auto.
  - intros [k0 [k1 [k2 [H0 [H1 [H2 Hp]]]]]]. exists k0. split; [exact H0|].
    apply in_flat_map. exists k1. split; [exact H1|].
    apply in_map_iff. exists k2. auto.
Qed.

Lemma In_cross4 (l0 l1 l2 l3 : list string) (p : string) :
  In p (cross4 l0 l1 l2 l3)
  <-> exists k0 k1 k2 k3,
        In k0 l0 /\ In k1 l1 /\ In k2 l2 /\ In k3 l3
        /\ p = prompts.space_join [k0; k1; k2; k3].
Proof.
  unfold cross4. rewrite in_flat_map. split.
  - intros [k0 [H0 H]]. apply in_flat_map in H. destruct H as [k1 [H1 H]].
    apply in_flat_map in H. destruct H as [k2 [H2 H]].
    apply in_map_iff in H. destruct H as [k3 [Hp H3]].
    exists k0, k1, k2, k3. auto.
  - intros [k0 [k1 [k2 [k3 [H0 [H1 [H2 [H3 Hp]]]]]]]].
    exists k0. split; [exact H0|].
    apply in_flat_map. exists k1. split; [exact H1|].
    apply in_flat_map. exists k2. split; [exact H2|].
    apply in_map_iff. exists k3. auto.
Qed.

(** ** The template generators beyond the three- and four-list shape *)

(** X1.  On a template table whose classes list at least three phrase
    lists, the CheXpert generator returns one entry per class, sampled from
    the cross product of the first three lists only: every returned prompt
    is [k0 k1 k2] for phrases of those three lists, and a fourth or later
    list is ignored.  The COVID generator does the same with the first four
    lists. *)
Theorem template_generators_use_leading_lists
        (template : Dict.t (Dict.t (list string)))
        (n : option nat) (g : rng) :
  (template_at_least 3 template ->
   exists ps g',
     prompts.generate_chexpert_class_prompts template n g = Ok (ps, g')
     /\ Dict.keys ps = Dict.keys template
     /\ forall k v,
          In (k, v) template ->
          exists sampled,
            Dict.get ps k = Some sampled
            /\ sampled_from n (candidates3 v) sampled
            /\ forall p, In p sampled ->
                 exists k0 k1 k2,
                   In k0 (phrases v 0) /\ In k1 (phrases v 1)
                   /\ In k2 (phrases v 2)
                   /\ p = prompts.space_join [k0; k1; k2])
  /\ (template_at_least 4 template ->
      exists ps g',
        prompts.generate_covid_class_prompts template n g = Ok (ps, g')
        /\ Dict.keys ps = Dict.keys template
        /\ forall k v,
             In (k, v) template ->
             exists sampled,
               Dict.get ps k = Some sampled
               /\ sampled_from n (candidates4 v) sampled
               /\ forall p, In p sampled ->
                    exists k0 k1 k2 k3,
                      In k0 (phrases v 0) /\ In k1 (phrases v 1)
                      /\ In k2 (phrases v 2) /\ In k3 (phrases v 3)
                      /\ p = prompts.space_join [k0; k1; k2; k3]).
Proof.
  split.
  - intros [Hwf Hshape].
    destruct (@template_generator_spec prompts.chexpert_cls_prompts
                template n g Hwf) as [ps [g' [Hps [Hk Hget]]]].
    { intros k v Hin. destruct (Hshape k v Hin) as [Hv Hlen].
      rewrite (chexpert_cls_prompts_leading Hv Hlen). eexists. reflexivity. }
    exists ps, g'. split; [exact Hps|]. split; [exact Hk|].
    intros k v Hin. destruct (Hshape k v Hin) as [Hv Hlen].
    destruct (Hget k v _ Hin (chexpert_cls_prompts_leading Hv Hlen))
      as [sampled [Hs Hfrom]].
    exists sampled. split; [exact Hs|]. split; [exact Hfrom|].
    intros p Hp. apply (sampled_from_incl _ _ _ Hfrom) in Hp.
    apply In_cross3, Hp.
  - intros [Hwf Hshape].
    destruct (@template_generator_spec prompts.covid_cls_prompts
                template n g Hwf) as [ps [g' [Hps [Hk Hget]]]].
    { intros k v Hin. destruct (Hshape k v Hin) as [Hv Hlen].
      rewrite (covid_cls_prompts_leading Hv Hlen). eexists. reflexivity. }
    exists ps, g'. split; [exact Hps|]. split; [exact Hk|].
    intros k v Hin. destruct (Hshape k v Hin) as [Hv Hlen].
    destruct (Hget k v _ Hin (covid_cls_prompts_leading Hv Hlen))
      as [sampled [Hs Hfrom]].
    exists sampled. split; [exact Hs|]. split; [exact Hfrom|].
    intros p Hp. apply (sampled_from_incl _ _ _ Hfrom) in Hp.
    apply In_cross4, Hp.
Qed.

Lemma toy_template4_at_least (k : nat) :
  k <= 4 -> template_at_least k Toy.template4.
Proof.
  intros Hk. split.
  - apply nodupb_sound. reflexivity.
  - intros c v [H | []]. injection H as <- <-. split.
    + apply nodupb_sound. reflexivity.
    + exact Hk.
Qed.

Lemma template_generators_use_leading_lists_witness :
  (exists ps g',
     prompts.generate_chexpert_class_prompts Toy.template4 None [7]
       = Ok (ps, g')
     /\ Dict.get ps "COVID"%string
        = Some ["patchy ground glass opacities in";
                "patchy ground glass opacities at";
                "confluent ground glass opacities in";
                "confluent ground glass opacities at"]%string)
  /\ (exists ps g',
        prompts.generate_covid_class_prompts Toy.template4 None [7]
          = Ok (ps, g')
        /\ Dict.keys ps = ["COVID"%string]).
Proof.
  destruct (template_generators_use_leading_lists Toy.template4 None [7])
    as [H3 H4].
  split.
  - destruct (H3 (@toy_template4_at_least 3 ltac:(lia)))
      as [ps [g' [Hps [_ Hget]]]].
    exists ps, g'. split; [exact Hps|].
    destruct (Hget "COVID"%string _ (or_introl eq_refl))
      as [sampled [Hs [Hfrom _]]].
    cbn in Hfrom. rewrite Hs, Hfrom. reflexivity.
  - destruct (H4 (@toy_template4_at_least 4 ltac:(lia)))
      as [ps [g' [Hps [Hk _]]]].
    exists ps, g'. split; [exact Hps | exact Hk].
Defined.

(** X2.  A class with fewer than three phrase lists makes the CheXpert
    generator raise IndexError when the lists it does have are all
    non-empty, and no dictionary is returned; when one of them is empty the
    missing list is never looked up and the class gets no candidate at all.
    The COVID generator behaves the same below four lists. *)
Theorem template_with_too_few_lists
        (template : Dict.t (Dict.t (list string)))
        (n : option nat) (g : rng) (k : string) (v : Dict.t (list string)) :
  In (k, v) template -> Dict.wf v ->
  (length v < 3 ->
   (Forall (fun l => l <> []) (components v) ->
    prompts.chexpert_cls_prompts v = Raise IndexError
    /\ raises (prompts.generate_chexpert_class_prompts template n g))
   /\ (Exists (fun l => l = []) (components v) ->
       prompts.chexpert_cls_prompts v = Ok []))
  /\ (length v < 4 ->
      (Forall (fun l => l <> []) (components v) ->
       prompts.covid_cls_prompts v = Raise IndexError
       /\ raises (prompts.generate_covid_class_prompts template n g))
      /\ (Exists (fun l => l = []) (components v) ->
          prompts.covid_cls_prompts v = Ok [])).
Proof.
  intros Hin Hwf.
  assert (Hgen : forall f,
             f v = Raise IndexError ->
             raises (for_each template (prompts.template_loop f n) ([], g))).
  { intros f Hf. apply (for_each_raises _ _ _ Hin). intros st.
    unfold prompts.template_loop. cbn [snd]. rewrite Hf.
    exists IndexError. reflexivity. }
  assert (Hc : forall i, i < length v ->
             prompts.component v i = Ok (phrases v i))
    by (intros i Hi; apply component_present; assumption).
  assert (Ha : forall i, length v <= i ->
             prompts.component v i = Raise IndexError)
    by (intros i Hi; apply component_absent; assumption).
  split; intros Hlen.
  - assert (Hraise : Forall (fun l => l <> []) (components v) ->
                     prompts.chexpert_cls_prompts v = Raise IndexError).
    { intros Hne. rewrite chexpert_cls_prompts_nest3, nest3_cases.
      destruct v as [|[k0 l0] [|[k1 l1] [|[k2 l2] v']]];
        cbn [length] in *; try lia.
      - rewrite (Ha 0) by lia. reflexivity.
      - rewrite (Hc 0), (Ha 1) by lia. cbn.
        inversion Hne as [|? ? H0 _]; subst.
        destruct l0; [contradiction | reflexivity].
      - rewrite (Hc 0), (Hc 1), (Ha 2) by lia. cbn.
        inversion Hne as [|? ? H0 Hne']; subst.
        inversion Hne' as [|? ? H1 _]; subst.
        destruct l0; [contradiction|]. destruct l1; [contradiction|].
        reflexivity. }
    split.
    + intros Hne. split; [apply Hraise, Hne|].
      apply Hgen, Hraise, Hne.
    + intros Hex. rewrite chexpert_cls_prompts_nest3, nest3_cases.
      destruct v as [|[k0 l0] [|[k1 l1] [|[k2 l2] v']]];
        cbn [length] in *; try lia.
      * inversion Hex.
      * rewrite (Hc 0) by lia. cbn.
        inversion Hex as [? ? H0|? ? H0]; subst; [reflexivity | inversion H0].
      * rewrite (Hc 0), (Hc 1) by lia. cbn.
        destruct l0; [reflexivity|]. destruct l1; [reflexivity|].
        inversion Hex as [? ? H0|? ? H0]; subst; [discriminate H0|].
        inversion H0 as [? ? H1|? ? H1]; subst;
          [discriminate H1 | inversion H1].
  - assert (Hraise : Forall (fun l => l <> []) (components v) ->
                     prompts.covid_cls_prompts v = Raise IndexError).
    { intros Hne. rewrite covid_cls_prompts_nest4, nest4_cases.
      destruct v as [|[k0 l0] [|[k1 l1] [|[k2 l2] [|[k3 l3] v']]]];
        cbn [length] in *; try lia.
      - rewrite (Ha 0) by lia. reflexivity.
      - rewrite (Hc 0), (Ha 1) by lia. cbn.
        inversion Hne as [|? ? H0 _]; subst.
        destruct l0; [contradiction | reflexivity].
      - rewrite (Hc 0), (Hc 1), (Ha 2) by lia. cbn.
        inversion Hne as [|? ? H0 Hne']; subst.
        inversion Hne' as [|? ? H1 _]; subst.
        destruct l0; [contradiction|]. destruct l1; [contradiction|].
        reflexivity.
      - rewrite (Hc 0), (Hc 1), (Hc 2), (Ha 3) by lia. cbn.
        inversion Hne as [|? ? H0 Hne']; subst.
        inversion Hne' as [|? ? H1 Hne'']; subst.
        inversion Hne'' as [|? ? H2 _]; subst.
        destruct l0; [contradiction|]. destruct l1; [contradiction|].
        destruct l2; [contradiction|]. reflexivity. }
    split.
    + intros Hne. split; [apply Hraise, Hne|].
      apply Hgen, Hraise, Hne.
    + intros Hex. rewrite covid_cls_prompts_nest4, nest4_cases.
      destruct v as [|[k0 l0] [|[k1 l1] [|[k2 l2] [|[k3 l3] v']]]];
        cbn [length] in *; try lia.
      * inversion Hex.
      * rewrite (Hc 0) by lia. cbn.
        inversion Hex as [? ? H0|? ? H0]; subst; [reflexivity | inversion H0].
      * rewrite (Hc 0), (Hc 1) by lia. cbn.
        destruct l0; [reflexivity|]. destruct l1; [reflexivity|].
        inversion Hex as [? ? H0|? ? H0]; subst; [discriminate H0|].
        inversion H0 as [? ? H1|? ? H1]; subst;
          [discriminate H1 | inversion H1].
      * rewrite (Hc 0), (Hc 1), (Hc 2) by lia. cbn.
        destruct l0; [reflexivity|]. destruct l1; [reflexivity|].
        destruct l2; [reflexivity|].
        inversion Hex as [? ? H0|? ? H0]; subst; [discriminate H0|].
        inversion H0 as [? ? H1|? ? H1]; subst; [discriminate H1|].
        inversion H1 as [? ? H2|? ? H2]; subst;
          [discriminate H2 | inversion H2].
Qed.

Lemma template_with_too_few_lists_witness :
  prompts.chexpert_cls_prompts two_lists_class = Raise IndexError
  /\ raises (prompts.generate_chexpert_class_prompts
               two_lists_template (Some 10) [3; 1])
  /\ raises (prompts.generate_covid_class_prompts
               two_lists_template (Some 10) [3; 1]).
Proof.
  assert (Hwf : Dict.wf two_lists_class) by (apply nodupb_sound; reflexivity).
  assert (Hne : Forall (fun l : list string => l <> [])
                       (components two_lists_class)).
  { repeat constructor; discriminate. }
  destruct (@template_with_too_few_lists two_lists_template (Some 10) [3; 1]
              "Edema"%string two_lists_class (or_introl eq_refl) Hwf)
    as [H3 H4].
  destruct (H3 ltac:(cbn; lia)) as [H3r _].
  destruct (H4 ltac:(cbn; lia)) as [H4r _].
  destruct (H3r Hne) as [Hc Hg]. destruct (H4r Hne) as [_ Hg'].
  auto.
Defined.

(** ** How many prompts a class keeps *)

Lemma sampled_from_length {A : Type} (n : option nat) (xs res : list A) :
  sampled_from n xs res -> length res = kept n (length xs).
Proof.
  unfold sampled_from, kept. destruct n as [m|].
  - destruct (m <? length xs) eqn:E.
    + intros [[Hlen _] _]. apply Nat.ltb_lt in E. lia.
    + intros ->. apply Nat.ltb_ge in E. lia.
  - intros ->. reflexivity.
Qed.

Lemma kept_zero (n : option nat) (count : nat) :
  kept n count = 0 <-> n = Some 0 \/ count = 0.
Proof.
  unfold kept. destruct n as [m|].
  - split.
    + intros H. destruct m; [now left|]. right. lia.
    + intros [H | ->]; [injection H as ->; reflexivity | lia].
  - split; [now right|]. intros [H | H]; [discriminate H | exact H].
Qed.

Lemma nonempty_length {A : Type} (l : list A) : l <> [] <-> length l <> 0.
Proof. destruct l; cbn; split; intros H; congruence. Qed.

Lemma leading_nonempty_3 (v : Dict.t (list string)) :
  leading_nonempty 3 v
  <-> length (phrases v 0) * length (phrases v 1) * length (phrases v 2)
      <> 0.
Proof.
  unfold leading_nonempty. split.
  - intros H.
    pose proof (proj1 (nonempty_length _) (H 0 ltac:(lia))).
    pose proof (proj1 (nonempty_length _) (H 1 ltac:(lia))).
    pose proof (proj1 (nonempty_length _) (H 2 ltac:(lia))).
    nia.
  - intros H i Hi. apply nonempty_length.
    destruct i as [|[|[|i]]]; try lia; nia.
Qed.

Lemma leading_nonempty_4 (v : Dict.t (list string)) :
  leading_nonempty 4 v
  <-> length (phrases v 0) * length (phrases v 1) * length (phrases v 2)
      * length (phrases v 3) <> 0.
Proof.
  unfold leading_nonempty. split.
  - intros H.
    pose proof (proj1 (nonempty_length _) (H 0 ltac:(lia))).
    pose proof (proj1 (nonempty_length _) (H 1 ltac:(lia))).
    pose proof (proj1 (nonempty_length _) (H 2 ltac:(lia))).
    pose proof (proj1 (nonempty_length _) (H 3 ltac:(lia))).
    nia.
  - intros H i Hi. apply nonempty_length.
    destruct i as [|[|[|[|i]]]]; try lia; nia.
Qed.

(** The entry of a class after a run that returned. *)
Lemma template_entry_of_run
      (f : Dict.t (list string) -> result (list string))
      (template : Dict.t (Dict.t (list string))) (n : option nat)
      (g g' : rng) (ps : Dict.t (list string))
      (k : string) (v : Dict.t (list string)) (cands : list string) :
  Dict.wf template ->
  (forall k v, In (k, v) template -> returns (f v)) ->
  for_each template (prompts.template_loop f n) ([], g) = Ok (ps, g') ->
  In (k, v) template -> f v = Ok cands ->
  exists sampled,
    Dict.get ps k = Some sampled /\ sampled_from n cands sampled.
Proof.
  intros Hwf Hf Hrun Hin Hcands.
  destruct (@template_generator_spec f template n g Hwf Hf)
    as [ps0 [g0 [Hps [_ Hget]]]].
  rewrite Hrun in Hps. injection Hps as <- <-.
  apply (Hget k v cands Hin Hcands).
Qed.

(** X3.  After a run of the CheXpert generator on a table whose classes
    list at least three phrase lists, the entry of a class holds
    [min n (|l0| * |l1| * |l2|)] prompts (all of them without [n]); so a
    class has at least one prompt exactly when its first three lists are
    non-empty and [n] is not 0.  The COVID generator: the same with four
    lists. *)
Theorem template_entry_sizes
        (template : Dict.t (Dict.t (list string)))
        (n : option nat) (g g' : rng) (ps : Dict.t (list string))
        (k : string) (v : Dict.t (list string)) :
  In (k, v) template ->
  (template_at_least 3 template ->
   prompts.generate_chexpert_class_prompts template n g = Ok (ps, g') ->
   exists sampled,
     Dict.get ps k = Some sampled
     /\ length sampled
        = kept n (length (phrases v 0) * length (phrases v 1)
                  * length (phrases v 2))
     /\ (sampled <> [] <-> n <> Some 0 /\ leading_nonempty 3 v))
  /\ (template_at_least 4 template ->
      prompts.generate_covid_class_prompts template n g = Ok (ps, g') ->
      exists sampled,
        Dict.get ps k = Some sampled
        /\ length sampled
           = kept n (length (phrases v 0) * length (phrases v 1)
                     * length (phrases v 2) * length (phrases v 3))
        /\ (sampled <> [] <-> n <> Some 0 /\ leading_nonempty 4 v)).
Proof.
  intros Hin. split; intros [Hwf Hshape] Hrun.
  - destruct (Hshape k v Hin) as [Hv Hlen].
    destruct (@template_entry_of_run prompts.chexpert_cls_prompts
                template n g g' ps k v (candidates3 v) Hwf)
      as [sampled [Hget Hfrom]]; try assumption.
    { intros k0 v0 Hin0. destruct (Hshape k0 v0 Hin0) as [Hv0 Hlen0].
      rewrite (chexpert_cls_prompts_leading Hv0 Hlen0).
      eexists. reflexivity. }
    { apply chexpert_cls_prompts_leading; assumption. }
    exists sampled. split; [exact Hget|].
    apply sampled_from_length in Hfrom.
    unfold candidates3 in Hfrom. rewrite length_cross3 in Hfrom.
    split; [exact Hfrom|].
    rewrite nonempty_length, Hfrom, leading_nonempty_3.
    pose proof (kept_zero n (length (phrases v 0) * length (phrases v 1)
                             * length (phrases v 2))) as Hz.
    tauto.
  - destruct (Hshape k v Hin) as [Hv Hlen].
    destruct (@template_entry_of_run prompts.covid_cls_prompts
                template n g g' ps k v (candidates4 v) Hwf)
      as [sampled [Hget Hfrom]]; try assumption.
    { intros k0 v0 Hin0. destruct (Hshape k0 v0 Hin0) as [Hv0 Hlen0].
      rewrite (covid_cls_prompts_leading Hv0 Hlen0).
      eexists. reflexivity. }
    { apply covid_cls_prompts_leading; assumption. }
    exists sampled. split; [exact Hget|].
    apply sampled_from_length in Hfrom.
    unfold candidates4 in Hfrom. rewrite length_cross4 in Hfrom.
    split; [exact Hfrom|].
    rewrite nonempty_length, Hfrom, leading_nonempty_4.
    pose proof (kept_zero n (length (phrases v 0) * length (phrases v 1)
                             * length (phrases v 2) * length (phrases v 3)))
      as Hz.
    tauto.
Qed.

Lemma toy_template3_at_least : template_at_least 3 Toy.template3.
Proof.
  split.
  - apply nodupb_sound. reflexivity.
  - intros c v [H | []]. injection H as <- <-. split.
    + apply nodupb_sound. reflexivity.
    + cbn. lia.
Qed.

Lemma template_entry_sizes_witness :
  (exists ps g' sampled,
     prompts.generate_chexpert_class_prompts Toy.template3 (Some 3) [5; 1; 0]
       = Ok (ps, g')
     /\ Dict.get ps "Edema"%string = Some sampled
     /\ length sampled = 3)
  /\ (exists ps g' sampled,
        prompts.generate_chexpert_class_prompts Toy.template3 (Some 0)
                                                [5; 1; 0]
          = Ok (ps, g')
        /\ Dict.get ps "Edema"%string = Some sampled
        /\ ~ sampled <> []).
Proof.
  split; eexists; eexists; [|].
  - destruct (@template_entry_sizes Toy.template3 (Some 3) [5; 1; 0] []
                [("Edema"%string,
                  [" vascular congestion at the bases";
                   "mild vascular congestion at the bases";
                   " edema at the bases"]%string)]
                "Edema"%string _ (or_introl eq_refl)) as [H3 _].
    destruct (H3 toy_template3_at_least eq_refl) as [sampled [Hget [Hlen _]]].
    exists sampled. split; [reflexivity|]. split; [exact Hget | exact Hlen].
  - destruct (@template_entry_sizes Toy.template3 (Some 0) [5; 1; 0]
                [5; 1; 0] [("Edema"%string, @nil string)]
                "Edema"%string _ (or_introl eq_refl))
      as [H3 _].
    destruct (H3 toy_template3_at_least eq_refl) as [sampled [Hget [_ Hne]]].
    exists sampled. split; [reflexivity|]. split; [exact Hget|].
    intros H. apply Hne in H. destruct H as [H _]. apply H. reflexivity.
Defined.

(** ** Runs that need no sampling *)

Lemma sample_if_smaller_all {A : Type} (n : option nat) (xs : list A)
      (g : rng) :
  no_sampling_needed n [length xs] -> sample_if_smaller n xs g = Ok (xs, g).
Proof.
  unfold no_sampling_needed, sample_if_smaller. destruct n as [m|].
  - intros H. inversion H as [|? ? Hle _]; subst.
    assert (E : (m <? length xs) = false) by (apply Nat.ltb_ge; lia).
    rewrite E. reflexivity.
  - reflexivity.
Qed.

Lemma no_sampling_needed_In (n : option nat) (sizes : list nat) (s : nat) :
  no_sampling_needed n sizes -> In s sizes -> no_sampling_needed n [s].
Proof.
  unfold no_sampling_needed. destruct n as [m|]; [|auto].
  intros H Hin. constructor; [|constructor].
  rewrite Forall_forall in H. apply H, Hin.
Qed.

Lemma dict_loop_pure {A V : Type} (key : A -> string)
      (step : A -> rng -> result (V * rng)) (val : A -> V)
      (items : list A) (g : rng) :
  (forall a, In a items -> step a g = Ok (val a, g)) ->
  forall d0,
    NoDup (Dict.keys d0 ++ map key items) ->
    for_each items (dict_step key step) (d0, g)
    = Ok (d0 ++ map (fun a => (key a, val a)) items, g).
Proof.
  induction items as [|a items IH]; intros Hstep d0 Hnd;
    cbn [for_each map] in *.
  - now rewrite app_nil_r.
  - unfold dict_step at 1. cbn [fst snd].
    rewrite (Hstep a (or_introl eq_refl)). cbn [bind fst snd].
    assert (Hnew : ~ In (key a) (Dict.keys d0)).
    { intros Hin. apply NoDup_remove_2 in Hnd. apply Hnd.
      apply in_or_app. now left. }
    rewrite (@setitem_new _ _ _ (val a) Hnew), IH.
    + rewrite <- app_assoc. reflexivity.
    + intros a' Hin. apply Hstep. now right.
    + unfold Dict.keys in *. rewrite map_app, <- app_assoc. exact Hnd.
Qed.

Lemma template_run_without_sampling
      (f : Dict.t (list string) -> result (list string))
      (cand : Dict.t (list string) -> list string)
      (template : Dict.t (Dict.t (list string))) (n : option nat) (g : rng) :
  Dict.wf template ->
  (forall k v, In (k, v) template -> f v = Ok (cand v)) ->
  no_sampling_needed n (map (fun kv => length (cand (snd kv))) template) ->
  for_each template (prompts.template_loop f n) ([], g)
  = Ok (all_candidates cand template, g).
Proof.
  intros Hwf Hf Hn.
  rewrite (for_each_ext _ _ _ (template_loop_is_dict_step f n)).
  apply (dict_loop_pure fst (template_step f n) (fun kv => cand (snd kv))).
  - intros [k v] Hin. unfold template_step. cbn [snd].
    rewrite (Hf k v Hin). cbn [bind]. apply sample_if_smaller_all.
    apply (no_sampling_needed_In _ _ _ Hn).
    apply in_map_iff. exists (k, v). auto.
  - exact Hwf.
Qed.

(** X4.  When no sample size is given, or no class has more candidates than
    the sample size, the template generators draw nothing: whatever the
    state of the random generator, they return the full candidate lists,
    class by class in table order, and leave that state as it was. *)
Theorem template_generators_without_sampling
        (template : Dict.t (Dict.t (list string))) (n : option nat) :
  (template_at_least 3 template ->
   no_sampling_needed n
     (map (fun kv => length (candidates3 (snd kv))) template) ->
   forall g,
     prompts.generate_chexpert_class_prompts template n g
     = Ok (all_candidates candidates3 template, g))
  /\ (template_at_least 4 template ->
      no_sampling_needed n
        (map (fun kv => length (candidates4 (snd kv))) template) ->
      forall g,
        prompts.generate_covid_class_prompts template n g
        = Ok (all_candidates candidates4 template, g)).
Proof.
  split; intros [Hwf Hshape] Hn g.
  - apply template_run_without_sampling; try assumption.
    intros k v Hin. destruct (Hshape k v Hin) as [Hv Hlen].
    apply chexpert_cls_prompts_leading; assumption.
  - apply template_run_without_sampling; try assumption.
    intros k v Hin. destruct (Hshape k v Hin) as [Hv Hlen].
    apply covid_cls_prompts_leading; assumption.
Qed.

Lemma template_generators_without_sampling_witness :
  (forall g,
     prompts.generate_chexpert_class_prompts Toy.template3 (Some 10) g
     = Ok ([("Edema"%string,
             [" edema at the bases"; " vascular congestion at the bases";
              "mild edema at the bases";
              "mild vascular congestion at the bases"]%string)], g))
  /\ (forall g,
        prompts.generate_covid_class_prompts Toy.template4 None g
        = Ok (all_candidates candidates4 Toy.template4, g)).
Proof.
  split.
  - destruct (template_generators_without_sampling Toy.template3 (Some 10))
      as [H3 _].
    apply (H3 toy_template3_at_least).
    cbn. repeat constructor.
  - destruct (template_generators_without_sampling Toy.template4 None)
      as [_ H4].
    apply (H4 (@toy_template4_at_least 4 ltac:(lia))). exact I.
Defined.

(** ** More on the sentence-sampling generator *)

Lemma qualifies_exclusive (df : DataFrame) (t t' : string) (r : sentence) :
  qualifies df t r -> qualifies df t' r -> t = t'.
Proof.
  intros [_ [H1 Hothers]] [_ [H1' _]].
  destruct (string_dec t' t) as [E | Hne]; [now symmetry|].
  assert (Hin : In t' (tasks df)).
  { unfold label_at in H1'.
    destruct (index_of t' (tasks df)) as [c|] eqn:Hc; [|discriminate H1'].
    eapply nth_error_In, index_of_Some, Hc. }
  destruct (Hothers t' Hin Hne) as [H | H]; congruence.
Qed.

Lemma task_rows_known (df : DataFrame) (t : string) :
  wf_frame df -> In t ("Reports"%string :: tasks df) ->
  task_rows df t = Ok (filter (qualifiesb df t) (sentences df)).
Proof.
  intros Hwf Hin.
  assert (Hret : returns (task_rows df t)).
  { destruct Hin as [<- | Hin]; [|apply task_rows_returns, Hin].
    unfold task_rows, column_eq_1. rewrite String.eqb_refl.
    eexists. reflexivity. }
  destruct Hret as [rows Hrows].
  rewrite Hrows. f_equal. apply (task_rows_spec _ Hwf Hrows).
Qed.

Lemma task_rows_column (df : DataFrame) (t : string) (rows : list sentence) :
  task_rows df t = Ok rows -> In t ("Reports"%string :: tasks df).
Proof.
  intros H.
  destruct (in_dec string_dec t ("Reports"%string :: tasks df)) as [Hin|Hn];
    [exact Hin|].
  rewrite (task_rows_unknown _ Hn) in H. discriminate H.
Qed.

(** Where the entry of a task comes from, after a run that returned. *)
Lemma generate_class_prompts_provenance
      (df : DataFrame) (task : task_arg) (n : option nat) (g g' : rng)
      (ps : Dict.t (list string)) (t : string) (sampled : list string) :
  wf_frame df ->
  prompts.generate_class_prompts df task n g = Ok (ps, g') ->
  Dict.get ps t = Some sampled ->
  exists rows,
    sampled = map Reports rows
    /\ sampled_from n (filter (qualifiesb df t) (sentences df)) rows.
Proof.
  intros Hwf Hgen Hget.
  rewrite generate_class_prompts_unfold in Hgen.
  eapply dict_loop_get in Hgen; [|exact Hget].
  destruct Hgen as [Hnil | [t' [g1 [g2 [_ [Ht Hstep]]]]]];
    [discriminate Hnil|]. subst t'.
  apply (task_step_spec _ _ _ Hwf Hstep).
Qed.

(** X5.  The rows behind the prompts of a task are exclusive to it: every
    prompt stored for a task is the text of a row that qualifies for that
    task and for no other task name, so no row of the table can supply
    prompts to two classes. *)
Theorem sentence_prompts_come_from_exclusive_rows
        (df : DataFrame) (task : task_arg) (n : option nat) (g g' : rng)
        (ps : Dict.t (list string)) (t : string) (sampled : list string)
        (p : string) :
  wf_frame df ->
  prompts.generate_class_prompts df task n g = Ok (ps, g') ->
  Dict.get ps t = Some sampled ->
  In p sampled ->
  exists r,
    In r (sentences df) /\ Reports r = p
    /\ qualifiesb df t r = true
    /\ forall t', t' <> t -> qualifiesb df t' r = false.
Proof.
  intros Hwf Hgen Hget Hp.
  destruct (generate_class_prompts_provenance _ _ _ _ Hwf Hgen Hget)
    as [rows [-> Hfrom]].
  apply in_map_iff in Hp. destruct Hp as [r [Hr Hin]].
  apply (sampled_from_incl _ _ _ Hfrom) in Hin.
  apply filter_In in Hin. destruct Hin as [Hin Hq].
  exists r. split; [exact Hin|]. split; [exact Hr|]. split; [exact Hq|].
  intros t' Hne. destruct (qualifiesb df t' r) eqn:Hq'; [|reflexivity].
  exfalso. apply Hne.
  apply (@qualifies_exclusive df t' t r); apply qualifiesb_iff; assumption.
Qed.

Lemma sentence_prompts_come_from_exclusive_rows_witness :
  exists r,
    In r (sentences Toy.frame)
    /\ Reports r = "right lower lobe pneumonia"%string
    /\ qualifiesb Toy.frame "Pneumonia"%string r = true
    /\ forall t', t' <> "Pneumonia"%string ->
                  qualifiesb Toy.frame t' r = false.
Proof.
  apply (@sentence_prompts_come_from_exclusive_rows
           Toy.frame TaskNone None [3; 1] [3; 1]
           [("Edema"%string, ["mild pulmonary edema"; "edema"]%string);
            ("Pneumonia"%string, ["right lower lobe pneumonia"%string])]
           "Pneumonia"%string ["right lower lobe pneumonia"%string]
           "right lower lobe pneumonia"%string toy_frame_wf).
  - reflexivity.
  - reflexivity.
  - left. reflexivity.
Defined.

(** X6.  When no sample size is given, or no requested task has more
    qualifying rows than the sample size, generate_class_prompts draws
    nothing: for pairwise distinct requested names that are columns of the
    table it returns, task by task in the order requested, the texts of all
    qualifying rows in table order, and leaves the random state as it
    was. *)
Theorem sentence_prompts_without_sampling
        (df : DataFrame) (task : task_arg) (n : option nat) :
  wf_frame df ->
  NoDup (prompts.target_tasks (tasks df) task) ->
  incl (prompts.target_tasks (tasks df) task)
       ("Reports"%string :: tasks df) ->
  no_sampling_needed n
    (map (fun t => length (filter (qualifiesb df t) (sentences df)))
         (prompts.target_tasks (tasks df) task)) ->
  forall g,
    prompts.generate_class_prompts df task n g
    = Ok (all_qualifying df (prompts.target_tasks (tasks df) task), g).
Proof.
  intros Hwf Hnd Hincl Hn g. rewrite generate_class_prompts_unfold.
  apply (dict_loop_pure (fun t => t) (task_step df n)
           (fun t => map Reports (filter (qualifiesb df t) (sentences df)))).
  - intros t Hin. unfold task_step.
    rewrite (@task_rows_known df t Hwf (Hincl t Hin)). cbn [bind].
    rewrite sample_if_smaller_all; [reflexivity|].
    apply (no_sampling_needed_In _ _ _ Hn).
    apply in_map_iff. exists t. auto.
  - cbn [Dict.keys map app]. rewrite map_id. exact Hnd.
Qed.

Lemma sentence_prompts_without_sampling_witness :
  prompts.generate_class_prompts Toy.frame TaskNone (Some 2) [7; 3]
  = Ok ([("Edema"%string, ["mild pulmonary edema"; "edema"]%string);
         ("Pneumonia"%string, ["right lower lobe pneumonia"%string])],
        [7; 3]).
Proof.
  apply (@sentence_prompts_without_sampling Toy.frame TaskNone (Some 2)
           toy_frame_wf).
  - apply nodupb_sound. reflexivity.
  - intros t Hin. right. exact Hin.
  - cbn. repeat constructor.
Defined.

(** *** The keys of the result *)

Lemma keys_setitem_In {V : Type} (d : Dict.t V) (k k0 : string) (v : V) :
  In k0 (Dict.keys (Dict.setitem d k v)) <-> k0 = k \/ In k0 (Dict.keys d).
Proof.
  induction d as [|[k' v'] d IH]; cbn.
  - intuition congruence.
  - destruct (String.eqb k' k) eqn:E; cbn.
    + apply String.eqb_eq in E. subst k'. intuition congruence.
    + rewrite IH. tauto.
Qed.

Lemma setitem_wf {V : Type} (d : Dict.t V) (k : string) (v : V) :
  Dict.wf d -> Dict.wf (Dict.setitem d k v).
Proof.
  unfold Dict.wf. induction d as [|[k' v'] d IH]; cbn; intros Hwf.
  - constructor; [intros [] | constructor].
  - inversion Hwf as [|? ? Hnotin Hwf']; subst.
    destruct (String.eqb k' k) eqn:E; cbn.
    + constructor; assumption.
    + constructor; [|apply IH, Hwf'].
      intros Hin. apply keys_setitem_In in Hin.
      destruct Hin as [-> | Hin]; [|contradiction].
      rewrite String.eqb_refl in E. discriminate E.
Qed.

Lemma dict_loop_keys_iff {A V : Type} (key : A -> string)
      (step : A -> rng -> result (V * rng)) (items : list A) :
  forall d0 g0 d g,
    for_each items (dict_step key step) (d0, g0) = Ok (d, g) ->
    (Dict.wf d0 -> Dict.wf d)
    /\ (forall k, In k (Dict.keys d)
                  <-> In k (Dict.keys d0) \/ In k (map key items))
    /\ (forall a, In a items -> exists g1, returns (step a g1)).
Proof.
  induction items as [|a items IH]; intros d0 g0 d g H; cbn [for_each] in H.
  - injection H as <- <-. split; [auto|]. split.
    + intros k. cbn. tauto.
    + intros a [].
  - apply bind_Ok_inv in H. destruct H as [[d1 g1] [Hstep H]].
    unfold dict_step in Hstep. cbn [fst snd] in Hstep.
    apply bind_Ok_inv in Hstep. destruct Hstep as [[v1 g1'] [Hs Hd]].
    injection Hd as <- <-. cbn [fst snd] in H.
    destruct (IH _ _ _ _ H) as [Hwf [Hkeys Hret]]. split; [|split].
    + intros Hwf0. apply Hwf, setitem_wf, Hwf0.
    + intros k. rewrite Hkeys, keys_setitem_In. cbn [map In].
      split; intros Hk; intuition auto.
    + intros a' [<- | Hin].
      * exists g0. eexists. exact Hs.
      * apply Hret, Hin.
Qed.

(** X7.  Whenever generate_class_prompts returns, the result is a proper
    dictionary (no key twice) whose keys are exactly the requested task
    names, a name requested several times appearing once, and every key is
    a column of the table; with no task argument on a table of pairwise
    distinct columns the keys are the task columns in column order. *)
Theorem sentence_prompts_keys
        (df : DataFrame) (task : task_arg) (n : option nat) (g g' : rng)
        (ps : Dict.t (list string)) :
  prompts.generate_class_prompts df task n g = Ok (ps, g') ->
  Dict.wf ps
  /\ (forall t, In t (Dict.keys ps)
                <-> In t (prompts.target_tasks (tasks df) task))
  /\ (forall t, In t (Dict.keys ps) ->
                In t ("Reports"%string :: tasks df))
  /\ (wf_frame df -> task = TaskNone -> Dict.keys ps = tasks df).
Proof.
  intros Hgen. pose proof Hgen as Hrun.
  rewrite generate_class_prompts_unfold in Hrun.
  destruct (dict_loop_keys_iff _ _ _ _ _ Hrun) as [Hwf [Hkeys Hret]].
  assert (Hiff : forall t, In t (Dict.keys ps)
                           <-> In t (prompts.target_tasks (tasks df) task)).
  { intros t. rewrite Hkeys, map_id. cbn. tauto. }
  split; [apply Hwf; constructor|]. split; [exact Hiff|]. split.
  - intros t Hin. apply Hiff in Hin.
    destruct (Hret t Hin) as [g1 [r Hr]]. unfold task_step in Hr.
    apply bind_Ok_inv in Hr. destruct Hr as [rows [Hrows _]].
    apply (task_rows_column _ _ Hrows).
  - intros Hframe ->. cbn [prompts.target_tasks] in Hrun.
    apply dict_loop_keys in Hrun.
    + rewrite Hrun, map_id. reflexivity.
    + cbn [Dict.keys map app]. rewrite map_id.
      inversion Hframe. assumption.
Qed.

Lemma sentence_prompts_keys_witness :
  exists ps g',
    prompts.generate_class_prompts Toy.frame
      (TaskList ["Pneumonia"; "Edema"; "Pneumonia"]%string) (Some 1) [3; 1]
      = Ok (ps, g')
    /\ Dict.wf ps
    /\ forall t, In t (Dict.keys ps)
                 <-> In t ["Pneumonia"; "Edema"; "Pneumonia"]%string.
Proof.
  eexists. eexists. split; [reflexivity|].
  destruct (@sentence_prompts_keys Toy.frame
              (TaskList ["Pneumonia"; "Edema"; "Pneumonia"]%string)
              (Some 1) [3; 1] _ _ eq_refl) as [Hwf [Hiff _]].
  split; [exact Hwf | exact Hiff].
Defined.

(** ** The loss *)

Lemma ssum_Fin_map {A : Type} (f : A -> R) (l : list A) :
  ssum (map (fun a => Fin (f a)) l) = Fin (Rsum (map f l)).
Proof.
  unfold ssum. induction l as [|a l IH]; cbn [map fold_right].
  - reflexivity.
  - rewrite IH. reflexivity.
Qed.

Lemma combine_diag {A : Type} (l : list A) :
  combine l l = map (fun x => (x, x)) l.
Proof. induction l as [|x l IH]; cbn; [reflexivity | now rewrite IH]. Qed.

Lemma Rsum_nonneg {A : Type} (f : A -> R) (l : list A) :
  (forall a, In a l -> (0 <= f a)%R) -> (0 <= Rsum (map f l))%R.
Proof.
  induction l as [|a l IH]; cbn [map Rsum fold_right]; intros H.
  - lra.
  - fold (Rsum (map f l)).
    pose proof (H a (or_introl eq_refl)).
    assert (0 <= Rsum (map f l))%R by (apply IH; intros; apply H; now right).
    lra.
Qed.

Lemma Rsum_exp_ge (x : nat -> R) (l : list nat) (k : nat) :
  In k l -> (exp (x k) <= Rsum (map (fun k => exp (x k)) l))%R.
Proof.
  induction l as [|a l IH]; cbn [map Rsum fold_right In]; intros Hin.
  - contradiction.
  - fold (Rsum (map (fun k => exp (x k)) l)).
    assert (Hl : (0 <= Rsum (map (fun k => exp (x k)) l))%R).
    { apply Rsum_nonneg. intros b _. left. apply exp_pos. }
    pose proof (exp_pos (x a)).
    destruct Hin as [-> | Hin]; [lra|]. specialize (IH Hin). lra.
Qed.

(** One term of the cross entropy on finite logits: the log of the sum of
    exponentials of the row minus the logit of the target. *)
Lemma nll_term (t : tensor2) (i c : nat) :
  all_finite t -> i < rows t -> c < cols t ->
  exists z,
    sneg (log_softmax t i c) = Fin z /\ (0 <= z)%R.
Proof.
  intros Hfin Hi Hc. unfold log_softmax, row.
  set (x := fun k => to_R (at2 t i k)).
  assert (Hrow : map sexp (map (at2 t i) (seq 0 (cols t)))
                 = map (fun k => Fin (exp (x k))) (seq 0 (cols t))).
  { rewrite map_map. apply map_ext_in. intros k Hk. apply in_seq in Hk.
    destruct (Hfin i k Hi) as [y Hy]; [lia|].
    unfold x. rewrite Hy. reflexivity. }
  rewrite Hrow, (ssum_Fin_map (fun k => exp (x k))).
  set (S := Rsum (map (fun k => exp (x k)) (seq 0 (cols t)))).
  assert (HS : (exp (x c) <= S)%R).
  { apply Rsum_exp_ge. apply in_seq. lia. }
  pose proof (exp_pos (x c)) as Hpos.
  destruct (Hfin i c Hi Hc) as [y Hy].
  assert (Hxy : x c = y) by (unfold x; rewrite Hy; reflexivity).
  rewrite Hy. unfold slog. destruct (Rle_dec S 0) as [Hle|_]; [lra|].
  cbn. eexists. split; [reflexivity|].
  assert (Hln : (ln (exp (x c)) <= ln S)%R).
  { destruct HS as [Hlt | Heq].
    - left. apply ln_increasing; assumption.
    - rewrite Heq. lra. }
  rewrite ln_exp, Hxy in Hln. lra.
Qed.

Lemma CrossEntropyLoss_nonneg (t : tensor2) :
  all_finite t -> 0 < rows t -> rows t <= cols t ->
  exists l, CrossEntropyLoss t (arange (rows t)) = Ok (Fin l) /\ (0 <= l)%R.
Proof.
  intros Hfin Hpos Hle. rewrite CrossEntropyLoss_arange.
  assert (E : (cols t <? rows t) = false) by (apply Nat.ltb_ge; lia).
  rewrite E. unfold arange. rewrite combine_diag, map_map. cbn [fst snd].
  set (z := fun i => to_R (sneg (log_softmax t i i))).
  rewrite (map_ext_in _ (fun i => Fin (z i))).
  - rewrite (ssum_Fin_map z). unfold sdiv.
    destruct (Req_dec_T (INR (rows t)) 0) as [H0|_].
    + change 0%R with (INR 0) in H0. apply INR_eq in H0. lia.
    + eexists. split; [reflexivity|].
      assert (Hsum : (0 <= Rsum (map z (seq 0 (rows t))))%R).
      { apply Rsum_nonneg. intros i Hi. apply in_seq in Hi. unfold z.
        destruct (@nll_term t i i Hfin) as [y [-> Hy]]; try lia.
        exact Hy. }
      assert (Hn : (0 < INR (rows t))%R) by (apply lt_0_INR; lia).
      apply Rmult_le_pos; [exact Hsum|]. left. apply Rinv_0_lt_compat, Hn.
  - intros i Hi. apply in_seq in Hi. unfold z.
    destruct (@nll_term t i i Hfin) as [y [-> _]]; try lia. reflexivity.
Qed.

(** X10.  On a square matrix of finite logits with at least one row the
    loss is a number and is never negative. *)
Theorem loss_is_never_negative (lg : tensor2) :
  all_finite lg -> 0 < rows lg -> rows lg = cols lg ->
  exists l, ConVIRT.compute_loss lg = Ok (Fin l) /\ (0 <= l)%R.
Proof.
  intros Hfin Hpos Hsq. unfold ConVIRT.compute_loss.
  destruct (CrossEntropyLoss_nonneg Hfin Hpos) as [a [-> Ha]]; [lia|].
  cbn [bind].
  destruct (@CrossEntropyLoss_nonneg (transpose lg)) as [b [Hb Hb0]].
  - intros i j Hi Hj. cbn [transpose rows cols at2] in *.
    apply Hfin; assumption.
  - cbn [transpose rows]. lia.
  - cbn [transpose rows cols]. lia.
  - rewrite Hb. cbn [bind]. unfold ConVIRT.lamb. cbn.
    eexists. split; [reflexivity|]. lra.
Qed.

Lemma loss_is_never_negative_witness :
  exists l,
    ConVIRT.compute_loss (of_rows 2 [[Fin 3; Fin 1]; [Fin 0; Fin 2]])
    = Ok (Fin l) /\ (0 <= l)%R.
Proof.
  apply loss_is_never_negative.
  - intros i j Hi Hj. cbn in Hi, Hj.
    destruct i as [|[|i]]; destruct j as [|[|j]]; try lia;
      eexists; reflexivity.
  - cbn. lia.
  - reflexivity.
Defined.

Lemma compute_loss_empty (lg : tensor2) :
  rows lg = 0 -> cols lg = 0 -> ConVIRT.compute_loss lg = Ok NaN.
Proof.
  intros Hr Hc. unfold ConVIRT.compute_loss.
  rewrite !CrossEntropyLoss_arange. cbn [transpose rows cols].
  rewrite Hr, Hc. cbn.
  destruct (Req_dec_T 0 0) as [_|H]; [reflexivity | contradiction].
Qed.

(** X11.  An empty batch is not an error for the loss: with no image and no
    prompt and loss computation enabled, the forward pass returns, and its
    loss is NaN. *)
Theorem empty_batch_loss_is_nan
        (Image : Type) (image_model : list Image -> tensor2)
        (text_model : list (list nat) -> list (list nat) -> tensor2)
        (text_projection_head : tensor2 -> tensor2)
        (enc : BatchEncoding) :
  ConVIRT.encoders_shaped image_model text_model text_projection_head ->
  num_prompts enc = 0 ->
  exists out,
    ConVIRT.forward image_model text_model text_projection_head enc [] true
      = Ok out
    /\ loss_value out = Some NaN.
Proof.
  intros Hshaped Hzero.
  destruct (forward_true_unfold Hshaped enc []) as [lg [Hr [Hc Hf]]].
  rewrite Hf, (compute_loss_empty lg Hr) by congruence.
  cbn [bind]. eexists. split; reflexivity.
Qed.

Lemma empty_batch_loss_is_nan_witness :
  exists out,
    Toy.forward Toy.no_prompts [] true = Ok out
    /\ loss_value out = Some NaN.
Proof.
  apply (@empty_batch_loss_is_nan _ _ _ _ Toy.no_prompts toy_encoders_shaped).
  reflexivity.
Defined.

(** X12.  The shapes of a forward pass: both embeddings are 512 wide, with
    one row per image and per prompt; [logits] has one row per image and
    one column per prompt, and [logits_per_text] the reverse. *)
Theorem forward_output_shapes
        (Image : Type) (image_model : list Image -> tensor2)
        (text_model : list (list nat) -> list (list nat) -> tensor2)
        (text_projection_head : tensor2 -> tensor2)
        (enc : BatchEncoding) (pv : list Image) (rl : bool) (out : Outputs) :
  ConVIRT.encoders_shaped image_model text_model text_projection_head ->
  ConVIRT.forward image_model text_model text_projection_head enc pv rl
    = Ok out ->
  (rows (img_embeds out) = length pv /\ cols (img_embeds out) = 512)
  /\ (rows (text_embeds out) = num_prompts enc
      /\ cols (text_embeds out) = 512)
  /\ (rows (logits out) = length pv /\ cols (logits out) = num_prompts enc)
  /\ (rows (logits_per_text out) = num_prompts enc
      /\ cols (logits_per_text out) = length pv).
Proof.
  intros Hshaped Hout.
  destruct (forward_inv _ _ _ _ _ _ Hout)
    as [Ei [Et [[prod [Hprod Hlg]] [Htr _]]]].
  destruct Hshaped as [Himg [Htxt Hproj]].
  destruct (Himg pv) as [Hr Hc].
  destruct (Hproj (text_model (input_ids enc) (attention_mask enc)))
    as [Hpr Hpc].
  assert (Hi : rows (img_embeds out) = length pv
               /\ cols (img_embeds out) = 512).
  { rewrite Ei. cbn [tdiv rows cols]. auto. }
  assert (Ht : rows (text_embeds out) = num_prompts enc
               /\ cols (text_embeds out) = 512).
  { rewrite Et. cbn [tdiv rows cols]. rewrite Hpr, Htxt. auto. }
  assert (Hl : rows (logits out) = length pv
               /\ cols (logits out) = num_prompts enc).
  { unfold matmul in Hprod.
    destruct (cols (img_embeds out) =? rows (transpose (text_embeds out)));
      [|discriminate Hprod].
    injection Hprod as <-. rewrite Hlg. cbn [tdiv_scalar rows cols transpose].
    tauto. }
  split; [exact Hi|]. split; [exact Ht|]. split; [exact Hl|].
  rewrite Htr. cbn [transpose rows cols]. tauto.
Qed.

Lemma forward_output_shapes_witness :
  exists out,
    Toy.forward Toy.two_prompts [2%R; 3%R; 5%R] false = Ok out
    /\ rows (logits out) = 3 /\ cols (logits out) = 2
    /\ rows (logits_per_text out) = 2 /\ cols (logits_per_text out) = 3.
Proof.
  destruct (forward_false_returns toy_encoders_shaped Toy.two_prompts
              [2%R; 3%R; 5%R]) as [out [Hout _]].
  exists out. split; [exact Hout|].
  destruct (@forward_output_shapes _ _ _ _ _ _ _ _ toy_encoders_shaped Hout)
    as [_ [_ [[H1 H2] [H3 H4]]]].
  auto.
Defined.

(** ** More on the classifier head *)

Lemma class_similarity_ok_inv (ensemble : bool) (lg : tensor2) (c : tensor1) :
  ConVIRTClassifier.class_similarity ensemble lg = Ok c ->
  ensemble = true \/ 0 < cols lg.
Proof.
  unfold ConVIRTClassifier.class_similarity, torch_max.
  destruct ensemble; [now left|].
  destruct (cols lg =? 0) eqn:E; [discriminate|].
  intros _. right. apply Nat.eqb_neq in E. lia.
Qed.

(** The columns behind an output of the classifier head. *)
Lemma forward_columns
      (Image : Type)
      (model : BatchEncoding -> list Image -> bool -> result Outputs)
      (ensemble : bool) (pv : list Image)
      (prompt_inputs : list (string * BatchEncoding))
      (out : ClassifierOutputs) :
  ConVIRTClassifier.forward model ensemble pv prompt_inputs = Ok out ->
  prompt_inputs <> []
  /\ forall name text,
       In (name, text) prompt_inputs ->
       exists mo c,
         model text pv false = Ok mo
         /\ ConVIRTClassifier.class_similarity ensemble (logits mo) = Ok c
         /\ rows (logits mo) = rows (clf_logits out).
Proof.
  unfold ConVIRTClassifier.forward. intros H.
  apply bind_Ok_inv in H. destruct H as [[sims names] [Hloop H]].
  apply bind_Ok_inv in H. destruct H as [m [Hm H]].
  injection H as <-. cbn [clf_logits fst snd] in *.
  apply forward_loop_sound in Hloop.
  destruct Hloop as [_ [cs [-> Hcs]]]. cbn [app] in *.
  destruct (torch_stack_spec _ Hm) as [_ Hcol]. split.
  - intros ->. inversion Hcs. subst. discriminate Hm.
  - intros name text Hin. apply In_nth_error in Hin. destruct Hin as [j Hj].
    destruct (Forall2_lookup Hcs _ Hj) as [c [Hc [mo [Hmo Hsim]]]].
    cbn [snd] in Hmo. exists mo, c. split; [exact Hmo|].
    split; [exact Hsim|].
    destruct (Hcol j c Hc) as [Hsz _].
    destruct (class_similarity_spec _ _ Hsim) as [Hsize _]. congruence.
Qed.

Lemma columns_exist_of_size
      (Image : Type)
      (model : BatchEncoding -> list Image -> bool -> result Outputs)
      (ensemble : bool) (pv : list Image) (n : nat)
      (items : list (string * BatchEncoding)) :
  (forall name text, In (name, text) items ->
     exists mo, model text pv false = Ok mo
                /\ rows (logits mo) = n
                /\ (ensemble = true \/ 0 < cols (logits mo))) ->
  exists cs, Forall2 (column_of model ensemble pv) items cs
             /\ Forall (fun c => size1 c = n) cs.
Proof.
  induction items as [|[name text] rest IH]; intros H.
  - exists []. split; constructor.
  - destruct (H name text (or_introl eq_refl)) as [mo [Hmo [Hr Hok]]].
    destruct (class_similarity_returns (logits mo) Hok) as [c Hc].
    destruct IH as [cs [Hcs Hsz]].
    { intros n0 t Hin. apply (H n0 t). now right. }
    exists (c :: cs). split.
    + constructor; [|exact Hcs]. exists mo. auto.
    + constructor; [|exact Hsz].
      destruct (class_similarity_spec _ _ Hc) as [-> _]. exact Hr.
Qed.

(** X13.  The classifier head returns exactly when the prompt set is not
    empty, the model returns on every class, all the logit matrices have
    the same number of rows, and, under the maximum reduction, every class
    has at least one prompt column.  In every other case it raises. *)
Theorem classifier_head_returns_iff
        (Image : Type)
        (model : BatchEncoding -> list Image -> bool -> result Outputs)
        (ensemble : bool) (pv : list Image)
        (prompt_inputs : list (string * BatchEncoding)) :
  (returns (ConVIRTClassifier.forward model ensemble pv prompt_inputs)
   <-> prompt_inputs <> []
       /\ exists n,
            forall name text,
              In (name, text) prompt_inputs ->
              exists mo,
                model text pv false = Ok mo
                /\ rows (logits mo) = n
                /\ (ensemble = true \/ 0 < cols (logits mo)))
  /\ (~ returns (ConVIRTClassifier.forward model ensemble pv prompt_inputs)
      <-> raises (ConVIRTClassifier.forward model ensemble pv
                                            prompt_inputs)).
Proof.
  split.
  - split.
    + intros [out Hout]. destruct (forward_columns _ _ _ _ Hout) as [Hne Hcols].
      split; [exact Hne|]. exists (rows (clf_logits out)).
      intros name text Hin.
      destruct (Hcols name text Hin) as [mo [c [Hmo [Hsim Hr]]]].
      exists mo. split; [exact Hmo|]. split; [exact Hr|].
      eapply class_similarity_ok_inv, Hsim.
    + intros [Hne [n H]].
      destruct (@columns_exist_of_size _ model ensemble pv n prompt_inputs H)
        as [cs [Hcs Hsz]].
      unfold ConVIRTClassifier.forward.
      rewrite (forward_loop_complete Hcs [] []). cbn [bind fst snd app].
      destruct (@torch_stack_returns cs n) as [m Hm].
      * intros ->. inversion Hcs. subst. contradiction.
      * exact Hsz.
      * rewrite Hm. cbn [bind]. eexists. reflexivity.
  - destruct (ConVIRTClassifier.forward model ensemble pv prompt_inputs)
      as [out|e].
    + split.
      * intros H. exfalso. apply H. exists out. reflexivity.
      * intros [e He]. discriminate He.
    + split.
      * intros _. exists e. reflexivity.
      * intros _ [out Hout]. discriminate Hout.
Qed.

(** X14.  The first class that fails decides the exception: when the
    classes before it all give a column and the model, or the reduction of
    its logits, raises on it, the classifier head raises that same
    exception, whatever follows. *)
Theorem classifier_head_raises_first_failure
        (Image : Type)
        (model : BatchEncoding -> list Image -> bool -> result Outputs)
        (ensemble : bool) (pv : list Image)
        (before after : list (string * BatchEncoding))
        (columns : list tensor1)
        (name : string) (text : BatchEncoding) (e : exn) :
  Forall2 (column_of model ensemble pv) before columns ->
  (model text pv false = Raise e
   \/ exists mo,
        model text pv false = Ok mo
        /\ ConVIRTClassifier.class_similarity ensemble (logits mo)
           = Raise e) ->
  ConVIRTClassifier.forward model ensemble pv
    (before ++ (name, text) :: after)
  = Raise e.
Proof.
  intros Hbefore Hfail. unfold ConVIRTClassifier.forward.
  assert (Hloop : forall sims names,
             ConVIRTClassifier.forward_loop model ensemble pv
               (before ++ (name, text) :: after) sims names = Raise e).
  { induction Hbefore as [|[n0 t0] c rest cs [mo [Hmo Hc]] _ IH];
      intros sims names; cbn [app ConVIRTClassifier.forward_loop].
    - destruct Hfail as [H | [mo [H1 H2]]].
      + rewrite H. reflexivity.
      + rewrite H1. cbn [bind]. rewrite H2. reflexivity.
    - cbn [snd] in Hmo. rewrite Hmo. cbn [bind]. rewrite Hc. cbn [bind].
      apply IH. }
  rewrite Hloop. reflexivity.
Qed.

Lemma classifier_head_raises_first_failure_witness :
  ConVIRTClassifier.forward Toy.forward false [2%R; 3%R]
    ([("Edema"%string, Toy.one_prompt)]
       ++ ("Pneumonia"%string, Toy.no_prompts)
       :: [("Effusion"%string, Toy.two_prompts)])
  = Raise IndexError.
Proof.
  destruct (forward_false_returns toy_encoders_shaped Toy.one_prompt
              [2%R; 3%R]) as [mo [Hmo [_ [_ Hc]]]].
  destruct (forward_false_returns toy_encoders_shaped Toy.no_prompts
              [2%R; 3%R]) as [mo' [Hmo' [_ [_ Hc']]]].
  assert (Hsim : exists c,
             ConVIRTClassifier.class_similarity false (logits mo) = Ok c).
  { apply class_similarity_returns. right. rewrite Hc. cbn. lia. }
  destruct Hsim as [c Hsim].
  apply (@classifier_head_raises_first_failure _ Toy.forward false
           [2%R; 3%R] [("Edema"%string, Toy.one_prompt)]
           [("Effusion"%string, Toy.two_prompts)] [c]).
  - constructor; [|constructor]. exists mo. auto.
  - right. exists mo'. split; [exact Hmo'|].
    unfold ConVIRTClassifier.class_similarity, torch_max.
    rewrite Hc'. reflexivity.
Defined.

Lemma classifier_head_returns_iff_witness :
  returns (ConVIRTClassifier.forward Toy.const_model false [2%R; 3%R]
                                     Toy.tokenized)
  /\ raises (ConVIRTClassifier.forward Toy.const_model false [2%R; 3%R] []).
Proof.
  destruct (classifier_head_returns_iff Toy.const_model false [2%R; 3%R]
              Toy.tokenized) as [[_ Hret] _].
  destruct (classifier_head_returns_iff Toy.const_model false [2%R; 3%R]
              []) as [[Hnil _] [Hraise _]].
  split.
  - apply Hret. split; [discriminate|]. exists 2.
    intros name text _. eexists. split; [reflexivity|].
    cbn. split; [|right]; lia.
  - apply Hraise. intros H. apply Hnil in H. destruct H as [H _].
    apply H. reflexivity.
Defined.

(** *** One prompt per class *)

Lemma arithmetic_mean_singleton (a : scalar) : arithmetic_mean [a] = a.
Proof.
  unfold arithmetic_mean, sdiv. cbn. destruct a as [x|]; [|reflexivity].
  cbn. destruct (Req_dec_T 1 0) as [H|_]; [lra|]. f_equal. field.
Qed.

Lemma row_singleton (t : tensor2) (i : nat) :
  cols t = 1 -> row t i = [at2 t i 0].
Proof. intros H. unfold row. rewrite H. reflexivity. Qed.

(** X16.  When every class has exactly one prompt the reduction flag makes
    no difference: the two settings of [ensemble] give the same class names
    and the same score for every image and class, the logit of the single
    prompt. *)
Theorem one_prompt_per_class_ignores_ensemble
        (Image : Type)
        (model : BatchEncoding -> list Image -> bool -> result Outputs)
        (pv : list Image) (prompt_inputs : list (string * BatchEncoding))
        (out_mean out_max : ClassifierOutputs) :
  ConVIRTClassifier.forward model true pv prompt_inputs = Ok out_mean ->
  ConVIRTClassifier.forward model false pv prompt_inputs = Ok out_max ->
  (forall name text mo,
     In (name, text) prompt_inputs ->
     model text pv false = Ok mo -> cols (logits mo) = 1) ->
  class_names out_mean = class_names out_max
  /\ forall i j name text mo,
       nth_error prompt_inputs j = Some (name, text) ->
       model text pv false = Ok mo ->
       at2 (clf_logits out_mean) i j = at2 (logits mo) i 0
       /\ at2 (clf_logits out_max) i j = at2 (logits mo) i 0.
Proof.
  intros Hmean Hmax Hone.
  destruct (forward_sound _ _ _ _ Hmean) as [Hn1 [_ Hcm]].
  destruct (forward_sound _ _ _ _ Hmax) as [Hn2 [_ Hcx]].
  split; [congruence|].
  intros i j name text mo Hj Hmo.
  destruct (Hcm j name text Hj) as [mo1 [E1 [_ H1]]].
  destruct (Hcx j name text Hj) as [mo2 [E2 [_ H2]]].
  rewrite Hmo in E1, E2. injection E1 as <-. injection E2 as <-.
  pose proof (Hone name text mo (nth_error_In _ _ Hj) Hmo) as Hc.
  rewrite H1, H2. unfold reduce_row. rewrite (row_singleton _ i Hc).
  split; [apply arithmetic_mean_singleton | reflexivity].
Qed.

Lemma one_prompt_per_class_ignores_ensemble_witness :
  exists out_mean out_max,
    ConVIRTClassifier.forward Toy.forward true [2%R; 3%R]
      [("Edema"%string, Toy.one_prompt)] = Ok out_mean
    /\ ConVIRTClassifier.forward Toy.forward false [2%R; 3%R]
         [("Edema"%string, Toy.one_prompt)] = Ok out_max
    /\ class_names out_mean = class_names out_max.
Proof.
  assert (Hall : forall ensemble,
             returns (ConVIRTClassifier.forward Toy.forward ensemble
                        [2%R; 3%R] [("Edema"%string, Toy.one_prompt)])).
  { intros ensemble. apply forward_returns; [discriminate|].
    intros name text [H | []]. injection H as <- <-.
    destruct (forward_false_returns toy_encoders_shaped Toy.one_prompt
                [2%R; 3%R]) as [mo [Hmo [_ [Hr Hc]]]].
    exists mo. split; [exact Hmo|]. split; [exact Hr|].
    right. rewrite Hc. cbn. lia. }
  destruct (Hall true) as [o1 H1]. destruct (Hall false) as [o2 H2].
  exists o1, o2. split; [exact H1|]. split; [exact H2|].
  assert (Hone : forall name text mo,
             In (name, text) [("Edema"%string, Toy.one_prompt)] ->
             Toy.forward text [2%R; 3%R] false = Ok mo ->
             cols (logits mo) = 1).
  { intros name text mo [H | []] Hmo. injection H as <- <-.
    destruct (forward_false_returns toy_encoders_shaped Toy.one_prompt
                [2%R; 3%R]) as [mo' [Hmo' [_ [_ Hc]]]].
    fold Toy.forward in Hmo'. rewrite Hmo in Hmo'. injection Hmo' as <-.
    rewrite Hc. reflexivity. }
  destruct (@one_prompt_per_class_ignores_ensemble _ _ _ _ _ _ H1 H2 Hone)
    as [Hn _].
  exact Hn.
Defined.

(** *** Classes do not influence each other *)

(** X17.  The scores of a class depend only on its own tokenized prompts
    and the image batch: two prompt sets that hold the same tokenized
    prompts for a class, at any positions, under any names and next to any
    other classes, give that class the same column. *)
Theorem class_scores_are_independent
        (Image : Type)
        (model : BatchEncoding -> list Image -> bool -> result Outputs)
        (ensemble : bool) (pv : list Image)
        (inputs1 inputs2 : list (string * BatchEncoding))
        (out1 out2 : ClassifierOutputs)
        (j1 j2 : nat) (name1 name2 : string) (text : BatchEncoding) :
  ConVIRTClassifier.forward model ensemble pv inputs1 = Ok out1 ->
  ConVIRTClassifier.forward model ensemble pv inputs2 = Ok out2 ->
  nth_error inputs1 j1 = Some (name1, text) ->
  nth_error inputs2 j2 = Some (name2, text) ->
  rows (clf_logits out1) = rows (clf_logits out2)
  /\ forall i, at2 (clf_logits out1) i j1 = at2 (clf_logits out2) i j2.
Proof.
  intros H1 H2 Hj1 Hj2.
  destruct (forward_sound _ _ _ _ H1) as [_ [_ Hc1]].
  destruct (forward_sound _ _ _ _ H2) as [_ [_ Hc2]].
  destruct (Hc1 j1 name1 text Hj1) as [mo1 [E1 [R1 A1]]].
  destruct (Hc2 j2 name2 text Hj2) as [mo2 [E2 [R2 A2]]].
  rewrite E1 in E2. injection E2 as <-.
  split; [congruence|]. intros i. rewrite A1, A2. reflexivity.
Qed.

Lemma class_scores_are_independent_witness :
  exists out1 out2,
    ConVIRTClassifier.forward Toy.forward true [2%R; 3%R] Toy.tokenized
      = Ok out1
    /\ ConVIRTClassifier.forward Toy.forward true [2%R; 3%R]
         [("Effusion"%string, Toy.one_prompt)] = Ok out2
    /\ forall i, at2 (clf_logits out1) i 1 = at2 (clf_logits out2) i 0.
Proof.
  assert (Hall : forall inputs,
             inputs <> [] ->
             returns (ConVIRTClassifier.forward Toy.forward true
                        [2%R; 3%R] inputs)).
  { intros inputs Hne. apply forward_returns; [exact Hne|].
    intros name text _.
    destruct (forward_false_returns toy_encoders_shaped text
                [2%R; 3%R]) as [mo [Hmo [_ [Hr Hc]]]].
    exists mo. split; [exact Hmo|]. split; [exact Hr|]. now left. }
  destruct (Hall Toy.tokenized ltac:(discriminate)) as [o1 H1].
  destruct (Hall [("Effusion"%string, Toy.one_prompt)] ltac:(discriminate))
    as [o2 H2].
  exists o1, o2. split; [exact H1|]. split; [exact H2|].
  apply (@class_scores_are_independent _ _ _ _ _ _ _ _ 1 0
           "Pneumonia"%string "Effusion"%string Toy.one_prompt H1 H2);
    reflexivity.
Defined.

(** *** From template to class scores *)

Lemma process_class_prompts_map
      (pretrained : prompts.Tokenizer) (cls_prompts : Dict.t (list string)) :
  Dict.wf cls_prompts ->
  prompts.process_class_prompts pretrained cls_prompts
  = map (fun kv =>
           (fst kv, prompts.encode pretrained 77 true true (snd kv)))
        cls_prompts.
Proof.
  intros Hwf. unfold prompts.process_class_prompts, prompts.call.
  cbn [prompts.set_model_max_length prompts.model_max_length
       prompts.encode].
  rewrite (fold_setitem_map
             (prompts.encode pretrained 77 true true) cls_prompts [] Hwf).
  reflexivity.
Qed.

Lemma toy_tokenizer_keeps_batch : tokenizer_keeps_batch Toy.tokenizer.
Proof.
  intros max_len truncation padding texts.
  unfold num_prompts. cbn [Toy.tokenizer prompts.encode Toy.byte_encode
                           input_ids].
  destruct padding; rewrite ?length_map; reflexivity.
Qed.

Lemma pipeline_of_generator_returns
      (f : Dict.t (list string) -> result (list string))
      (cand : Dict.t (list string) -> list string)
      (template : Dict.t (Dict.t (list string)))
      (n : option nat) (g : rng) (tok : prompts.Tokenizer)
      (Image : Type) (image_model : list Image -> tensor2)
      (text_model : list (list nat) -> list (list nat) -> tensor2)
      (text_projection_head : tensor2 -> tensor2)
      (ensemble : bool) (pv : list Image) :
  Dict.wf template -> template <> [] ->
  (forall k v, In (k, v) template -> f v = Ok (cand v) /\ cand v <> []) ->
  n <> Some 0 ->
  tokenizer_keeps_batch tok ->
  ConVIRT.encoders_shaped image_model text_model text_projection_head ->
  exists ps g' out,
    for_each template (prompts.template_loop f n) ([], g) = Ok (ps, g')
    /\ ConVIRTClassifier.forward
         (ConVIRT.forward image_model text_model text_projection_head)
         ensemble pv (prompts.process_class_prompts tok ps) = Ok out
    /\ class_names out = Dict.keys template
    /\ rows (clf_logits out) = length pv
    /\ cols (clf_logits out) = length template.
Proof.
  intros Hwf Hne Hf Hn Htok Hshaped.
  destruct (@template_generator_spec f template n g Hwf)
    as [ps [g' [Hrun [Hkeys Hget]]]].
  { intros k v Hin. exists (cand v). apply (Hf k v Hin). }
  exists ps, g'.
  assert (Hwfps : Dict.wf ps) by (unfold Dict.wf; rewrite Hkeys; exact Hwf).
  rewrite (process_class_prompts_map tok Hwfps).
  assert (Hlen : length ps = length template).
  { apply (f_equal (@length string)) in Hkeys. unfold Dict.keys in Hkeys.
    rewrite !length_map in Hkeys. exact Hkeys. }
  assert (Hentries : forall name sampled,
             In (name, sampled) ps -> sampled <> []).
  { intros name sampled Hin.
    assert (Hk : In name (Dict.keys template)).
    { rewrite <- Hkeys. unfold Dict.keys. apply in_map_iff.
      exists (name, sampled). auto. }
    unfold Dict.keys in Hk. apply in_map_iff in Hk.
    destruct Hk as [[k v] [Ek Hinv]]. cbn [fst] in Ek. subst k.
    destruct (Hf name v Hinv) as [Hfv Hcne].
    destruct (Hget name v (cand v) Hinv Hfv) as [s' [Hs' Hsf]].
    rewrite (In_get _ _ Hwfps Hin) in Hs'. injection Hs' as <-.
    apply sampled_from_length in Hsf. intros ->. cbn [length] in Hsf.
    symmetry in Hsf. apply kept_zero in Hsf. destruct Hsf as [E | E].
    - contradiction.
    - apply length_zero_iff_nil in E. contradiction. }
  set (enc := fun kv : string * list string =>
                (fst kv, prompts.encode tok 77 true true (snd kv))).
  assert (Hpne : map enc ps <> []).
  { destruct ps as [|p ps']; [|discriminate].
    destruct template; [contradiction | discriminate Hlen]. }
  assert (Hret : returns
            (ConVIRTClassifier.forward
               (ConVIRT.forward image_model text_model text_projection_head)
               ensemble pv (map enc ps))).
  { apply forward_returns; [exact Hpne|].
    intros name text Hin. apply in_map_iff in Hin.
    destruct Hin as [[k s] [E Hks]]. unfold enc in E. cbn [fst snd] in E.
    injection E as <- <-.
    destruct (forward_false_returns Hshaped
                (prompts.encode tok 77 true true s) pv)
      as [mo [Hmo [_ [Hr Hc]]]].
    exists mo. split; [exact Hmo|]. split; [exact Hr|].
    right. rewrite Hc, Htok. specialize (Hentries k s Hks).
    destruct s; [contradiction | cbn; lia]. }
  destruct Hret as [out Hout]. exists out.
  split; [exact Hrun|]. split; [exact Hout|].
  destruct (forward_sound _ _ _ _ Hout) as [Hnames [Hcols Hcol]].
  split.
  { rewrite Hnames, map_map. exact Hkeys. }
  split.
  { destruct (map enc ps) as [|[name text] rest] eqn:E;
      [contradiction|].
    destruct (Hcol 0 name text eq_refl) as [mo [Hmo [Hr _]]].
    destruct (forward_false_returns Hshaped text pv)
      as [mo' [Hmo' [_ [Hr' _]]]].
    rewrite Hmo in Hmo'. injection Hmo' as <-.
    rewrite <- Hr. exact Hr'. }
  rewrite Hcols, length_map. exact Hlen.
Qed.

(** X19.  The evaluation pipeline composes: for a non-empty template
    whose classes list at least three (CheXpert) or four (COVID) component
    phrase lists, the leading ones non-empty, a sample size other than 0, a
    tokenizer that answers with one sequence per prompt and encoders of the
    architecture's shapes, generating the prompts, tokenizing them and
    classifying an image batch raises nothing, whatever the random draws
    and under both reductions; the class names are the template's keys in
    order and the score matrix has one row per image and one column per
    class. *)
Theorem generated_prompts_classify
        (template : Dict.t (Dict.t (list string)))
        (n : option nat) (g : rng) (tok : prompts.Tokenizer)
        (Image : Type) (image_model : list Image -> tensor2)
        (text_model : list (list nat) -> list (list nat) -> tensor2)
        (text_projection_head : tensor2 -> tensor2)
        (ensemble : bool) (pv : list Image) :
  template <> [] ->
  n <> Some 0 ->
  tokenizer_keeps_batch tok ->
  ConVIRT.encoders_shaped image_model text_model text_projection_head ->
  (template_at_least 3 template ->
   (forall k v, In (k, v) template -> leading_nonempty 3 v) ->
   exists ps g' out,
     prompts.generate_chexpert_class_prompts template n g = Ok (ps, g')
     /\ ConVIRTClassifier.forward
          (ConVIRT.forward image_model text_model text_projection_head)
          ensemble pv (prompts.process_class_prompts tok ps) = Ok out
     /\ class_names out = Dict.keys template
     /\ rows (clf_logits out) = length pv
     /\ cols (clf_logits out) = length template)
  /\ (template_at_least 4 template ->
      (forall k v, In (k, v) template -> leading_nonempty 4 v) ->
      exists ps g' out,
        prompts.generate_covid_class_prompts template n g = Ok (ps, g')
        /\ ConVIRTClassifier.forward
             (ConVIRT.forward image_model text_model text_projection_head)
             ensemble pv (prompts.process_class_prompts tok ps) = Ok out
        /\ class_names out = Dict.keys template
        /\ rows (clf_logits out) = length pv
        /\ cols (clf_logits out) = length template).
Proof.
  intros Hne Hn Htok Hshaped. split.
  - intros [Hwf Hshape] Hlead.
    unfold prompts.generate_chexpert_class_prompts.
    apply (@pipeline_of_generator_returns
             prompts.chexpert_cls_prompts candidates3 template n g tok
             _ _ _ _ ensemble pv Hwf Hne); try assumption.
    intros k v Hin. destruct (Hshape k v Hin) as [Hwfv Hlen]. split.
    + apply chexpert_cls_prompts_leading; assumption.
    + intros E. apply (f_equal (@length string)) in E.
      unfold candidates3 in E. rewrite length_cross3 in E.
      cbn [length] in E. apply (leading_nonempty_3 v) in E; [exact E|].
      apply (Hlead k v Hin).
  - intros [Hwf Hshape] Hlead.
    unfold prompts.generate_covid_class_prompts.
    apply (@pipeline_of_generator_returns
             prompts.covid_cls_prompts candidates4 template n g tok
             _ _ _ _ ensemble pv Hwf Hne); try assumption.
    intros k v Hin. destruct (Hshape k v Hin) as [Hwfv Hlen]. split.
    + apply covid_cls_prompts_leading; assumption.
    + intros E. apply (f_equal (@length string)) in E.
      unfold candidates4 in E. rewrite length_cross4 in E.
      cbn [length] in E. apply (leading_nonempty_4 v) in E; [exact E|].
      apply (Hlead k v Hin).
Qed.

Lemma generated_prompts_classify_witness :
  exists ps g' out,
    prompts.generate_chexpert_class_prompts Toy.template3 (Some 2) [5; 1]
      = Ok (ps, g')
    /\ ConVIRTClassifier.forward Toy.forward false [2%R; 3%R]
         (prompts.process_class_prompts Toy.tokenizer ps) = Ok out
    /\ class_names out = ["Edema"%string]
    /\ rows (clf_logits out) = 2
    /\ cols (clf_logits out) = 1.
Proof.
  assert (Hne : Toy.template3 <> []) by discriminate.
  assert (Hn : Some 2 <> Some 0) by discriminate.
  destruct (@generated_prompts_classify Toy.template3 (Some 2) [5; 1]
              Toy.tokenizer _ _ _ _ false [2%R; 3%R] Hne Hn
              toy_tokenizer_keeps_batch toy_encoders_shaped) as [H _].
  apply H.
  - exact toy_template3_at_least.
  - intros k v [E | []]. injection E as <- <-.
    intros i Hi. destruct i as [|[|[|i]]]; cbn; try discriminate. lia.
Defined.

(** ** A projection of zeros spoils the logits *)

Lemma binary32_sum_from_nan (l : list spec_float) :
  fold_left (SFadd Float.prec Float.emax) l S754_nan = S754_nan.
Proof.
  induction l as [|x l IH]; cbn [fold_left]; [reflexivity|].
  exact IH.
Qed.

Lemma binary32_nan_laws : ieee_nan_laws Float.binary32.
Proof.
  split.
  - intros a b Ha Hlen Hnan. cbn [Float.dot Float.binary32 Float.is_nan].
    unfold Float.sum.
    destruct a as [|x a]; [contradiction|].
    destruct b as [|y b]; [discriminate Hlen|].
    cbn [combine map fold_left fst snd].
    assert (E : SFmul Float.prec Float.emax x y = S754_nan).
    { destruct Hnan as [H | H]; cbn [forallb] in H;
        apply andb_prop in H; destruct H as [H _].
      - destruct x; try discriminate H. reflexivity.
      - destruct y; try discriminate H. destruct x; reflexivity. }
    rewrite E. cbn [SFadd]. rewrite binary32_sum_from_nan. reflexivity.
  - intros x c Hx. destruct x; try discriminate Hx. reflexivity.
Qed.

Lemma nan_row_forallb {F : Type} (A : Float.arith F) (t : Float.tensor2 F)
      (i : nat) :
  nan_row A t i -> forallb (Float.is_nan A) (Float.row t i) = true.
Proof.
  intros H. apply forallb_forall. intros x Hx. unfold Float.row in Hx.
  apply in_map_iff in Hx. destruct Hx as [k [<- Hk]].
  apply in_seq in Hk. apply H. lia.
Qed.

Lemma float_row_length {F : Type} (t : Float.tensor2 F) (i : nat) :
  length (Float.row t i) = Float.cols t.
Proof. unfold Float.row. rewrite length_map, length_seq. reflexivity. Qed.

(** X20.  A projection of zeros is not contained: in every returned
    forward pass over an arithmetic with the IEEE behaviour of zeros and
    non-numbers, an image whose projected embedding is all zero has a
    non-number as its logit against every prompt, and a prompt whose
    projected embedding is all zero has a non-number as its logit against
    every image. *)
Theorem zero_projection_spoils_logits
        (F : Type) (A : Float.arith F)
        (CrossEntropyLoss : Float.tensor2 F -> list nat -> result F)
        (Image : Type) (image_model : list Image -> Float.tensor2 F)
        (text_model : list (list nat) -> list (list nat) -> Float.tensor2 F)
        (text_projection_head : Float.tensor2 F -> Float.tensor2 F)
        (enc : BatchEncoding) (pv : list Image) (rl : bool)
        (out : Float.Outputs F) :
  FloatConVIRT.forward A CrossEntropyLoss image_model text_model
                       text_projection_head enc pv rl
    = Ok out ->
  ieee_zero_laws A -> ieee_nan_laws A ->
  let raw_img := image_model pv in
  let raw_text :=
    text_projection_head
      (text_model (input_ids enc) (attention_mask enc)) in
  0 < Float.cols raw_img ->
  (forall i, zero_row A raw_img i ->
             forall j, Float.is_nan A (Float.at2 (Float.logits out) i j)
                       = true)
  /\ (forall j, zero_row A raw_text j ->
                forall i, Float.is_nan A (Float.at2 (Float.logits out) i j)
                          = true).
Proof.
  intros H Hzero [Hdot Hdiv] raw_img raw_text Hpos.
  apply float_forward_inv in H.
  destruct H as [Himg [Htxt [[prod [Hprod Hlg]] _]]].
  fold raw_img in Himg. fold raw_text in Htxt.
  destruct (float_matmul_transpose _ _ _ Hprod) as [Hw [_ [_ Hat]]].
  assert (Hne : forall i, Float.row (Float.img_embeds out) i <> []).
  { intros i E. apply (f_equal (@length F)) in E.
    rewrite float_row_length, Himg in E.
    cbn [Float.tdiv Float.cols length] in E. lia. }
  assert (Hlen : forall i j,
             length (Float.row (Float.img_embeds out) i)
             = length (Float.row (Float.text_embeds out) j)).
  { intros i j. rewrite !float_row_length. exact Hw. }
  split.
  - intros i Hz j. rewrite Hlg.
    cbn [Float.tdiv_scalar Float.at2]. apply Hdiv. rewrite Hat.
    apply Hdot; [apply Hne | apply Hlen|]. left.
    apply nan_row_forallb. rewrite Himg.
    apply zero_row_is_not_normalised; assumption.
  - intros j Hz i. rewrite Hlg.
    cbn [Float.tdiv_scalar Float.at2]. apply Hdiv. rewrite Hat.
    apply Hdot; [apply Hne | apply Hlen|]. right.
    apply nan_row_forallb. rewrite Htxt.
    apply zero_row_is_not_normalised; assumption.
Qed.

Lemma zero_projection_spoils_logits_witness :
  exists out,
    Toy.float_forward Toy.two_prompts [Toy.two; S754_zero false] false
      = Ok out
    /\ Float.at2 (Float.logits out) 1 0 = S754_nan
    /\ Float.at2 (Float.logits out) 1 1 = S754_nan.
Proof.
  eexists. split; [reflexivity|].
  destruct (@zero_projection_spoils_logits
              _ Float.binary32 Toy.no_loss _ Toy.float_image_model
              Toy.float_text_model Toy.float_projection_head
              Toy.two_prompts [Toy.two; S754_zero false] false _ eq_refl
              binary32_zero_laws binary32_nan_laws (Nat.lt_0_succ _))
    as [Himg _].
  assert (Hz : zero_row Float.binary32
                 (Toy.float_image_model [Toy.two; S754_zero false]) 1).
  { intros k _. cbn [Toy.float_image_model Float.at2 nth].
    destruct (k =? 0); reflexivity. }
  split.
  - pose proof (Himg 1 Hz 0) as E.
    destruct (Float.at2 _ 1 0); try discriminate E. reflexivity.
  - pose proof (Himg 1 Hz 1) as E.
    destruct (Float.at2 _ 1 1); try discriminate E. reflexivity.
Defined.
